(** * The disassembly cache of the debugger: [src/dasm_cache/dasm_cache.c]

    A shallow embedding of the cache layer (instruction arrays, the striped
    node table, the user-to-parse request ring, the parse worker and the
    evictor/detector sweep) together with the properties its specification
    states about it.

    Conventions.
    - [U64] values are [Z]; every C addition or subtraction on them is
      followed by [wrap64].
    - A [String8] is a [list byte]; the ring's memory maps offsets to bytes.
    - Nodes live in a node memory indexed by address; slots and free lists
      hold addresses, so a write through a node pointer is seen wherever that
      node is linked.
    - The functions of the file run in the monad [M]: they thread the
      [World] and either return or have not returned: they stay suspended
      on a condition variable, or in the worker's poll of the text cache. *)

From Stdlib Require Import ZArith List Lia Bool String.
From Stdlib Require Import Init.Byte.
From stdpp Require Import base list gmap.

Local Open Scope Z_scope.

(** ** Machine integers and bytes *)

Definition max_U64 : Z := 2 ^ 64 - 1.

Definition wrap64 (z : Z) : Z := z mod 2 ^ 64.

Definition KB (n : Z) : Z := n * 1024.

Definition byte_of_Z (z : Z) : byte :=
  match Byte.of_N (Z.to_N (z mod 256)) with
  | Some b => b
  | None => Byte.x00
  end.

Definition Z_of_byte (b : byte) : Z := Z.of_N (Byte.to_N b).

(** The [n] bytes a little-endian machine stores for the integer [z]. *)
Fixpoint le_bytes (n : nat) (z : Z) : list byte :=
  match n with
  | O => []
  | S n' => byte_of_Z z :: le_bytes n' (z / 256)
  end.

(** The integer a little-endian machine reads from the bytes [bs]. *)
Fixpoint le_value (bs : list byte) : Z :=
  match bs with
  | [] => 0
  | b :: bs' => Z_of_byte b + 256 * le_value bs'
  end.

Definition String8 : Type := list byte.

Definition str8_lit (s : string) : String8 := list_byte_of_string s.

Definition str8_size (s : String8) : Z := Z.of_nat (length s).

(** The separator ["\n"] of the rendered text. *)
Definition str8_newline : String8 := [Byte.x0a].

(** ** 128-bit values *)

Record U128 : Type := mkU128 { u64_0 : Z; u64_1 : Z }.

(** Modelled from the spec: [u128_zero] and [u128_match] of the base layer
    (not part of this file); the zero hash is [(0,0)] and two hashes match
    when both halves are equal. *)
Definition u128_zero : U128 := mkU128 0 0.

Definition u128_match (a b : U128) : bool :=
  (u64_0 a =? u64_0 b) && (u64_1 a =? u64_1 b).

Definition U128_bytes (h : U128) : list byte :=
  le_bytes 8 (u64_0 h) ++ le_bytes 8 (u64_1 h).

Definition U128_of_bytes (bs : list byte) : U128 :=
  mkU128 (le_value (take 8 bs)) (le_value (take 8 (drop 8 bs))).

(** ** Ring buffer primitives *)

(** The memory of a ring: the bytes stored at the offsets written so far;
    an offset never written reads as 0. *)
Abbreviation ring_mem := (gmap Z byte).

(** Modelled from the spec: [ring_write] and [ring_read] of the base layer
    (not part of this file).  Positions grow monotonically and are reduced
    modulo the ring size only when memory is addressed: byte [i] of a
    transfer at position [pos] lives at offset [(pos + i) mod ring_size].
    Both return the number of bytes transferred. *)
Fixpoint ring_write_bytes (ring_base : ring_mem) (ring_size ring_pos : Z)
    (src : list byte) : ring_mem :=
  match src with
  | [] => ring_base
  | b :: src' =>
      ring_write_bytes (<[ring_pos mod ring_size := b]> ring_base)
        ring_size (ring_pos + 1) src'
  end.

Definition ring_write (ring_base : ring_mem) (ring_size ring_pos : Z)
    (src : list byte) : ring_mem * Z :=
  (ring_write_bytes ring_base ring_size ring_pos src, str8_size src).

Fixpoint ring_read_bytes (ring_base : ring_mem) (ring_size ring_pos : Z)
    (n : nat) : list byte :=
  match n with
  | O => []
  | S n' =>
      default Byte.x00 (ring_base !! (ring_pos mod ring_size))
        :: ring_read_bytes ring_base ring_size (ring_pos + 1) n'
  end.

Definition ring_read (ring_base : ring_mem) (ring_size ring_pos : Z)
    (n : Z) : list byte * Z :=
  (ring_read_bytes ring_base ring_size ring_pos (Z.to_nat n), n).

(** ** Instruction records *)

Record Rng1U64 : Type := mkRng1U64 { rng_min : Z; rng_max : Z }.

(** Modelled from the spec: [r1u64] of the base layer (not part of this
    file) builds the half-open range [[min, max)]. *)
Definition r1u64 (min max : Z) : Rng1U64 := mkRng1U64 min max.

Record DASM_Inst : Type := mkInst {
  code_off : Z;
  jump_dst_vaddr : Z;
  text_range : Rng1U64
}.

Definition DASM_Inst_zero : DASM_Inst := mkInst 0 0 (mkRng1U64 0 0).

(** An instruction array: [v] holds the elements, [count] is their number. *)
Record DASM_InstArray : Type := mkInstArray { v : list DASM_Inst }.

Definition count (array : DASM_InstArray) : Z := Z.of_nat (length (v array)).

(** One chunk of a chunk list: [chunk_v] holds the [count] elements filled
    so far of an allocation of [chunk_cap] elements. *)
Record DASM_InstChunkNode : Type := mkChunk {
  chunk_v : list DASM_Inst;
  chunk_cap : Z
}.

Definition chunk_count (n : DASM_InstChunkNode) : Z :=
  Z.of_nat (length (chunk_v n)).

(** The chunk list; [chunks] runs from [first] to [last]. *)
Record DASM_InstChunkList : Type := mkChunkList {
  chunks : list DASM_InstChunkNode;
  node_count : Z;
  inst_count : Z
}.

Definition DASM_InstChunkList_zero : DASM_InstChunkList := mkChunkList [] 0 0.

Definition dasm_inst_chunk_list_push (lst : DASM_InstChunkList) (cap : Z)
    (inst : DASM_Inst) : DASM_InstChunkList :=
  let fresh :=
    match last (chunks lst) with
    | None => true
    | Some node => chunk_count node >=? chunk_cap node
    end in
  let list1 :=
    if fresh
    then mkChunkList (chunks lst ++ [mkChunk [] cap])
           (wrap64 (node_count lst + 1)) (inst_count lst)
    else lst in
  match last (chunks list1) with
  | None => list1
  | Some node =>
      mkChunkList
        (removelast (chunks list1) ++ [mkChunk (chunk_v node ++ [inst]) (chunk_cap node)])
        (node_count list1) (wrap64 (inst_count list1 + 1))
  end.

Definition dasm_inst_array_from_chunk_list (lst : DASM_InstChunkList)
    : DASM_InstArray :=
  mkInstArray (concat (map chunk_v (chunks lst))).

(** The loop of [dasm_inst_array_idx_from_code_off__linear_scan], entered
    at index [idx] with the elements [l] still ahead; falling off the end
    leaves [result] at its initial 0. *)
Fixpoint linear_scan_from (l : list DASM_Inst) (idx off : Z) : Z :=
  match l with
  | [] => 0
  | inst :: l' =>
      if code_off inst =? off then idx else linear_scan_from l' (idx + 1) off
  end.

Definition dasm_inst_array_idx_from_code_off__linear_scan
    (array : DASM_InstArray) (off : Z) : Z :=
  linear_scan_from (v array) 0 off.

Definition dasm_inst_array_code_off_from_idx (array : DASM_InstArray)
    (idx : Z) : Z :=
  if idx <? count array
  then match v array !! Z.to_nat idx with
       | Some inst => code_off inst
       | None => 0
       end
  else 0.

(** ** Parameters, infos and nodes *)

Module DI_Key.
Record t : Type := mk { path : String8; min_timestamp : Z }.
Definition zero : t := mk [] 0.
End DI_Key.

Module Params.
Record t : Type := mk {
  vaddr : Z;
  arch : Z;
  style_flags : Z;
  syntax : Z;
  base_vaddr : Z;
  dbgi_key : DI_Key.t
}.
Definition zero : t := mk 0 0 0 0 0 DI_Key.zero.
End Params.

Module Info.
Record t : Type := mk { text_key : U128; insts : DASM_InstArray }.
Definition zero : t := mk u128_zero (mkInstArray []).
End Info.

Module Node.
Record t : Type := mk {
  hash : U128;
  params : Params.t;
  info_arena : Z;
  info : Info.t;
  scope_ref_count : Z;
  last_time_touched_us : Z;
  last_user_clock_idx_touched : Z;
  last_time_requested_us : Z;
  last_user_clock_idx_requested : Z;
  load_count : Z;
  is_working : Z;
  change_gen : Z
}.
Definition zero : t :=
  mk u128_zero Params.zero 0 Info.zero 0 0 0 0 0 0 0 0.

(** Assignments to single fields. *)
Definition set_info_arena (x : Z) (n : t) : t :=
  mk (hash n) (params n) x (info n) (scope_ref_count n)
    (last_time_touched_us n) (last_user_clock_idx_touched n)
    (last_time_requested_us n) (last_user_clock_idx_requested n)
    (load_count n) (is_working n) (change_gen n).
Definition set_info (x : Info.t) (n : t) : t :=
  mk (hash n) (params n) (info_arena n) x (scope_ref_count n)
    (last_time_touched_us n) (last_user_clock_idx_touched n)
    (last_time_requested_us n) (last_user_clock_idx_requested n)
    (load_count n) (is_working n) (change_gen n).
Definition set_scope_ref_count (x : Z) (n : t) : t :=
  mk (hash n) (params n) (info_arena n) (info n) x (last_time_touched_us n)
    (last_user_clock_idx_touched n) (last_time_requested_us n)
    (last_user_clock_idx_requested n) (load_count n) (is_working n)
    (change_gen n).
Definition set_last_time_touched_us (x : Z) (n : t) : t :=
  mk (hash n) (params n) (info_arena n) (info n) (scope_ref_count n) x
    (last_user_clock_idx_touched n) (last_time_requested_us n)
    (last_user_clock_idx_requested n) (load_count n) (is_working n)
    (change_gen n).
Definition set_last_user_clock_idx_touched (x : Z) (n : t) : t :=
  mk (hash n) (params n) (info_arena n) (info n) (scope_ref_count n)
    (last_time_touched_us n) x (last_time_requested_us n)
    (last_user_clock_idx_requested n) (load_count n) (is_working n)
    (change_gen n).
Definition set_last_time_requested_us (x : Z) (n : t) : t :=
  mk (hash n) (params n) (info_arena n) (info n) (scope_ref_count n)
    (last_time_touched_us n) (last_user_clock_idx_touched n) x
    (last_user_clock_idx_requested n) (load_count n) (is_working n)
    (change_gen n).
Definition set_last_user_clock_idx_requested (x : Z) (n : t) : t :=
  mk (hash n) (params n) (info_arena n) (info n) (scope_ref_count n)
    (last_time_touched_us n) (last_user_clock_idx_touched n)
    (last_time_requested_us n) x (load_count n) (is_working n)
    (change_gen n).
Definition set_load_count (x : Z) (n : t) : t :=
  mk (hash n) (params n) (info_arena n) (info n) (scope_ref_count n)
    (last_time_touched_us n) (last_user_clock_idx_touched n)
    (last_time_requested_us n) (last_user_clock_idx_requested n) x
    (is_working n) (change_gen n).
Definition set_is_working (x : Z) (n : t) : t :=
  mk (hash n) (params n) (info_arena n) (info n) (scope_ref_count n)
    (last_time_touched_us n) (last_user_clock_idx_touched n)
    (last_time_requested_us n) (last_user_clock_idx_requested n)
    (load_count n) x (change_gen n).
Definition set_change_gen (x : Z) (n : t) : t :=
  mk (hash n) (params n) (info_arena n) (info n) (scope_ref_count n)
    (last_time_touched_us n) (last_user_clock_idx_touched n)
    (last_time_requested_us n) (last_user_clock_idx_requested n)
    (load_count n) (is_working n) x.
End Node.

Module Touch.
Record t : Type := mk { hash : U128; params : Params.t }.
End Touch.

(** ** The shared table and the world around it *)

(** A slot: the doubly-linked list [first .. last] of its nodes, as the
    addresses of the nodes in list order. *)
Record DASM_Slot : Type := mkSlot { slot_list : list Z }.

(** A stripe: its handles and the stack of free nodes ([free_node] is the
    top, every next link one step down). *)
Record DASM_Stripe : Type := mkStripe {
  stripe_arena : Z;
  rw_mutex : Z;
  stripe_cv : Z;
  free_node : list Z
}.

Record DASM_Shared : Type := mkShared {
  slots_count : Z;
  stripes_count : Z;
  slots : list DASM_Slot;
  stripes : list DASM_Stripe;
  u2p_ring_size : Z;
  u2p_ring_base : ring_mem;
  u2p_ring_write_pos : Z;
  u2p_ring_read_pos : Z;
  u2p_ring_cv : Z;
  u2p_ring_mutex : Z;
  user_clock_idx : Z
}.

(** What the operating system layer is asked to do, in program order. *)
Inductive OS_Event : Type :=
  | Ev_condition_variable_broadcast (handle : Z)
  | Ev_condition_variable_wait (cv mutex endt_us : Z)
  | Ev_arena_release (arena : Z)
  | Ev_hs_submit_data (key : U128) (arena : Z) (data : String8).

Record World : Type := mkWorld {
  dasm_shared : DASM_Shared;
  node_mem : gmap Z Node.t;
  scope_mem : gmap Z (list Touch.t);
  alloc_top : Z;
  fs_gen : Z;
  os_ticks : nat;
  os_trace : list OS_Event
}.

(** ** The monad of the file's functions *)

(** A call either returns a value in a new world, or has not returned in
    the world it reached: it is suspended inside
    [os_condition_variable_wait], or it stays in a polling loop. *)
Inductive Res (A : Type) : Type :=
  | Ret (a : A) (w : World)
  | Blocked (w : World).
Arguments Ret {A} a w.
Arguments Blocked {A} w.

Definition M (A : Type) : Type := World -> Res A.

Definition M_ret {A} (a : A) : M A := fun w => Ret a w.

Definition M_bind {A B} (k : A -> M B) (m : M A) : M B :=
  fun w =>
    match m w with
    | Ret a w' => k a w'
    | Blocked w' => Blocked w'
    end.

#[global] Instance M_mret : MRet M := @M_ret.
#[global] Instance M_mbind : MBind M := @M_bind.

Definition get_world : M World := fun w => Ret w w.
Definition put_world (w : World) : M unit := fun _ => Ret tt w.
Definition block {A} : M A := fun w => Blocked w.

Definition get_shared : M DASM_Shared := fun w => Ret (dasm_shared w) w.

Definition put_shared (s : DASM_Shared) : M unit :=
  fun w => Ret tt (mkWorld s (node_mem w) (scope_mem w) (alloc_top w) (fs_gen w)
                     (os_ticks w) (os_trace w)).

(** An assignment to fields of [*dasm_shared] computed from its current
    value. *)
Definition modify_shared (f : DASM_Shared -> DASM_Shared) : M unit :=
  fun w => Ret tt (mkWorld (f (dasm_shared w)) (node_mem w) (scope_mem w)
                     (alloc_top w) (fs_gen w) (os_ticks w) (os_trace w)).

(** Reading through a node pointer; memory never written reads as zero. *)
Definition node_at (mem : gmap Z Node.t) (n : Z) : Node.t :=
  default Node.zero (mem !! n).

Definition load_node (n : Z) : M Node.t :=
  fun w => Ret (node_at (node_mem w) n) w.

Definition store_node (n : Z) (node : Node.t) : M unit :=
  fun w => Ret tt (mkWorld (dasm_shared w) (<[n := node]> (node_mem w)) (scope_mem w)
                     (alloc_top w) (fs_gen w) (os_ticks w) (os_trace w)).

(** An assignment to fields of the node at [n] computed from its current
    value. *)
Definition modify_node (n : Z) (f : Node.t -> Node.t) : M unit :=
  fun w => Ret tt (mkWorld (dasm_shared w)
                     (<[n := f (node_at (node_mem w) n)]> (node_mem w)) (scope_mem w)
                     (alloc_top w) (fs_gen w) (os_ticks w) (os_trace w)).

Definition os_emit (e : OS_Event) : M unit :=
  fun w => Ret tt (mkWorld (dasm_shared w) (node_mem w) (scope_mem w) (alloc_top w)
                     (fs_gen w) (os_ticks w) (os_trace w ++ [e])).

(** [SLLStackPush(scope->top_touch, touch)]. *)
Definition scope_push_touch (scope : Z) (touch : Touch.t) : M unit :=
  fun w =>
    Ret tt (mkWorld (dasm_shared w) (node_mem w)
              (<[scope := touch :: default [] (scope_mem w !! scope)]> (scope_mem w))
              (alloc_top w) (fs_gen w) (os_ticks w) (os_trace w)).

(** A fresh address or handle; never 0. *)
Definition alloc_fresh : M Z :=
  fun w => Ret (alloc_top w + 1)
             (mkWorld (dasm_shared w) (node_mem w) (scope_mem w) (alloc_top w + 1)
                (fs_gen w) (os_ticks w) (os_trace w)).

Definition get_node_mem : M (gmap Z Node.t) := fun w => Ret (node_mem w) w.

(** ** Updating single fields of the shared state *)

Definition set_slots (s : DASM_Shared) (x : list DASM_Slot) : DASM_Shared :=
  mkShared (slots_count s) (stripes_count s) x (stripes s) (u2p_ring_size s)
    (u2p_ring_base s) (u2p_ring_write_pos s) (u2p_ring_read_pos s)
    (u2p_ring_cv s) (u2p_ring_mutex s) (user_clock_idx s).

Definition set_stripes (s : DASM_Shared) (x : list DASM_Stripe) : DASM_Shared :=
  mkShared (slots_count s) (stripes_count s) (slots s) x (u2p_ring_size s)
    (u2p_ring_base s) (u2p_ring_write_pos s) (u2p_ring_read_pos s)
    (u2p_ring_cv s) (u2p_ring_mutex s) (user_clock_idx s).

Definition set_u2p_ring_base (s : DASM_Shared) (x : ring_mem) : DASM_Shared :=
  mkShared (slots_count s) (stripes_count s) (slots s) (stripes s) (u2p_ring_size s)
    x (u2p_ring_write_pos s) (u2p_ring_read_pos s)
    (u2p_ring_cv s) (u2p_ring_mutex s) (user_clock_idx s).

Definition set_u2p_ring_write_pos (s : DASM_Shared) (x : Z) : DASM_Shared :=
  mkShared (slots_count s) (stripes_count s) (slots s) (stripes s) (u2p_ring_size s)
    (u2p_ring_base s) x (u2p_ring_read_pos s)
    (u2p_ring_cv s) (u2p_ring_mutex s) (user_clock_idx s).

Definition set_u2p_ring_read_pos (s : DASM_Shared) (x : Z) : DASM_Shared :=
  mkShared (slots_count s) (stripes_count s) (slots s) (stripes s) (u2p_ring_size s)
    (u2p_ring_base s) (u2p_ring_write_pos s) x
    (u2p_ring_cv s) (u2p_ring_mutex s) (user_clock_idx s).

Definition set_user_clock_idx (s : DASM_Shared) (x : Z) : DASM_Shared :=
  mkShared (slots_count s) (stripes_count s) (slots s) (stripes s) (u2p_ring_size s)
    (u2p_ring_base s) (u2p_ring_write_pos s) (u2p_ring_read_pos s)
    (u2p_ring_cv s) (u2p_ring_mutex s) x.

(** [&dasm_shared->slots[slot_idx]] and [&dasm_shared->stripes[stripe_idx]]. *)
Definition slot_at (s : DASM_Shared) (slot_idx : Z) : DASM_Slot :=
  default (mkSlot []) (slots s !! Z.to_nat slot_idx).

Definition stripe_at (s : DASM_Shared) (stripe_idx : Z) : DASM_Stripe :=
  default (mkStripe 0 0 0 []) (stripes s !! Z.to_nat stripe_idx).

(** An update of the slot [dasm_shared->slots[slot_idx]] in place, and of
    the stripe [dasm_shared->stripes[stripe_idx]]. *)
Definition modify_slot (slot_idx : Z) (f : DASM_Slot -> DASM_Slot) : M unit :=
  modify_shared
    (λ s, set_slots s (<[Z.to_nat slot_idx := f (slot_at s slot_idx)]> (slots s))).

Definition modify_stripe (stripe_idx : Z) (f : DASM_Stripe -> DASM_Stripe)
    : M unit :=
  modify_shared
    (λ s, set_stripes s
            (<[Z.to_nat stripe_idx := f (stripe_at s stripe_idx)]> (stripes s))).

(** The list walk [for(n = slot->first; n != 0; n = n->next)] that stops at
    the first node satisfying [p]. *)
Fixpoint slot_first (p : Node.t -> bool) (mem : gmap Z Node.t) (l : list Z)
    : option Z :=
  match l with
  | [] => None
  | n :: l' => if p (node_at mem n) then Some n else slot_first p mem l'
  end.

(** Modelled from the spec: the list macros of the base layer (not part of
    this file).  [DLLPushBack] appends to the slot list, [DLLRemove] unlinks
    a node from it, [SLLStackPush] and [SLLStackPop] push onto and pop from
    the free-node stack. *)
Definition DLLPushBack (slot : DASM_Slot) (n : Z) : DASM_Slot :=
  mkSlot (slot_list slot ++ [n]).

Definition DLLRemove (slot : DASM_Slot) (n : Z) : DASM_Slot :=
  mkSlot (filter (λ a, a ≠ n) (slot_list slot)).

Definition SLLStackPush (stripe : DASM_Stripe) (n : Z) : DASM_Stripe :=
  mkStripe (stripe_arena stripe) (rw_mutex stripe) (stripe_cv stripe)
    (n :: free_node stripe).

Definition SLLStackPop (stripe : DASM_Stripe) : DASM_Stripe :=
  mkStripe (stripe_arena stripe) (rw_mutex stripe) (stripe_cv stripe)
    (tail (free_node stripe)).

(** ** String lists and formatting *)

(** Modelled from the spec: [String8List], [str8_list_push] and
    [str8_list_join] of the base layer (not part of this file).  A push
    appends one string and advances [node_count] by one and [total_size] by
    the string's size; a join concatenates the strings with the separator
    between neighbours and nothing after the last one. *)
Module String8List.
Record t : Type := mk {
  strings : list String8;
  node_count : Z;
  total_size : Z
}.
Definition zero : t := mk [] 0 0.
End String8List.

Definition str8_list_push (l : String8List.t) (s : String8) : String8List.t :=
  String8List.mk (String8List.strings l ++ [s])
    (wrap64 (String8List.node_count l + 1))
    (wrap64 (String8List.total_size l + str8_size s)).

Fixpoint str8_join (sep : String8) (l : list String8) : String8 :=
  match l with
  | [] => []
  | s :: l' =>
      match l' with
      | [] => s
      | _ :: _ => s ++ sep ++ str8_join sep l'
      end
  end.

Definition str8_list_join (l : String8List.t) (sep : String8) : String8 :=
  str8_join sep (String8List.strings l).

(** The bytes of [text] a range selects. *)
Definition str8_range (text : String8) (r : Rng1U64) : String8 :=
  take (Z.to_nat (rng_max r - rng_min r)) (drop (Z.to_nat (rng_min r)) text).

(** Modelled from the spec: the hexadecimal conversions of the base
    layer's formatter; [digits] digits, most significant first. *)
Definition hex_digit (upper : bool) (d : Z) : byte :=
  byte_of_Z (if d <? 10 then 48 + d else (if upper then 55 else 87) + d).

Fixpoint hex_fixed (upper : bool) (digits : nat) (z : Z) : String8 :=
  match digits with
  | O => []
  | S digits' => hex_fixed upper digits' (z / 16) ++ [hex_digit upper (z mod 16)]
  end.

(** ** What the file takes from its header and from the other layers *)

(** The declarations of [dasm_cache.h] and of the base layer the functions
    below depend on: the widths of the three tag types written to the ring
    and the values of the enumerators the code names. *)
Class DASM_Header : Type := {
  sizeof_Architecture : nat;
  sizeof_DASM_StyleFlags : nat;
  sizeof_DASM_Syntax : nat;
  Architecture_x64 : Z;
  Architecture_x86 : Z;
  DASM_StyleFlag_Addresses : Z;
  DASM_StyleFlag_CodeBytes : Z;
  DASM_StyleFlag_SourceFilesNames : Z;
  DASM_StyleFlag_SourceLines : Z;
  DASM_StyleFlag_SymbolNames : Z;
  DASM_Syntax_Intel : Z
}.

(** What one call of [ud_disassemble] leaves behind: its return value,
    the formatted text in [asm_buf], and the target of the first operand
    when that operand exists and is a jump immediate. *)
Record UD_Insn : Type := mkInsn {
  ud_insn_size : Z;
  ud_asm_buf : String8;
  ud_jimm_target : option Z
}.

(** A line record of the debug info: where it lives, and what it holds. *)
Record RDI_Line : Type := mkLine {
  line_addr : Z;
  file_idx : Z;
  line_num : Z
}.

Record RDI_ParsedLineInfo : Type := mkLineInfo {
  lines : list RDI_Line;
  lines_info_count : Z
}.

Record RDI_SourceFile : Type := mkSourceFile {
  file_addr : Z;
  normal_full_path_string_idx : Z
}.

Record TXT_TextInfo : Type := mkTextInfo {
  lines_count : Z;
  lines_ranges : list Rng1U64
}.

(** The calls into the other layers: operating system, debug info, hash
    store, text cache, base strings and the instruction decoder.  Pointers
    into foreign tables are kept as addresses. *)
Class DASM_Layers : Type := {
  (* os *)
  os_clock : nat -> Z;
  os_logical_core_count : Z;
  os_properties_from_file_path_modified : String8 -> Z;
  (* di and rdi *)
  di_key_match : DI_Key.t -> DI_Key.t -> bool;
  di_rdi_parsed_nil : Z;
  di_rdi_from_key : DI_Key.t -> Z;
  rdi_source_file_nil : Z;
  rdi_line_info_from_voff : Z -> Z -> RDI_ParsedLineInfo;
  rdi_line_info_idx_from_voff : RDI_ParsedLineInfo -> Z -> Z;
  rdi_source_file_from_idx : Z -> Z -> RDI_SourceFile;
  rdi_string_from_idx : Z -> Z -> String8;
  rdi_scope_idx_from_voff : Z -> Z -> Z;
  rdi_procedure_name_from_scope_idx : Z -> Z -> String8;
  (* hs, fs and txt *)
  hs_hash_from_key : U128 -> Z -> U128;
  hs_data_from_hash : U128 -> String8;
  hs_hash_from_data : list Z -> U128;
  fs_key_from_path : String8 -> U128;
  txt_lang_kind_from_extension : String8 -> Z;
  txt_text_info_from_key_lang : U128 -> Z -> TXT_TextInfo * U128;
  (* base strings *)
  str8_substr : String8 -> Rng1U64 -> String8;
  str8_skip_chop_whitespace : String8 -> String8;
  (* udis86 *)
  bit_size_from_arch : Z -> Z;
  ud_disassemble : Z -> Z -> bool -> String8 -> Z -> UD_Insn
}.

Section DASM.

Context {header : DASM_Header} {layers : DASM_Layers}.

(** ** Parameter Type Functions *)

Definition dasm_params_match (a b : Params.t) : bool :=
  (Params.vaddr a =? Params.vaddr b) &&
  (Params.arch a =? Params.arch b) &&
  (Params.style_flags a =? Params.style_flags b) &&
  (Params.syntax a =? Params.syntax b) &&
  (Params.base_vaddr a =? Params.base_vaddr b) &&
  di_key_match (Params.dbgi_key a) (Params.dbgi_key b).

(** ** Operating system calls *)

(** Every call reads the clock anew. *)
Definition os_now_microseconds : M Z :=
  fun w => Ret (os_clock (os_ticks w))
             (mkWorld (dasm_shared w) (node_mem w) (scope_mem w) (alloc_top w)
                (fs_gen w) (S (os_ticks w)) (os_trace w)).

Definition os_condition_variable_broadcast (handle : Z) : M unit :=
  os_emit (Ev_condition_variable_broadcast handle).

(** The caller stays suspended; it resumes by running its loop again in
    the world it is woken in. *)
Definition os_condition_variable_wait {A} (cv mutex endt_us : Z) : M A :=
  os_emit (Ev_condition_variable_wait cv mutex endt_us);; block.

Definition arena_release (arena : Z) : M unit :=
  os_emit (Ev_arena_release arena).

Definition fs_change_gen : M Z := fun w => Ret (fs_gen w) w.

(** ** User Clock *)

Definition dasm_user_clock_tick : M unit :=
  modify_shared (λ s, set_user_clock_idx s (wrap64 (user_clock_idx s + 1))).

Definition dasm_user_clock_idx : M Z :=
  s ← get_shared;
  mret (user_clock_idx s).

(** ** Scoped Access *)

Definition dasm_scope_touch_node__stripe_r_guarded (scope : Z) (node : Z)
    : M unit :=
  modify_node node
    (λ n, Node.set_scope_ref_count (wrap64 (Node.scope_ref_count n + 1)) n);;
  now ← os_now_microseconds;
  modify_node node (Node.set_last_time_touched_us now);;
  clock_idx ← dasm_user_clock_idx;
  modify_node node (Node.set_last_user_clock_idx_touched clock_idx);;
  n ← load_node node;
  scope_push_touch scope (Touch.mk (Node.hash n) (Node.params n)).

(** ** Parse Threads: the request ring *)

(** [pos += ring_write(base, size, pos, src, size_of_src)] on the write side. *)
Definition u2p_ring_put (src : list byte) : M unit :=
  modify_shared
    (λ s,
       let '(ring_base, written) :=
         ring_write (u2p_ring_base s) (u2p_ring_size s) (u2p_ring_write_pos s) src in
       set_u2p_ring_write_pos (set_u2p_ring_base s ring_base)
         (wrap64 (u2p_ring_write_pos s + written))).

(** [pos += ring_read(base, size, pos, dst, n)] on the read side. *)
Definition u2p_ring_get (n : Z) : M (list byte) :=
  s ← get_shared;
  let '(dst, read) :=
    ring_read (u2p_ring_base s) (u2p_ring_size s) (u2p_ring_read_pos s) n in
  modify_shared
    (λ s, set_u2p_ring_read_pos s (wrap64 (u2p_ring_read_pos s + read)));;
  mret dst.

(** The constant part of a request's size, as summed in the availability
    tests: hash, vaddr, arch, style flags, syntax, base vaddr, path size
    and minimum timestamp. *)
Definition u2p_req_fixed_size : Z :=
  16 + 8 + Z.of_nat sizeof_Architecture + Z.of_nat sizeof_DASM_StyleFlags
  + Z.of_nat sizeof_DASM_Syntax + 8 + 8 + 8.

Definition dasm_u2p_enqueue_req (hash : U128) (params : Params.t) (endt_us : Z)
    : M bool :=
  s ← get_shared;
  let unconsumed_size := wrap64 (u2p_ring_write_pos s - u2p_ring_read_pos s) in
  let available_size := wrap64 (u2p_ring_size s - unconsumed_size) in
  let path := DI_Key.path (Params.dbgi_key params) in
  if available_size >=? wrap64 (u2p_req_fixed_size + str8_size path)
  then
    u2p_ring_put (U128_bytes hash);;
    u2p_ring_put (le_bytes 8 (Params.vaddr params));;
    u2p_ring_put (le_bytes sizeof_Architecture (Params.arch params));;
    u2p_ring_put (le_bytes sizeof_DASM_StyleFlags (Params.style_flags params));;
    u2p_ring_put (le_bytes sizeof_DASM_Syntax (Params.syntax params));;
    u2p_ring_put (le_bytes 8 (Params.base_vaddr params));;
    u2p_ring_put (le_bytes 8 (str8_size path));;
    u2p_ring_put path;;
    u2p_ring_put (le_bytes 8 (DI_Key.min_timestamp (Params.dbgi_key params)));;
    modify_shared
      (λ s, set_u2p_ring_write_pos s (wrap64 (u2p_ring_write_pos s + 7)));;
    modify_shared
      (λ s, set_u2p_ring_write_pos s
              (wrap64 (u2p_ring_write_pos s - u2p_ring_write_pos s mod 8)));;
    (* if(good) *)
    os_condition_variable_broadcast (u2p_ring_cv s);;
    mret true
  else
    now ← os_now_microseconds;
    if now >=? endt_us
    then mret false
    else os_condition_variable_wait (u2p_ring_cv s) (u2p_ring_mutex s) endt_us.

Definition dasm_u2p_dequeue_req : M (U128 * Params.t) :=
  s ← get_shared;
  let unconsumed_size := wrap64 (u2p_ring_write_pos s - u2p_ring_read_pos s) in
  if unconsumed_size >=? u2p_req_fixed_size
  then
    hash_out ← u2p_ring_get 16;
    vaddr ← u2p_ring_get 8;
    arch ← u2p_ring_get (Z.of_nat sizeof_Architecture);
    style_flags ← u2p_ring_get (Z.of_nat sizeof_DASM_StyleFlags);
    syntax ← u2p_ring_get (Z.of_nat sizeof_DASM_Syntax);
    base_vaddr ← u2p_ring_get 8;
    path_size ← u2p_ring_get 8;
    path_str ← u2p_ring_get (le_value path_size);
    min_timestamp ← u2p_ring_get 8;
    modify_shared
      (λ s, set_u2p_ring_read_pos s (wrap64 (u2p_ring_read_pos s + 7)));;
    modify_shared
      (λ s, set_u2p_ring_read_pos s
              (wrap64 (u2p_ring_read_pos s - u2p_ring_read_pos s mod 8)));;
    os_condition_variable_broadcast (u2p_ring_mutex s);;
    mret (U128_of_bytes hash_out,
          Params.mk (le_value vaddr) (le_value arch) (le_value style_flags)
            (le_value syntax) (le_value base_vaddr)
            (DI_Key.mk path_str (le_value min_timestamp)))
  else
    os_condition_variable_wait (u2p_ring_cv s) (u2p_ring_mutex s) max_U64.

(** ** Cache Lookups *)

Definition dasm_info_from_hash_params (scope : Z) (hash : U128)
    (params : Params.t) : M Info.t :=
  if negb (u128_match hash u128_zero)
  then
    s ← get_shared;
    let slot_idx := u64_1 hash mod slots_count s in
    let stripe_idx := slot_idx mod stripes_count s in
    (* OS_MutexScopeR(stripe->rw_mutex) *)
    mem ← get_node_mem;
    looked ←
      match slot_first
              (λ n, u128_match hash (Node.hash n) &&
                    dasm_params_match params (Node.params n))
              mem (slot_list (slot_at s slot_idx)) with
      | Some n =>
          let info := Node.info (node_at mem n) in
          dasm_scope_touch_node__stripe_r_guarded scope n;;
          mret (info, true)
      | None => mret (Info.zero, false)
      end;
    let '(info, found) := looked in
    node_is_new ←
      (if negb found
       then
         (* OS_MutexScopeW(stripe->rw_mutex) *)
         s ← get_shared;
         mem ← get_node_mem;
         match slot_first
                 (λ n, u128_match hash (Node.hash n) &&
                       dasm_params_match params (Node.params n))
                 mem (slot_list (slot_at s slot_idx)) with
         | Some _ => mret false
         | None =>
             let stripe := stripe_at s stripe_idx in
             node ←
               match free_node stripe with
               | n :: _ => modify_stripe stripe_idx SLLStackPop;; mret n
               | [] => alloc_fresh
               end;
             modify_slot slot_idx (λ slot, DLLPushBack slot node);;
             store_node node
               (Node.mk hash params 0 Info.zero 0 0 0 0 0 0 0 0);;
             mret true
         end
       else mret false);
    (if node_is_new : bool
     then dasm_u2p_enqueue_req hash params max_U64;; mret tt
     else mret tt);;
    mret info
  else mret Info.zero.

(** The loop over [rewind_idx]; [hash_out] is [None] for a null pointer and
    otherwise holds what the caller's variable contains. *)
Fixpoint dasm_info_from_key_params_loop (rewinds : list Z) (scope : Z)
    (key : U128) (params : Params.t) (hash_out : option U128)
    (result : Info.t) : M (Info.t * option U128) :=
  match rewinds with
  | [] => mret (result, hash_out)
  | rewind_idx :: rewinds' =>
      let hash := hs_hash_from_key key rewind_idx in
      result ← dasm_info_from_hash_params scope hash params;
      if negb (count (Info.insts result) =? 0)
      then mret (result, match hash_out with
                         | Some _ => Some hash
                         | None => None
                         end)
      else dasm_info_from_key_params_loop rewinds' scope key params hash_out result
  end.

Definition dasm_info_from_key_params (scope : Z) (key : U128)
    (params : Params.t) (hash_out : option U128) : M (Info.t * option U128) :=
  dasm_info_from_key_params_loop [0; 1] scope key params hash_out Info.zero.

(** ** Evictor/Detector Thread *)

Definition evict_threshold_us : Z := 10 * 1000000.
Definition retry_threshold_us : Z := 1 * 1000000.
Definition evict_threshold_user_clocks : Z := 10.
Definition retry_threshold_user_clocks : Z := 10.

(** The condition guarding eviction, as tested in both passes. *)
Definition evict_cond (check_time_us check_time_user_clocks : Z) (n : Node.t)
    : bool :=
  (Node.scope_ref_count n =? 0) &&
  (wrap64 (Node.last_time_touched_us n + evict_threshold_us) <=? check_time_us) &&
  (wrap64 (Node.last_user_clock_idx_touched n + evict_threshold_user_clocks)
     <=? check_time_user_clocks) &&
  negb (Node.load_count n =? 0) &&
  (Node.is_working n =? 0).

(** The condition guarding the re-request, as tested in both passes. *)
Definition retry_cond (change_gen check_time_us check_time_user_clocks : Z)
    (n : Node.t) : bool :=
  negb (Node.change_gen n =? 0) &&
  negb (Node.change_gen n =? change_gen) &&
  (wrap64 (Node.last_time_requested_us n + retry_threshold_us) <=? check_time_us) &&
  (wrap64 (Node.last_user_clock_idx_requested n + retry_threshold_user_clocks)
     <=? check_time_user_clocks).

(** The first [if] of the write-locked walk: unlink the node, release its
    info arena, push it onto the stripe's free list. *)
Definition dasm_evictor_detector_evict (slot_idx stripe_idx : Z)
    (check_time_us check_time_user_clocks : Z) (n : Z) : M unit :=
  node ← load_node n;
  if evict_cond check_time_us check_time_user_clocks node
  then
    modify_slot slot_idx (λ slot, DLLRemove slot n);;
    (if negb (Node.info_arena node =? 0)
     then arena_release (Node.info_arena node)
     else mret tt);;
    modify_stripe stripe_idx (λ stripe, SLLStackPush stripe n)
  else mret tt.

(** The second [if] of the write-locked walk: request the node again. *)
Definition dasm_evictor_detector_retry
    (change_gen check_time_us check_time_user_clocks : Z) (n : Z) : M unit :=
  node ← load_node n;
  if retry_cond change_gen check_time_us check_time_user_clocks node
  then
    good ← dasm_u2p_enqueue_req (Node.hash node) (Node.params node) max_U64;
    if good : bool
    then
      now ← os_now_microseconds;
      modify_node n (Node.set_last_time_requested_us now);;
      modify_node n (Node.set_last_user_clock_idx_requested check_time_user_clocks)
    else mret tt
  else mret tt.

(** The body of the write-locked walk for the node [n]; [next] has been
    read before it runs. *)
Definition dasm_evictor_detector_visit (slot_idx stripe_idx : Z)
    (change_gen check_time_us check_time_user_clocks : Z) (n : Z) : M unit :=
  dasm_evictor_detector_evict slot_idx stripe_idx
    check_time_us check_time_user_clocks n;;
  dasm_evictor_detector_retry change_gen check_time_us check_time_user_clocks n.

(** [for(n = slot->first, next = 0; n != 0; n = next)] over the nodes [l]
    of the slot. *)
Fixpoint dasm_evictor_detector_walk (slot_idx stripe_idx : Z)
    (change_gen check_time_us check_time_user_clocks : Z) (l : list Z)
    : M unit :=
  match l with
  | [] => mret tt
  | n :: next =>
      dasm_evictor_detector_visit slot_idx stripe_idx
        change_gen check_time_us check_time_user_clocks n;;
      dasm_evictor_detector_walk slot_idx stripe_idx
        change_gen check_time_us check_time_user_clocks next
  end.

(** One turn of the loop over [slot_idx]: the read-locked check, then the
    write-locked walk if the slot has work. *)
Definition dasm_evictor_detector_slot
    (change_gen check_time_us check_time_user_clocks : Z) (slot_idx : Z)
    : M unit :=
  s ← get_shared;
  let stripe_idx := slot_idx mod stripes_count s in
  mem ← get_node_mem;
  let slot_has_work :=
    match slot_first
            (λ n, evict_cond check_time_us check_time_user_clocks n ||
                  retry_cond change_gen check_time_us check_time_user_clocks n)
            mem (slot_list (slot_at s slot_idx)) with
    | Some _ => true
    | None => false
    end in
  if slot_has_work
  then
    s ← get_shared;
    dasm_evictor_detector_walk slot_idx stripe_idx
      change_gen check_time_us check_time_user_clocks
      (slot_list (slot_at s slot_idx))
  else mret tt.

Fixpoint dasm_evictor_detector_slots
    (change_gen check_time_us check_time_user_clocks : Z) (slot_idxs : list Z)
    : M unit :=
  match slot_idxs with
  | [] => mret tt
  | slot_idx :: rest =>
      dasm_evictor_detector_slot change_gen check_time_us check_time_user_clocks
        slot_idx;;
      dasm_evictor_detector_slots change_gen check_time_us check_time_user_clocks
        rest
  end.

(** One sweep: one turn of the thread's endless loop, up to its sleep. *)
Definition dasm_evictor_detector_thread__sweep : M unit :=
  change_gen ← fs_change_gen;
  check_time_us ← os_now_microseconds;
  check_time_user_clocks ← dasm_user_clock_idx;
  s ← get_shared;
  dasm_evictor_detector_slots change_gen check_time_us check_time_user_clocks
    (seqZ 0 (slots_count s)).

(** ** Parse Threads: the worker *)

Definition has_flag (style_flags flag : Z) : bool :=
  negb (Z.land style_flags flag =? 0).

(** What the decoding loop carries from one instruction to the next. *)
Record DASM_DecodeState : Type := mkDecode {
  off : Z;
  last_file : Z;
  last_line : Z;
  inst_list : DASM_InstChunkList;
  inst_strings : String8List.t
}.

(** A line of source annotation: a zeroed instruction record and its text,
    pushed together. *)
Definition dasm_push_annotation (st : DASM_DecodeState) (text : String8)
    : DASM_DecodeState :=
  mkDecode (off st) (last_file st) (last_line st)
    (dasm_inst_chunk_list_push (inst_list st) 1024 DASM_Inst_zero)
    (str8_list_push (inst_strings st) text).

(** The text info of a source file, polled from the text cache:
    [for(;os_now_microseconds() <= endt_us;)] with [endt_us = max_U64],
    entered with [text_info] and [hash] zeroed.  A turn of the loop reads
    the clock and asks the text cache; a non-zero hash leaves the loop.
    The clock is a [U64], so no reading passes the deadline, and the text
    cache answers as [DASM_Layers] says, the same at every turn: after a
    zero hash the worker polls on, and the call has not returned. *)
Definition dasm_parse_thread__text_info (key : U128) (lang_kind : Z)
    : M (TXT_TextInfo * U128) :=
  let endt_us := max_U64 in
  now ← os_now_microseconds;
  if now <=? endt_us
  then
    let '(text_info, hash) := txt_text_info_from_key_lang key lang_kind in
    if negb (u128_match hash u128_zero)
    then mret (text_info, hash)
    else block
  else mret (mkTextInfo 0 [], u128_zero).

(** "push strings derived from voff -> line info". *)
Definition dasm_decode_annotate (params : Params.t) (rdi : Z)
    (st : DASM_DecodeState) : M DASM_DecodeState :=
  let style_flags := Params.style_flags params in
  if has_flag style_flags
       (Z.lor DASM_StyleFlag_SourceFilesNames DASM_StyleFlag_SourceLines)
  then
    if negb (rdi =? di_rdi_parsed_nil)
    then
      let voff := wrap64 (wrap64 (Params.vaddr params + off st)
                          - Params.base_vaddr params) in
      let unit_line_info := rdi_line_info_from_voff rdi voff in
      let line_info_idx := rdi_line_info_idx_from_voff unit_line_info voff in
      if line_info_idx <? lines_info_count unit_line_info
      then
        let line :=
          default (mkLine 0 0 0) (lines unit_line_info !! Z.to_nat line_info_idx) in
        let file := rdi_source_file_from_idx rdi (file_idx line) in
        let file_normalized_full_path :=
          rdi_string_from_idx rdi (normal_full_path_string_idx file) in
        let st1 :=
          if negb (file_addr file =? last_file st)
          then
            let st_a :=
              if has_flag style_flags DASM_StyleFlag_SourceFilesNames &&
                 negb (normal_full_path_string_idx file =? 0) &&
                 negb (str8_size file_normalized_full_path =? 0)
              then dasm_push_annotation st
                     (str8_lit "> " ++ file_normalized_full_path)
              else st in
            let st_b :=
              if has_flag style_flags DASM_StyleFlag_SourceFilesNames &&
                 (normal_full_path_string_idx file =? 0)
              then dasm_push_annotation st_a (str8_lit ">")
              else st_a in
            mkDecode (off st_b) (file_addr file) (last_line st_b)
              (inst_list st_b) (inst_strings st_b)
          else st in
        if negb (line_addr line =? 0) &&
           negb (line_addr line =? last_line st1) &&
           negb (normal_full_path_string_idx file =? 0) &&
           has_flag style_flags DASM_StyleFlag_SourceLines &&
           negb (str8_size file_normalized_full_path =? 0)
        then
          st2 ←
            (if negb (os_properties_from_file_path_modified file_normalized_full_path =? 0)
             then
               let key := fs_key_from_path file_normalized_full_path in
               let lang_kind := txt_lang_kind_from_extension file_normalized_full_path in
               polled ← dasm_parse_thread__text_info key lang_kind;
               let text_info := fst polled in
               let hash := snd polled in
               if (0 <? line_num line) && (line_num line <? lines_count text_info)
               then
                 let data := hs_data_from_hash hash in
                 let line_text :=
                   str8_skip_chop_whitespace
                     (str8_substr data
                        (default (mkRng1U64 0 0)
                           (lines_ranges text_info !! Z.to_nat (line_num line - 1)))) in
                 if negb (str8_size line_text =? 0)
                 then mret (dasm_push_annotation st1 (str8_lit "> " ++ line_text))
                 else mret st1
               else mret st1
             else mret st1);
          mret (mkDecode (off st2) (last_file st2) (line_addr line)
                  (inst_list st2) (inst_strings st2))
        else mret st1
      else mret st
    else mret st
  else mret st.

(** The code bytes column: the opening brace, one entry per byte index
    below [max size 16], and a closing blank, joined without separator. *)
Definition dasm_code_bytes_part (data : String8) (off size : Z) : String8 :=
  str8_lit "{" ++
  concat (map (λ byte_idx,
                 if byte_idx <? size
                 then hex_fixed false 2
                        (Z_of_byte (default Byte.x00
                                      (data !! Z.to_nat (off + byte_idx)))) ++
                      (if byte_idx =? size - 1 then str8_lit "}" else []) ++
                      str8_lit " "
                 else if byte_idx <? 8 then str8_lit "   " else [])
            (seqZ 0 (Z.max size 16))) ++
  str8_lit " ".

(** The text of one instruction line: address part, code bytes part, the
    decoder's text and the symbol part. *)
Definition dasm_inst_string (params : Params.t) (rdi : Z) (data : String8)
    (off : Z) (insn : UD_Insn) : String8 :=
  let style_flags := Params.style_flags params in
  let size := ud_insn_size insn in
  let rel_voff := default 0 (ud_jimm_target insn) in
  let jump_dst_vaddr := rel_voff in
  let addr_part :=
    if has_flag style_flags DASM_StyleFlag_Addresses
    then (if negb (rdi =? di_rdi_parsed_nil) then str8_lit "  " else []) ++
         hex_fixed true 16 (wrap64 (Params.vaddr params + off)) ++ str8_lit "  "
    else [] in
  let code_bytes_part :=
    if has_flag style_flags DASM_StyleFlag_CodeBytes
    then dasm_code_bytes_part data off size
    else [] in
  let symbol_part :=
    if negb (jump_dst_vaddr =? 0) && negb (rdi =? di_rdi_parsed_nil) &&
       has_flag style_flags DASM_StyleFlag_SymbolNames
    then
      let scope_idx :=
        rdi_scope_idx_from_voff rdi
          (wrap64 (jump_dst_vaddr - Params.base_vaddr params)) in
      if negb (scope_idx =? 0)
      then
        let procedure_name := rdi_procedure_name_from_scope_idx rdi scope_idx in
        if negb (str8_size procedure_name =? 0)
        then str8_lit " (" ++ procedure_name ++ str8_lit ")"
        else []
      else []
    else [] in
  addr_part ++ code_bytes_part ++ ud_asm_buf insn ++ symbol_part.

(** The decoder's view of the request: mode, program counter, syntax. *)
Definition dasm_disassemble_at (params : Params.t) (data : String8) (off : Z)
    : UD_Insn :=
  ud_disassemble (bit_size_from_arch (Params.arch params)) (Params.vaddr params)
    (Params.syntax params =? DASM_Syntax_Intel) data off.

(** One turn of the disassembly loop for an instruction of non-zero size:
    annotations, then the instruction record and its line, then the
    increment. *)
Definition dasm_decode_step (params : Params.t) (rdi : Z) (data : String8)
    (insn : UD_Insn) (st : DASM_DecodeState) : M DASM_DecodeState :=
  let size := ud_insn_size insn in
  let rel_voff := default 0 (ud_jimm_target insn) in
  st1 ← dasm_decode_annotate params rdi st;
  let inst_string := dasm_inst_string params rdi data (off st) insn in
  let strs := inst_strings st1 in
  let inst :=
    mkInst (off st) rel_voff
      (r1u64 (wrap64 (String8List.total_size strs + String8List.node_count strs))
             (wrap64 (wrap64 (String8List.total_size strs + String8List.node_count strs)
                      + str8_size inst_string))) in
  mret (mkDecode (wrap64 (off st + size)) (last_file st1) (last_line st1)
          (dasm_inst_chunk_list_push (inst_list st1) 1024 inst)
          (str8_list_push strs inst_string)).

(** [for(U64 off = 0; off < data.size;)]; every turn that does not leave
    the loop consumes at least one byte of [data], so [length data] turns
    of [fuel] are enough. *)
Fixpoint dasm_decode_loop (fuel : nat) (params : Params.t) (rdi : Z)
    (data : String8) (st : DASM_DecodeState) : M DASM_DecodeState :=
  match fuel with
  | O => mret st
  | S fuel' =>
      if off st <? str8_size data
      then
        let insn := dasm_disassemble_at params data (off st) in
        if ud_insn_size insn =? 0
        then mret st
        else
          st' ← dasm_decode_step params rdi data insn st;
          dasm_decode_loop fuel' params rdi data st'
      else mret st
  end.

(** "data * arch * addr * dbg -> decode artifacts". *)
Definition dasm_decode (params : Params.t) (rdi : Z) (data : String8)
    : M (DASM_InstChunkList * String8List.t) :=
  if (Params.arch params =? Architecture_x64) ||
     (Params.arch params =? Architecture_x86)
  then
    st ← dasm_decode_loop (length data) params rdi data
           (mkDecode 0 rdi_source_file_nil 0 DASM_InstChunkList_zero
              String8List.zero);
    mret (inst_list st, inst_strings st)
  else mret (DASM_InstChunkList_zero, String8List.zero).

Definition arena_alloc : M Z := alloc_fresh.

Definition hs_submit_data (key : U128) (arena : Z) (data : String8) : M unit :=
  os_emit (Ev_hs_submit_data key arena data).

(** "take task": the compare-and-swap of [is_working] from 0 to 1 on the
    matching node of the slot. *)
Definition dasm_parse_thread__take_task (slot_idx : Z) (hash : U128)
    (params : Params.t) : M bool :=
  s ← get_shared;
  mem ← get_node_mem;
  match slot_first
          (λ n, u128_match (Node.hash n) hash &&
                dasm_params_match (Node.params n) params)
          mem (slot_list (slot_at s slot_idx)) with
  | Some n =>
      node ← load_node n;
      if Node.is_working node =? 0
      then modify_node n (Node.set_is_working 1);; mret true
      else mret false
  | None => mret false
  end.

(** "commit results to cache", under the stripe's write lock. *)
Definition dasm_parse_thread__commit (slot_idx : Z) (hash : U128)
    (params : Params.t) (rdi : Z) (change_gen : Z) (info_arena : Z)
    (info : Info.t) : M unit :=
  s ← get_shared;
  mem ← get_node_mem;
  match slot_first
          (λ n, u128_match (Node.hash n) hash &&
                dasm_params_match (Node.params n) params)
          mem (slot_list (slot_at s slot_idx)) with
  | Some n =>
      modify_node n (Node.set_info_arena info_arena);;
      modify_node n (Node.set_info info);;
      (if negb (rdi =? di_rdi_parsed_nil) &&
          has_flag (Params.style_flags params)
            (Z.lor DASM_StyleFlag_SourceLines DASM_StyleFlag_SourceFilesNames)
       then modify_node n (Node.set_change_gen change_gen)
       else modify_node n (Node.set_change_gen 0));;
      modify_node n (Node.set_is_working 0);;
      modify_node n (λ node, Node.set_load_count (wrap64 (Node.load_count node + 1)) node)
  | None => mret tt
  end.

(** One turn of the worker's endless loop. *)
Definition dasm_parse_thread__iteration : M unit :=
  (* get next request *)
  req ← dasm_u2p_dequeue_req;
  let '(hash, params) := req in
  change_gen ← fs_change_gen;
  (* unpack hash *)
  s ← get_shared;
  let slot_idx := u64_1 hash mod slots_count s in
  (* take task *)
  got_task ← dasm_parse_thread__take_task slot_idx hash params;
  (* get dbg info *)
  let rdi :=
    if (got_task : bool) &&
       negb (str8_size (DI_Key.path (Params.dbgi_key params)) =? 0)
    then di_rdi_from_key (Params.dbgi_key params)
    else di_rdi_parsed_nil in
  (* hash -> data *)
  let data := if got_task then hs_data_from_hash hash else [] in
  (* data * arch * addr * dbg -> decode artifacts *)
  artifacts ←
    (if got_task
     then dasm_decode params rdi data
     else mret (DASM_InstChunkList_zero, String8List.zero));
  (* artifacts -> value bundle *)
  bundle ←
    (if got_task
     then
       text_arena ← arena_alloc;
       let text := str8_list_join (snd artifacts) str8_newline in
       let text_key :=
         hs_hash_from_data
           [u64_0 hash; u64_1 hash; Params.vaddr params; Params.arch params;
            Params.style_flags params; Params.syntax params; rdi; 0x4d534144] in
       hs_submit_data text_key text_arena text;;
       info_arena ← arena_alloc;
       mret (info_arena,
             Info.mk text_key (dasm_inst_array_from_chunk_list (fst artifacts)))
     else mret (0, Info.zero));
  let '(info_arena, info) := bundle in
  (* commit results to cache *)
  if got_task
  then dasm_parse_thread__commit slot_idx hash params rdi change_gen info_arena info
  else mret tt.

(** ** Main Layer Initialization *)

Fixpoint dasm_init_stripes (n : nat) : M (list DASM_Stripe) :=
  match n with
  | O => mret []
  | S n' =>
      arena ← arena_alloc;
      rw_mutex ← alloc_fresh;
      cv ← alloc_fresh;
      rest ← dasm_init_stripes n';
      mret (mkStripe arena rw_mutex cv [] :: rest)
  end.

(** The world [dasm_init] runs in: nothing allocated, nothing recorded. *)
Definition world_zero : World :=
  mkWorld (mkShared 0 0 [] [] 0 ∅ 0 0 0 0 0) ∅ ∅ 0 0 0 [].

Definition dasm_init : M unit :=
  arena ← arena_alloc;
  let slots_count := 1024 in
  let stripes_count := Z.min slots_count os_logical_core_count in
  stripes ← dasm_init_stripes (Z.to_nat stripes_count);
  let u2p_ring_size := KB 64 in
  u2p_ring_cv ← alloc_fresh;
  u2p_ring_mutex ← alloc_fresh;
  put_shared
    (mkShared slots_count stripes_count
       (replicate (Z.to_nat slots_count) (mkSlot [])) stripes
       u2p_ring_size ∅ 0 0
       u2p_ring_cv u2p_ring_mutex 0).

(** ** Scoped Access: opening and closing a scope *)

(** The thread context [dasm_tctx]: the arena of the thread, once it is
    allocated.  The variable is thread-local, so a thread passes its own
    along and gets it back. *)
Record DASM_TCTX : Type := mkTCTX { tctx_arena : Z }.

(** [push_array(dasm_tctx->arena, DASM_Scope, 1)]: a zeroed scope at a
    fresh address; its [top_touch] is null.  [base_pos], the position of
    the arena before the push, is where the scope itself starts. *)
Definition scope_zero (scope : Z) : M unit :=
  fun w =>
    Ret tt (mkWorld (dasm_shared w) (node_mem w) (<[scope := []]> (scope_mem w))
              (alloc_top w) (fs_gen w) (os_ticks w) (os_trace w)).

Definition scope_push : M Z :=
  scope ← alloc_fresh;
  scope_zero scope;;
  mret scope.

(** [arena_pop_to(dasm_tctx->arena, scope->base_pos)]: the memory of the
    scope and of its touches goes back to the arena. *)
Definition scope_pop_to (scope : Z) : M unit :=
  fun w =>
    Ret tt (mkWorld (dasm_shared w) (node_mem w) (delete scope (scope_mem w))
              (alloc_top w) (fs_gen w) (os_ticks w) (os_trace w)).

Definition dasm_scope_open (dasm_tctx : option DASM_TCTX)
    : M (Z * option DASM_TCTX) :=
  tctx ←
    match dasm_tctx with
    | None => arena ← arena_alloc; mret (mkTCTX arena)
    | Some tctx => mret tctx
    end;
  scope ← scope_push;
  mret (scope, Some tctx).

(** One turn of the loop over the touches of the scope: under the read
    lock of the stripe, the first node of the slot that matches the touch
    loses one reference. *)
Definition dasm_scope_close_touch (t : Touch.t) : M unit :=
  s ← get_shared;
  let slot_idx := u64_1 (Touch.hash t) mod slots_count s in
  mem ← get_node_mem;
  match slot_first
          (λ n, u128_match (Touch.hash t) (Node.hash n) &&
                dasm_params_match (Touch.params t) (Node.params n))
          mem (slot_list (slot_at s slot_idx)) with
  | Some n =>
      modify_node n
        (λ node, Node.set_scope_ref_count (wrap64 (Node.scope_ref_count node - 1)) node)
  | None => mret tt
  end.

(** [for(t = scope->top_touch; t != 0; t = next)]. *)
Fixpoint dasm_scope_close_touches (touches : list Touch.t) : M unit :=
  match touches with
  | [] => mret tt
  | t :: next => dasm_scope_close_touch t;; dasm_scope_close_touches next
  end.

Definition dasm_scope_close (scope : Z) : M unit :=
  w ← get_world;
  dasm_scope_close_touches (default [] (scope_mem w !! scope));;
  scope_pop_to scope.

End DASM.

(** ** Vocabulary of the statements *)

(** [m] relates the world it starts in to every world it returns in by [R]. *)
Definition M_frame {A} (R : relation World) (m : M A) : Prop :=
  ∀ w a w', m w = Ret a w' → R w w'.

Definition released_arenas (trace : list OS_Event) : list Z :=
  omap (λ e, match e with Ev_arena_release a => Some a | _ => None end) trace.

(** The table, the nodes and the released arenas are the same. *)
Definition ring_only (w w' : World) : Prop :=
  slots_count (dasm_shared w') = slots_count (dasm_shared w) ∧
  stripes_count (dasm_shared w') = stripes_count (dasm_shared w) ∧
  slots (dasm_shared w') = slots (dasm_shared w) ∧
  stripes (dasm_shared w') = stripes (dasm_shared w) ∧
  node_mem w' = node_mem w ∧
  released_arenas (os_trace w') = released_arenas (os_trace w).

(** The fields of a node the eviction decision reads, and its arena. *)
Definition node_evict_view (n : Node.t) : Z * Z * Z * Z * Z * Z :=
  (Node.scope_ref_count n, Node.last_time_touched_us n,
   Node.last_user_clock_idx_touched n, Node.load_count n, Node.is_working n,
   Node.info_arena n).

Definition slot_nodes (w : World) (i : nat) : list Z :=
  slot_list (default (mkSlot []) (slots (dasm_shared w) !! i)).

Definition stripe_free (w : World) (k : nat) : list Z :=
  free_node (default (mkStripe 0 0 0 []) (stripes (dasm_shared w) !! k)).

(** [swept E w w']: from [w] to [w'] exactly the nodes [a] with [E i k a]
    were unlinked from slot [i] and pushed on the free list of stripe [k],
    and their info arenas released; nothing else the eviction decision
    depends on has changed. *)
Definition swept (E : nat → nat → Z → Prop) (w w' : World) : Prop :=
  slots_count (dasm_shared w') = slots_count (dasm_shared w) ∧
  stripes_count (dasm_shared w') = stripes_count (dasm_shared w) ∧
  length (slots (dasm_shared w')) = length (slots (dasm_shared w)) ∧
  length (stripes (dasm_shared w')) = length (stripes (dasm_shared w)) ∧
  (∀ m, node_evict_view (node_at (node_mem w') m)
        = node_evict_view (node_at (node_mem w) m)) ∧
  (∀ i a, a ∈ slot_nodes w' i ↔ a ∈ slot_nodes w i ∧ ¬ ∃ k, E i k a) ∧
  (∀ k a, a ∈ stripe_free w' k ↔ a ∈ stripe_free w k ∨ ∃ i, E i k a) ∧
  (∀ x, x ∈ released_arenas (os_trace w') ↔
        x ∈ released_arenas (os_trace w) ∨
        ∃ i k a, E i k a ∧ Node.info_arena (node_at (node_mem w) a) = x ∧ x ≠ 0).

Definition unswept : relation World := swept (λ _ _ _, False).

(** The table has the slots and stripes its counts announce. *)
Definition table_wf (w : World) : Prop :=
  length (slots (dasm_shared w)) = Z.to_nat (slots_count (dasm_shared w)) ∧
  length (stripes (dasm_shared w)) = Z.to_nat (stripes_count (dasm_shared w)) ∧
  0 < stripes_count (dasm_shared w).

(** The five conditions of the eviction rule for a node, at the sweep's
    snapshot of the clock and of the user clock. *)
Definition evictable (now_us user_clock : Z) (node : Node.t) : Prop :=
  Node.scope_ref_count node = 0 ∧
  wrap64 (Node.last_time_touched_us node + 10000000) ≤ now_us ∧
  wrap64 (Node.last_user_clock_idx_touched node + 10) ≤ user_clock ∧
  Node.load_count node ≠ 0 ∧
  Node.is_working node = 0.

(** The world [w0] with the ring's memory and positions replaced and the
    events [tr] appended to the trace. *)
Definition ring_world (w0 : World) (ring_base : ring_mem) (write_pos read_pos : Z)
    (tr : list OS_Event) : World :=
  let s := dasm_shared w0 in
  mkWorld
    (mkShared (slots_count s) (stripes_count s) (slots s) (stripes s)
       (u2p_ring_size s) ring_base write_pos read_pos
       (u2p_ring_cv s) (u2p_ring_mutex s) (user_clock_idx s))
    (node_mem w0) (scope_mem w0) (alloc_top w0) (fs_gen w0) (os_ticks w0)
    (os_trace w0 ++ tr).

(** The world [w0] after the bytes [written] went to the ring at its write
    position. *)
Definition ring_filled (w0 : World) (written : list byte) : World :=
  let s := dasm_shared w0 in
  ring_world w0
    (ring_write_bytes (u2p_ring_base s) (u2p_ring_size s) (u2p_ring_write_pos s) written)
    (wrap64 (u2p_ring_write_pos s + str8_size written))
    (u2p_ring_read_pos s) [].

(** The bytes of a request record, in the order they are written. *)
Definition u2p_req_bytes {header : DASM_Header} (hash : U128) (params : Params.t)
    : list byte :=
  U128_bytes hash ++
  le_bytes 8 (Params.vaddr params) ++
  le_bytes sizeof_Architecture (Params.arch params) ++
  le_bytes sizeof_DASM_StyleFlags (Params.style_flags params) ++
  le_bytes sizeof_DASM_Syntax (Params.syntax params) ++
  le_bytes 8 (Params.base_vaddr params) ++
  le_bytes 8 (str8_size (DI_Key.path (Params.dbgi_key params))) ++
  DI_Key.path (Params.dbgi_key params) ++
  le_bytes 8 (DI_Key.min_timestamp (Params.dbgi_key params)).

(** A request whose fields fit the widths they are stored in. *)
Definition u2p_req_wf {header : DASM_Header} (hash : U128) (params : Params.t)
    : Prop :=
  0 ≤ u64_0 hash < 2 ^ 64 ∧
  0 ≤ u64_1 hash < 2 ^ 64 ∧
  0 ≤ Params.vaddr params < 2 ^ 64 ∧
  0 ≤ Params.arch params < 256 ^ Z.of_nat sizeof_Architecture ∧
  0 ≤ Params.style_flags params < 256 ^ Z.of_nat sizeof_DASM_StyleFlags ∧
  0 ≤ Params.syntax params < 256 ^ Z.of_nat sizeof_DASM_Syntax ∧
  0 ≤ Params.base_vaddr params < 2 ^ 64 ∧
  0 ≤ DI_Key.min_timestamp (Params.dbgi_key params) < 2 ^ 64.

(** The padding after a record: advance by 7, round down to a multiple
    of 8. *)
Definition u2p_pad (pos : Z) : Z :=
  wrap64 (wrap64 (pos + 7) - wrap64 (pos + 7) mod 8).

(** The trace is the same. *)
Definition trace_same (w w' : World) : Prop := os_trace w' = os_trace w.

(** The total size of a list of strings. *)
Fixpoint str8_sum (l : list String8) : Z :=
  match l with
  | [] => 0
  | s :: l' => str8_size s + str8_sum l'
  end.

(** The counters of a string list agree with its strings. *)
Definition str8_list_wf (l : String8List.t) : Prop :=
  String8List.node_count l = wrap64 (Z.of_nat (length (String8List.strings l))) ∧
  String8List.total_size l = wrap64 (str8_sum (String8List.strings l)).

(** The instruction records pushed so far, in order. *)
Definition decoded_insts (st : DASM_DecodeState) : list DASM_Inst :=
  v (dasm_inst_array_from_chunk_list (inst_list st)).

(** The lines pushed so far, in order. *)
Definition decoded_lines (st : DASM_DecodeState) : list String8 :=
  String8List.strings (inst_strings st).

(** The byte offsets at which the disassembly loop finds an instruction of
    non-zero size, from [off] on. *)
Fixpoint dasm_inst_offsets {header : DASM_Header} {layers : DASM_Layers}
    (fuel : nat) (params : Params.t) (data : String8) (off : Z) : list Z :=
  match fuel with
  | O => []
  | S fuel' =>
      if off <? str8_size data
      then
        let insn := dasm_disassemble_at params data off in
        if ud_insn_size insn =? 0
        then []
        else off :: dasm_inst_offsets fuel' params data (wrap64 (off + ud_insn_size insn))
      else []
  end.




(** From [st] to [st'] only lines of source annotation were pushed, each
    with a zeroed record. *)
Definition annotations_pushed (st st' : DASM_DecodeState) : Prop :=
  off st' = off st ∧
  (str8_list_wf (inst_strings st) → str8_list_wf (inst_strings st')) ∧
  ∃ anns,
    decoded_lines st' = decoded_lines st ++ anns ∧
    decoded_insts st' = decoded_insts st ++ replicate (length anns) DASM_Inst_zero.

(** ** The clock and the text cache *)

(** The world [w] with the clock read [ticks] times. *)
Definition set_os_ticks (w : World) (ticks : nat) : World :=
  mkWorld (dasm_shared w) (node_mem w) (scope_mem w) (alloc_top w) (fs_gen w) ticks
    (os_trace w).


(** The request asks for no source annotation, or there is no debug info
    to take it from. *)
Definition not_annotated {header : DASM_Header} {layers : DASM_Layers}
    (params : Params.t) (rdi : Z) : Prop :=
  has_flag (Params.style_flags params)
    (Z.lor DASM_StyleFlag_SourceFilesNames DASM_StyleFlag_SourceLines) = false ∨
  rdi = di_rdi_parsed_nil.


(** ** The suspended sweep *)

(** From [w] to [w'] only nodes [a] with [E i k a] were unlinked from slot
    [i] and pushed on the free list of stripe [k], not necessarily all of
    them. *)
Definition swept_within (E : nat → nat → Z → Prop) (w w' : World) : Prop :=
  ∃ E' : nat → nat → Z → Prop, (∀ i k a, E' i k a → E i k a) ∧ swept E' w w'.

(** In [w'] the sweep that snapshot [change_gen], [check_time_us] and
    [check_time_user_clocks] is suspended in a re-request: its last call
    is the wait for room on the ring, without deadline, and it waits for
    the request of a node [m] that is due and does not fit the room the
    ring has left. *)
Definition waits_in_re_request {header : DASM_Header} {layers : DASM_Layers}
    (change_gen check_time_us check_time_user_clocks : Z) (w' : World) : Prop :=
  let s := dasm_shared w' in
  last (os_trace w')
  = Some (Ev_condition_variable_wait (u2p_ring_cv s) (u2p_ring_mutex s) max_U64) ∧
  ∃ m,
    retry_cond change_gen check_time_us check_time_user_clocks
      (node_at (node_mem w') m) = true ∧
    wrap64 (u2p_ring_size s - wrap64 (u2p_ring_write_pos s - u2p_ring_read_pos s))
    < wrap64 (u2p_req_fixed_size
              + str8_size (DI_Key.path (Params.dbgi_key
                                          (Node.params (node_at (node_mem w') m))))).

(** ** Calls that return *)


(** What [m] returns satisfies [P]. *)
Definition M_post {A} (P : A → Prop) (m : M A) : Prop :=
  ∀ w a w', m w = Ret a w' → P a.

(** ** A concrete configuration

    The header as the program declares it (32-bit tags; the style flags are
    consecutive bits) and a small environment: four cores, a clock that
    starts at 20 s and advances 1 us per reading, one debug info file with
    one source file, a hash store that knows the key only under rewind 1,
    and a decoder for which every byte is a one-byte instruction. *)

Definition example_header : DASM_Header := {|
  sizeof_Architecture := 4;
  sizeof_DASM_StyleFlags := 4;
  sizeof_DASM_Syntax := 4;
  Architecture_x64 := 1;
  Architecture_x86 := 2;
  DASM_StyleFlag_Addresses := 1;
  DASM_StyleFlag_CodeBytes := 2;
  DASM_StyleFlag_SourceFilesNames := 4;
  DASM_StyleFlag_SourceLines := 8;
  DASM_StyleFlag_SymbolNames := 16;
  DASM_Syntax_Intel := 0
|}.

Definition str8_eqb (a b : String8) : bool :=
  (length a =? length b)%nat && forallb (λ p, Byte.eqb p.1 p.2) (zip a b).

Definition example_layers : DASM_Layers := {|
  os_clock := λ ticks, 20000000 + Z.of_nat ticks;
  os_logical_core_count := 4;
  os_properties_from_file_path_modified := λ _, 1;
  di_key_match := λ a b,
    str8_eqb (DI_Key.path a) (DI_Key.path b) &&
    (DI_Key.min_timestamp a =? DI_Key.min_timestamp b);
  di_rdi_parsed_nil := 400;
  di_rdi_from_key := λ _, 500;
  rdi_source_file_nil := 600;
  rdi_line_info_from_voff := λ _ _, mkLineInfo [mkLine 700 1 2] 1;
  rdi_line_info_idx_from_voff := λ _ _, 0;
  rdi_source_file_from_idx := λ _ idx, mkSourceFile (800 + idx) idx;
  rdi_string_from_idx := λ _ _, str8_lit "main.c";
  rdi_scope_idx_from_voff := λ _ _, 0;
  rdi_procedure_name_from_scope_idx := λ _ _, [];
  hs_hash_from_key := λ key rewind_idx,
    if rewind_idx =? 0 then u128_zero else mkU128 (u64_0 key + 10) (u64_1 key + 10);
  hs_data_from_hash := λ _, str8_lit "abc";
  hs_hash_from_data := λ words, mkU128 (foldr Z.add 0 words) 1;
  fs_key_from_path := λ _, mkU128 3 3;
  txt_lang_kind_from_extension := λ _, 0;
  txt_text_info_from_key_lang := λ _ _,
    (mkTextInfo 5 (replicate 5 (mkRng1U64 0 2)), mkU128 4 4);
  str8_substr := str8_range;
  str8_skip_chop_whitespace := λ s, s;
  bit_size_from_arch := λ _, 64;
  ud_disassemble := λ _ _ _ _ _, mkInsn 1 (str8_lit "nop") None
|}.

(** The file system layer bumps its change generation. *)
Definition fs_set_change_gen (gen : Z) : M unit :=
  fun w => Ret tt (mkWorld (dasm_shared w) (node_mem w) (scope_mem w) (alloc_top w)
                     gen (os_ticks w) (os_trace w)).

(** The world a call ends in, returned or suspended. *)
Definition res_world {A} (r : Res A) : World :=
  match r with
  | Ret _ w => w
  | Blocked w => w
  end.

(** The world reached by running [m] from [w]. *)
Definition exec {A} (m : M A) (w : World) : World := res_world (m w).

Definition example_key : U128 := mkU128 1 2.
Definition example_hash : U128 := mkU128 11 12.

(** x64, Intel syntax, addresses with source file names and source lines,
    debug info at [a.pdb]. *)
Definition example_params : Params.t :=
  Params.mk 4096 1 13 0 0 (DI_Key.mk (str8_lit "a.pdb") 77).

(** After [dasm_init]. *)
Definition example_world_init : World :=
  exec (dasm_init (layers := example_layers)) world_zero.

(** After a first lookup by key, which misses under both rewinds and leaves
    a request for the hash of rewind 1 on the ring. *)
Definition example_world_requested : World :=
  exec (dasm_info_from_key_params (header := example_header)
          (layers := example_layers) 1 example_key example_params None)
    example_world_init.

(** After the file system reached change generation [gen] and the worker
    served the request. *)
Definition example_world_committed (gen : Z) : World :=
  exec (fs_set_change_gen gen;;
        dasm_parse_thread__iteration (header := example_header)
          (layers := example_layers))
    example_world_requested.

Fixpoint repeat_M (n : nat) (m : M unit) : M unit :=
  match n with
  | O => mret tt
  | S n' => m;; repeat_M n' m
  end.

(** Committed at change generation 3; then ten ticks of the user clock
    pass and a watched file changes. *)
Definition example_world_idle : World :=
  exec (repeat_M 10 dasm_user_clock_tick;; fs_set_change_gen 4)
    (example_world_committed 3).

(** The world after the worker served the request with no file change
    seen so far. *)
Definition example_world_loaded : World := example_world_committed 0.

(** The world after the evictor swept the idle world. *)
Definition example_world_swept : World :=
  exec (dasm_evictor_detector_thread__sweep (header := example_header)
          (layers := example_layers))
    example_world_idle.



(** The world after the worker dequeued the pending request. *)
Definition example_world_dequeued : World :=
  exec (dasm_u2p_dequeue_req (header := example_header)) example_world_requested.

(** The chunk list after the records [insts] were pushed one by one, each
    with the capacity [cap], onto the empty list. *)
Definition dasm_inst_chunk_list_of (cap : Z) (insts : list DASM_Inst)
    : DASM_InstChunkList :=
  foldl (λ lst inst, dasm_inst_chunk_list_push lst cap inst)
    DASM_InstChunkList_zero insts.

(** The counters of a chunk list agree with its chunks, no chunk is empty
    or holds more than its capacity [cap], and only the last chunk may have
    room left. *)
Definition chunk_list_wf (cap : Z) (lst : DASM_InstChunkList) : Prop :=
  node_count lst = wrap64 (Z.of_nat (length (chunks lst))) ∧
  inst_count lst = wrap64 (Z.of_nat (length (concat (map chunk_v (chunks lst))))) ∧
  Forall (λ c, chunk_cap c = cap ∧ 0 < chunk_count c ≤ cap) (chunks lst) ∧
  ∀ (i : nat) (c : DASM_InstChunkNode),
    chunks lst !! i = Some c → (S i < length (chunks lst))%nat → chunk_count c = cap.

(** The bytes a request advances the ring positions by: the size of its
    record, rounded up to a multiple of 8. *)
Definition u2p_req_advance {header : DASM_Header} (req : U128 * Params.t) : Z :=
  (str8_size (u2p_req_bytes req.1 req.2) + 7) / 8 * 8.

Fixpoint u2p_queue_size {header : DASM_Header} (reqs : list (U128 * Params.t)) : Z :=
  match reqs with
  | [] => 0
  | req :: reqs' => u2p_req_advance req + u2p_queue_size reqs'
  end.

(** The ring memory holds the records of [reqs], one after the other, from
    the position [pos] on. *)
Fixpoint ring_holds {header : DASM_Header} (ring_base : ring_mem)
    (ring_size pos : Z) (reqs : list (U128 * Params.t)) : Prop :=
  match reqs with
  | [] => True
  | req :: reqs' =>
      ring_read_bytes ring_base ring_size pos (length (u2p_req_bytes req.1 req.2))
      = u2p_req_bytes req.1 req.2 ∧
      ring_holds ring_base ring_size (pos + u2p_req_advance req) reqs'
  end.

(** The ring holds exactly the requests [reqs], oldest first: they lie
    between the read position and the write position, both multiples
    of 8. *)
Definition u2p_ring_queue {header : DASM_Header} (s : DASM_Shared)
    (reqs : list (U128 * Params.t)) : Prop :=
  0 ≤ u2p_ring_read_pos s < 2 ^ 64 ∧
  u2p_ring_read_pos s mod 8 = 0 ∧
  u2p_ring_write_pos s = wrap64 (u2p_ring_read_pos s + u2p_queue_size reqs) ∧
  u2p_queue_size reqs ≤ u2p_ring_size s ∧
  ring_holds (u2p_ring_base s) (u2p_ring_size s) (u2p_ring_read_pos s) reqs ∧
  Forall (λ req, u2p_req_wf req.1 req.2) reqs.

(** A ring like the one [dasm_init] sets up: its size divides [2 ^ 64] and
    is a multiple of 8. *)
Definition u2p_ring_ok (s : DASM_Shared) : Prop :=
  0 < u2p_ring_size s < 2 ^ 64 ∧
  (u2p_ring_size s | 2 ^ 64) ∧
  (8 | u2p_ring_size s).

(** Enqueuing the requests [reqs] one after the other, and dequeuing [n]
    requests one after the other. *)
Fixpoint u2p_enqueue_all {header : DASM_Header} {layers : DASM_Layers}
    (reqs : list (U128 * Params.t)) (endt_us : Z) : M unit :=
  match reqs with
  | [] => mret tt
  | req :: reqs' =>
      dasm_u2p_enqueue_req req.1 req.2 endt_us;; u2p_enqueue_all reqs' endt_us
  end.

Fixpoint u2p_dequeue_n {header : DASM_Header} (n : nat)
    : M (list (U128 * Params.t)) :=
  match n with
  | O => mret []
  | S n' =>
      req ← dasm_u2p_dequeue_req;
      reqs ← u2p_dequeue_n n';
      mret (req :: reqs)
  end.

(** A second request, without debug info, and a world whose ring is too
    small for any record. *)
Definition example_request_2 : U128 * Params.t :=
  (mkU128 5 6, Params.mk 8192 2 1 0 4096 DI_Key.zero).

Definition example_world_small_ring : World :=
  mkWorld (mkShared 0 0 [] [] 8 ∅ 0 0 1 2 0) ∅ ∅ 0 0 0 [].

(** The handles a stripe holds. *)
Definition stripe_handles (stripe : DASM_Stripe) : list Z :=
  [stripe_arena stripe; rw_mutex stripe; stripe_cv stripe].

(** The stripes [dasm_init] sets up when the last handle given out so far
    is [top]. *)
Fixpoint dasm_init_stripes_from (top : Z) (n : nat) : list DASM_Stripe :=
  match n with
  | O => []
  | S n' => mkStripe (top + 1) (top + 2) (top + 3) [] :: dasm_init_stripes_from (top + 3) n'
  end.

(** The world [w] after handles and addresses up to [top] were given out. *)
Definition world_allocated (w : World) (top : Z) : World :=
  mkWorld (dasm_shared w) (node_mem w) (scope_mem w) top (fs_gen w) (os_ticks w)
    (os_trace w).

(** The shared state is laid out as [dasm_init] lays it out: the table
    has the slots and stripes its counts announce, at least one of each,
    and the ring has a size.  The functions that index the table or the
    ring divide by these counts. *)
Definition dasm_shared_laid_out (w : World) : Prop :=
  table_wf w ∧ 0 < slots_count (dasm_shared w) ∧ 0 < u2p_ring_size (dasm_shared w).

(** The test the slot walks of the lookup apply to a node: its hash and
    its parameters match the ones looked for. *)
Definition node_matches {header : DASM_Header} {layers : DASM_Layers}
    (hash : U128) (params : Params.t) (node : Node.t) : bool :=
  u128_match hash (Node.hash node) && dasm_params_match params (Node.params node).

(** The node a lookup of [(hash, params)] finds in the world [w]: the first
    match in the slot of [hash]. *)
Definition node_of_key {header : DASM_Header} {layers : DASM_Layers}
    (w : World) (hash : U128) (params : Params.t) : option Z :=
  slot_first (node_matches hash params) (node_mem w)
    (slot_list (slot_at (dasm_shared w)
                  (u64_1 hash mod slots_count (dasm_shared w)))).

(** The node a touch leaves behind: pinned once more and stamped. *)
Definition node_touched (now_us clock_idx : Z) (node : Node.t) : Node.t :=
  Node.mk (Node.hash node) (Node.params node) (Node.info_arena node) (Node.info node)
    (wrap64 (Node.scope_ref_count node + 1)) now_us clock_idx
    (Node.last_time_requested_us node) (Node.last_user_clock_idx_requested node)
    (Node.load_count node) (Node.is_working node) (Node.change_gen node).

(** The node a touch refers to when its scope closes: the first node of the
    slot of the touch's hash that matches the touch's key. *)
Definition touch_node {header : DASM_Header} {layers : DASM_Layers}
    (w : World) (t : Touch.t) : option Z :=
  node_of_key w (Touch.hash t) (Touch.params t).

(** How many of the touches refer to the node [m]. *)
Definition touches_of {header : DASM_Header} {layers : DASM_Layers}
    (w : World) (touches : list Touch.t) (m : Z) : nat :=
  length (filter (λ t, touch_node w t = Some m) touches).

(** A reference count after [k] atomic decrements. *)
Definition unpinned (k : nat) (ref_count : Z) : Z :=
  Nat.iter k (λ c, wrap64 (c - 1)) ref_count.

(** From [w] to [w'] the node [n] was left as it is, unless it was stamped
    as requested at the user clock [c]; a stamp that is there stays. *)
Definition request_stamp_kept (c n : Z) (w w' : World) : Prop :=
  (Node.last_user_clock_idx_requested (node_at (node_mem w) n) = c →
   Node.last_user_clock_idx_requested (node_at (node_mem w') n) = c) ∧
  (node_at (node_mem w') n = node_at (node_mem w) n ∨
   Node.last_user_clock_idx_requested (node_at (node_mem w') n) = c).

(** The environment of the concrete configuration with a clock that stops
    advancing after an hour. *)
Definition example_layers_bounded : DASM_Layers := {|
  os_clock := λ ticks, 20000000 + Z.min (Z.of_nat ticks) 3600000000;
  os_logical_core_count := os_logical_core_count (DASM_Layers := example_layers);
  os_properties_from_file_path_modified :=
    os_properties_from_file_path_modified (DASM_Layers := example_layers);
  di_key_match := di_key_match (DASM_Layers := example_layers);
  di_rdi_parsed_nil := di_rdi_parsed_nil (DASM_Layers := example_layers);
  di_rdi_from_key := di_rdi_from_key (DASM_Layers := example_layers);
  rdi_source_file_nil := rdi_source_file_nil (DASM_Layers := example_layers);
  rdi_line_info_from_voff := rdi_line_info_from_voff (DASM_Layers := example_layers);
  rdi_line_info_idx_from_voff :=
    rdi_line_info_idx_from_voff (DASM_Layers := example_layers);
  rdi_source_file_from_idx := rdi_source_file_from_idx (DASM_Layers := example_layers);
  rdi_string_from_idx := rdi_string_from_idx (DASM_Layers := example_layers);
  rdi_scope_idx_from_voff := rdi_scope_idx_from_voff (DASM_Layers := example_layers);
  rdi_procedure_name_from_scope_idx :=
    rdi_procedure_name_from_scope_idx (DASM_Layers := example_layers);
  hs_hash_from_key := hs_hash_from_key (DASM_Layers := example_layers);
  hs_data_from_hash := hs_data_from_hash (DASM_Layers := example_layers);
  hs_hash_from_data := hs_hash_from_data (DASM_Layers := example_layers);
  fs_key_from_path := fs_key_from_path (DASM_Layers := example_layers);
  txt_lang_kind_from_extension :=
    txt_lang_kind_from_extension (DASM_Layers := example_layers);
  txt_text_info_from_key_lang :=
    txt_text_info_from_key_lang (DASM_Layers := example_layers);
  str8_substr := str8_substr (DASM_Layers := example_layers);
  str8_skip_chop_whitespace := str8_skip_chop_whitespace (DASM_Layers := example_layers);
  bit_size_from_arch := bit_size_from_arch (DASM_Layers := example_layers);
  ud_disassemble := ud_disassemble (DASM_Layers := example_layers)
|}.

(** The node the worker takes for a request: the first node of the slot of
    [hash] whose key matches the request's. *)
Definition node_of_request {header : DASM_Header} {layers : DASM_Layers}
    (w : World) (hash : U128) (params : Params.t) : option Z :=
  slot_first (λ node, u128_match (Node.hash node) hash &&
                      dasm_params_match (Node.params node) params)
    (node_mem w)
    (slot_list (slot_at (dasm_shared w)
                  (u64_1 hash mod slots_count (dasm_shared w)))).


(** A world whose ring holds a request for which the table has no node. *)
Definition example_world_orphan_request : World :=
  exec (dasm_u2p_enqueue_req (header := example_header) (layers := example_layers)
          example_hash example_params max_U64)
    example_world_init.

(** The decoder consumes bytes of the blob only: what [ud_disassemble]
    returns at an offset inside the blob is at most what is left of it. *)
Definition decoder_stays_inside {header : DASM_Header} {layers : DASM_Layers}
    (params : Params.t) (data : String8) : Prop :=
  ∀ o, 0 ≤ o < str8_size data →
       0 ≤ ud_insn_size (dasm_disassemble_at params data o) ≤ str8_size data - o.

(** Every element is smaller than all the elements after it. *)
Fixpoint strictly_increasing (l : list Z) : Prop :=
  match l with
  | [] => True
  | x :: l' => Forall (λ y, x < y) l' ∧ strictly_increasing l'
  end.

(** The world after [dasm_init] with a ring of 8 bytes only, less than any
    request takes. *)
Definition example_world_full_ring : World :=
  let w := example_world_init in
  let s := dasm_shared w in
  mkWorld
    (mkShared (slots_count s) (stripes_count s) (slots s) (stripes s)
       8 (u2p_ring_base s) 0 0 (u2p_ring_cv s) (u2p_ring_mutex s) (user_clock_idx s))
    (node_mem w) (scope_mem w) (alloc_top w) (fs_gen w) (os_ticks w) (os_trace w).

(** * Properties *)

#[local] Set Warnings "-clear-no-such-hyp".

Section DASM_Properties.

Context {header : DASM_Header} {layers : DASM_Layers}.

(** ** The linear scan *)

Lemma linear_scan_from_no_match (l : list DASM_Inst) (idx off : Z) :
  Forall (λ inst, code_off inst ≠ off) l → linear_scan_from l idx off = 0.
Proof.
  intros Hall. revert idx.
  induction Hall as [|inst l Hne _ IH]; intros idx; simpl; [done|].
  destruct (Z.eqb_spec (code_off inst) off); [done|]. apply IH.
Qed.

Lemma linear_scan_from_first_match (l : list DASM_Inst) (idx off : Z)
    (k : nat) (inst : DASM_Inst) :
  l !! k = Some inst →
  code_off inst = off →
  Forall (λ inst', code_off inst' ≠ off) (take k l) →
  linear_scan_from l idx off = idx + Z.of_nat k.
Proof.
  revert idx k. induction l as [|x l IH]; intros idx k Hk Hoff Hbefore.
  - by rewrite lookup_nil in Hk.
  - destruct k as [|k]; simpl in *.
    + injection Hk as ->. rewrite Hoff, Z.eqb_refl. lia.
    + inversion Hbefore as [|? ? Hx Hrest]; subst.
      destruct (Z.eqb_spec (code_off x) (code_off inst)); [done|].
      rewrite (IH (idx + 1) k Hk eq_refl Hrest). lia.
Qed.

(** C10. For every instruction array and offset, the linear scan returns
    the smallest index whose [code_off] equals the offset, and 0 when no
    element matches; so the value 0 is returned both for a match at index 0
    and for no match at all. *)
Theorem C10_linear_scan_first_match_or_zero (array : DASM_InstArray) (off : Z) :
  (∀ (k : nat) (inst : DASM_Inst),
     v array !! k = Some inst →
     code_off inst = off →
     (∀ (j : nat) (inst' : DASM_Inst),
        (j < k)%nat → v array !! j = Some inst' → code_off inst' ≠ off) →
     dasm_inst_array_idx_from_code_off__linear_scan array off = Z.of_nat k) ∧
  ((∀ (j : nat) (inst' : DASM_Inst),
      v array !! j = Some inst' → code_off inst' ≠ off) →
   dasm_inst_array_idx_from_code_off__linear_scan array off = 0) ∧
  (dasm_inst_array_idx_from_code_off__linear_scan
     (mkInstArray [mkInst off 0 (mkRng1U64 0 0)]) off = 0 ∧
   dasm_inst_array_idx_from_code_off__linear_scan (mkInstArray []) off = 0).
Proof.
  unfold dasm_inst_array_idx_from_code_off__linear_scan.
  split; [|split; [|split]].
  - intros k inst Hk Hoff Hmin.
    rewrite (linear_scan_from_first_match _ 0 off k inst Hk Hoff); [lia|].
    apply Forall_forall. intros inst' Hin.
    apply list_elem_of_lookup in Hin as [j Hj].
    apply lookup_take_Some in Hj as [Hj Hlt]. by eapply Hmin.
  - intros Hnone. apply linear_scan_from_no_match, Forall_forall.
    intros inst' Hin. apply list_elem_of_lookup in Hin as [j Hj]. by eapply Hnone.
  - simpl. by rewrite Z.eqb_refl.
  - done.
Qed.

(** ** Lookups *)

(** C6. A lookup with the zero hash returns the empty info, whose
    instruction count is 0, and leaves the whole world as it was: no node
    is created in any slot and no request is written to the ring. *)
Theorem C6_zero_hash_lookup_is_inert (scope : Z) (hash : U128)
    (params : Params.t) (w : World) :
  u128_match hash u128_zero = true →
  dasm_info_from_hash_params scope hash params w = Ret Info.zero w ∧
  count (Info.insts Info.zero) = 0.
Proof.
  intros Hzero. unfold dasm_info_from_hash_params. by rewrite Hzero.
Qed.

(** C1. The lookup by key asks the hash store for the hash under rewind 0
    and looks it up; when that result is not empty it is returned, its
    hash is stored through [hash_out], and the world is the one the first
    lookup left, so rewind 1 is not tried.  When the first result is empty
    the hash under rewind 1 is looked up in the world the first lookup
    left; a non-empty result is returned with its hash stored through
    [hash_out]. *)
Theorem C1_key_lookup_first_nonempty_rewind (scope : Z) (key : U128)
    (params : Params.t) (hash_out : U128) (w : World) :
  (∀ (r0 : Info.t) (w0 : World),
     dasm_info_from_hash_params scope (hs_hash_from_key key 0) params w = Ret r0 w0 →
     count (Info.insts r0) ≠ 0 →
     dasm_info_from_key_params scope key params (Some hash_out) w
     = Ret (r0, Some (hs_hash_from_key key 0)) w0) ∧
  (∀ (r0 r1 : Info.t) (w0 w1 : World),
     dasm_info_from_hash_params scope (hs_hash_from_key key 0) params w = Ret r0 w0 →
     count (Info.insts r0) = 0 →
     dasm_info_from_hash_params scope (hs_hash_from_key key 1) params w0 = Ret r1 w1 →
     count (Info.insts r1) ≠ 0 →
     dasm_info_from_key_params scope key params (Some hash_out) w
     = Ret (r1, Some (hs_hash_from_key key 1)) w1).
Proof.
  unfold dasm_info_from_key_params. simpl.
  unfold mbind, M_mbind, M_bind, mret, M_mret, M_ret.
  split.
  - intros r0 w0 H0 Hne. rewrite H0.
    by destruct (Z.eqb_spec (count (Info.insts r0)) 0).
  - intros r0 r1 w0 w1 H0 He H1 Hne. rewrite H0, He. simpl. rewrite H1.
    by destruct (Z.eqb_spec (count (Info.insts r1)) 0).
Qed.

(** C9. When the lookups under rewind 0 and under rewind 1 both return an
    empty info, the lookup by key returns with what [hash_out] points to
    unchanged (and a null [hash_out] stays null). *)
Theorem C9_key_lookup_empty_keeps_hash_out (scope : Z) (key : U128)
    (params : Params.t) (hash_out : option U128) (w w0 w1 : World)
    (r0 r1 : Info.t) :
  dasm_info_from_hash_params scope (hs_hash_from_key key 0) params w = Ret r0 w0 →
  count (Info.insts r0) = 0 →
  dasm_info_from_hash_params scope (hs_hash_from_key key 1) params w0 = Ret r1 w1 →
  count (Info.insts r1) = 0 →
  dasm_info_from_key_params scope key params hash_out w = Ret (r1, hash_out) w1.
Proof.
  intros H0 He0 H1 He1. unfold dasm_info_from_key_params. simpl.
  unfold mbind, M_mbind, M_bind, mret, M_mret, M_ret.
  rewrite H0, He0. simpl. by rewrite H1, He1.
Qed.

(** ** Reasoning about calls in [M] *)

Lemma bind_Ret_inv {A B} (m : M A) (k : A → M B) (w w' : World) (b : B) :
  (m ≫= k) w = Ret b w' → ∃ a w1, m w = Ret a w1 ∧ k a w1 = Ret b w'.
Proof.
  unfold mbind, M_mbind, M_bind. destruct (m w) as [a w1|w1]; [eauto|done].
Qed.

Lemma bind_Blocked_inv {A B} (m : M A) (k : A → M B) (w w' : World) :
  (m ≫= k) w = Blocked w' →
  m w = Blocked w' ∨ ∃ a w1, m w = Ret a w1 ∧ k a w1 = Blocked w'.
Proof.
  unfold mbind, M_mbind, M_bind. destruct (m w) as [a w1|w1]; intros Hrun.
  - right. by exists a, w1.
  - injection Hrun as ->. by left.
Qed.

Lemma M_bind_run {A B} (m : M A) (k : A → M B) (w w' : World) (a : A) :
  m w = Ret a w' → (m ≫= k) w = k a w'.
Proof. unfold mbind, M_mbind, M_bind. by intros ->. Qed.

Lemma M_bind_blocked {A B} (m : M A) (k : A → M B) (w w' : World) :
  m w = Blocked w' → (m ≫= k) w = Blocked w'.
Proof. unfold mbind, M_mbind, M_bind. by intros ->. Qed.

Lemma M_frame_ret {A} (R : relation World) `{!Reflexive R} (a : A) :
  M_frame R (mret a).
Proof. intros w a' w' [= _ <-]. reflexivity. Qed.

Lemma M_frame_bind {A B} (R : relation World) `{!Transitive R}
    (m : M A) (k : A → M B) :
  M_frame R m → (∀ a, M_frame R (k a)) → M_frame R (m ≫= k).
Proof.
  intros Hm Hk w b w' Hrun.
  apply bind_Ret_inv in Hrun as (a & w1 & H1 & H2).
  etrans; [by eapply Hm | by eapply Hk].
Qed.

Lemma M_frame_mono {A} (R R' : relation World) (m : M A) :
  (∀ w w', R w w' → R' w w') → M_frame R m → M_frame R' m.
Proof. intros Hsub Hm w a w' Hrun. eapply Hsub, Hm, Hrun. Qed.

(** ** What the ring operations leave alone *)

#[local] Instance ring_only_refl : Reflexive ring_only.
Proof. intros w. by repeat split. Qed.

#[local] Instance ring_only_trans : Transitive ring_only.
Proof.
  intros w1 w2 w3 (?&?&?&?&?&?) (?&?&?&?&?&?). repeat split; congruence.
Qed.

Lemma ring_only_get_shared : M_frame ring_only get_shared.
Proof. intros w a w' [= _ <-]. by repeat split. Qed.

Lemma ring_only_put (src : list byte) : M_frame ring_only (u2p_ring_put src).
Proof. intros w a w' [= _ <-]. by repeat split. Qed.

Lemma ring_only_set_write_pos (f : DASM_Shared → Z) :
  M_frame ring_only (modify_shared (λ s, set_u2p_ring_write_pos s (f s))).
Proof. intros w a w' [= _ <-]. by repeat split. Qed.

Lemma ring_only_now : M_frame ring_only os_now_microseconds.
Proof. intros w a w' [= _ <-]. by repeat split. Qed.

Lemma ring_only_broadcast (handle : Z) :
  M_frame ring_only (os_condition_variable_broadcast handle).
Proof.
  intros w a w' [= _ <-]. repeat split; try done.
  simpl. unfold released_arenas. rewrite omap_app. simpl. apply app_nil_r.
Qed.

Lemma M_frame_wait {A} (R : relation World) (cv mutex endt_us : Z) :
  M_frame R (os_condition_variable_wait (A := A) cv mutex endt_us).
Proof. by intros w a w'. Qed.

Lemma ring_only_enqueue (hash : U128) (params : Params.t) (endt_us : Z) :
  M_frame ring_only (dasm_u2p_enqueue_req hash params endt_us).
Proof.
  unfold dasm_u2p_enqueue_req.
  apply M_frame_bind; [apply _|apply ring_only_get_shared|intros s].
  destruct (_ >=? _).
  - repeat (apply M_frame_bind;
      [apply _
      |first [apply ring_only_put | apply ring_only_set_write_pos | apply ring_only_broadcast]
      |intros _]).
    apply M_frame_ret, _.
  - apply M_frame_bind; [apply _|apply ring_only_now|intros now].
    destruct (_ >=? _); [apply M_frame_ret, _|apply M_frame_wait].
Qed.

(** ** The sweep *)

Lemma evict_cond_view (t c : Z) (n n' : Node.t) :
  node_evict_view n = node_evict_view n' → evict_cond t c n = evict_cond t c n'.
Proof. unfold node_evict_view, evict_cond. by intros [= -> -> -> -> -> _]. Qed.

Lemma swept_refl (w : World) : swept (λ _ _ _, False) w w.
Proof. unfold swept. split_and!; try done; naive_solver. Qed.

Lemma swept_iff (E E' : nat → nat → Z → Prop) (w w' : World) :
  (∀ i k a, E i k a ↔ E' i k a) → swept E w w' → swept E' w w'.
Proof.
  intros HE (?&?&?&?&?&Hs&Hf&Hr). unfold swept. split_and!; try done.
  - intros i a. rewrite Hs. naive_solver.
  - intros k a. rewrite Hf. naive_solver.
  - intros x. rewrite Hr. naive_solver.
Qed.

Lemma swept_trans (E1 E2 : nat → nat → Z → Prop) (w w1 w2 : World) :
  swept E1 w w1 → swept E2 w1 w2 →
  swept (λ i k a, E1 i k a ∨ E2 i k a) w w2.
Proof.
  intros (?&?&?&?&Hv1&Hs1&Hf1&Hr1) (?&?&?&?&Hv2&Hs2&Hf2&Hr2).
  assert (∀ a, Node.info_arena (node_at (node_mem w1) a)
               = Node.info_arena (node_at (node_mem w) a)) as Harena.
  { intros a. specialize (Hv1 a). unfold node_evict_view in Hv1. congruence. }
  unfold swept. split_and!; try congruence.
  - intros i a. rewrite Hs2, Hs1. naive_solver.
  - intros k a. rewrite Hf2, Hf1. naive_solver.
  - intros x. rewrite Hr2, Hr1. setoid_rewrite Harena. split.
    + intros [[Hx|(i&k&a&HE&Ha)]|(i&k&a&HE&Ha)]; [by left|right..];
        exists i, k, a; tauto.
    + intros [Hx|(i&k&a&[HE|HE]&Ha)]; [by left; left|left; right|right];
        exists i, k, a; tauto.
Qed.

(** A returned request leaves everything the sweep looks at in place. *)
Lemma ring_only_swept (w w' : World) :
  ring_only w w' → swept (λ _ _ _, False) w w'.
Proof.
  intros (?&?&Hs&Hf&Hm&Hr). unfold swept, slot_nodes, stripe_free.
  rewrite Hs, Hf, Hm, Hr. split_and!; try done; naive_solver.
Qed.

#[local] Instance unswept_refl : Reflexive unswept.
Proof. exact swept_refl. Qed.

#[local] Instance unswept_trans : Transitive unswept.
Proof.
  intros w1 w2 w3 H1 H2. eapply swept_iff; [|exact (swept_trans _ _ _ _ _ H1 H2)].
  naive_solver.
Qed.

Lemma unswept_modify_node (n : Z) (f : Node.t → Node.t) :
  (∀ x, node_evict_view (f x) = node_evict_view x) →
  M_frame unswept (modify_node n f).
Proof.
  intros Hf w a w' [= _ <-].
  assert (∀ m, node_evict_view (node_at (<[n:=f (node_at (node_mem w) n)]> (node_mem w)) m)
               = node_evict_view (node_at (node_mem w) m)) as Hview.
  { intros m. unfold node_at. destruct (decide (n = m)) as [->|Hne].
    - rewrite lookup_insert_eq. simpl. apply Hf.
    - by rewrite lookup_insert_ne. }
  unfold unswept, swept. split_and!; try done; naive_solver.
Qed.

Lemma unswept_retry (g t c n : Z) :
  M_frame unswept (dasm_evictor_detector_retry g t c n).
Proof.
  unfold dasm_evictor_detector_retry.
  apply M_frame_bind; [apply _| |intros node].
  { intros w a w' [= _ <-]. apply swept_refl. }
  destruct (retry_cond g t c node); [|apply M_frame_ret, _].
  apply M_frame_bind; [apply _| |intros good].
  { eapply M_frame_mono; [apply ring_only_swept|apply ring_only_enqueue]. }
  destruct good; [|apply M_frame_ret, _].
  apply M_frame_bind; [apply _| |intros now].
  { eapply M_frame_mono; [apply ring_only_swept|apply ring_only_now]. }
  apply M_frame_bind; [apply _| |intros _]; by apply unswept_modify_node.
Qed.

Lemma swept_table_wf (E : nat → nat → Z → Prop) (w w' : World) :
  swept E w w' → table_wf w → table_wf w'.
Proof. intros (?&?&?&?&_) (?&?&?). unfold table_wf. split_and!; congruence. Qed.

Lemma swept_evict (slot_idx stripe_idx t c n : Z) (w w' : World) (u : unit) :
  (Z.to_nat slot_idx < length (slots (dasm_shared w)))%nat →
  (Z.to_nat stripe_idx < length (stripes (dasm_shared w)))%nat →
  dasm_evictor_detector_evict slot_idx stripe_idx t c n w = Ret u w' →
  swept (λ i k a, i = Z.to_nat slot_idx ∧ k = Z.to_nat stripe_idx ∧ a = n ∧
                  evict_cond t c (node_at (node_mem w) n) = true) w w'.
Proof.
  intros Hslot Hstripe.
  unfold dasm_evictor_detector_evict, mbind, M_mbind, M_bind, load_node.
  destruct (evict_cond t c (node_at (node_mem w) n)) eqn:Hev.
  - set (arena := Node.info_arena (node_at (node_mem w) n)).
    assert (∀ tr,
      (tr = [] ∧ arena = 0 ∨ tr = [Ev_arena_release arena] ∧ arena ≠ 0) →
      w' = mkWorld
             (set_stripes
                (set_slots (dasm_shared w)
                   (<[Z.to_nat slot_idx := DLLRemove (slot_at (dasm_shared w) slot_idx) n]>
                      (slots (dasm_shared w))))
                (<[Z.to_nat stripe_idx := SLLStackPush (stripe_at (dasm_shared w) stripe_idx) n]>
                   (stripes (dasm_shared w))))
             (node_mem w) (scope_mem w) (alloc_top w) (fs_gen w) (os_ticks w)
             (os_trace w ++ tr) →
      swept (λ i k a, i = Z.to_nat slot_idx ∧ k = Z.to_nat stripe_idx ∧ a = n ∧ true = true)
        w w') as Hpost.
    { intros tr Htr ->. unfold swept, slot_nodes, stripe_free. simpl.
      split_and!; try done.
      - apply length_insert.
      - apply length_insert.
      - intros i a. destruct (decide (i = Z.to_nat slot_idx)) as [->|Hne].
        + rewrite list_lookup_insert_eq by done. simpl.
          rewrite list_elem_of_filter. unfold slot_at. naive_solver.
        + rewrite list_lookup_insert_ne by done. naive_solver.
      - intros k a. destruct (decide (k = Z.to_nat stripe_idx)) as [->|Hne].
        + rewrite list_lookup_insert_eq by done. simpl.
          rewrite elem_of_cons. unfold stripe_at. naive_solver.
        + rewrite list_lookup_insert_ne by done. naive_solver.
      - intros x. unfold released_arenas. rewrite omap_app, elem_of_app.
        fold arena. destruct Htr as [[-> Hz]|[-> Hnz]]; simpl.
        + rewrite elem_of_nil. naive_solver.
        + rewrite list_elem_of_singleton. naive_solver. }
    unfold modify_slot, modify_stripe, modify_shared. fold arena.
    destruct (Z.eqb_spec arena 0) as [Hz|Hnz]; simpl; intros [= _ <-].
    + apply (Hpost []); [by left|]. by rewrite app_nil_r.
    + apply (Hpost [Ev_arena_release arena]); [by right|done].
  - intros [= _ <-]. eapply swept_iff; [|apply swept_refl]. naive_solver.
Qed.

Lemma swept_visit (slot_idx stripe_idx g t c n : Z) (w w' : World) (u : unit) :
  (Z.to_nat slot_idx < length (slots (dasm_shared w)))%nat →
  (Z.to_nat stripe_idx < length (stripes (dasm_shared w)))%nat →
  dasm_evictor_detector_visit slot_idx stripe_idx g t c n w = Ret u w' →
  swept (λ i k a, i = Z.to_nat slot_idx ∧ k = Z.to_nat stripe_idx ∧ a = n ∧
                  evict_cond t c (node_at (node_mem w) n) = true) w w'.
Proof.
  intros Hslot Hstripe Hrun. unfold dasm_evictor_detector_visit in Hrun.
  apply bind_Ret_inv in Hrun as (u1 & w1 & Hevict & Hretry).
  apply swept_evict in Hevict; [|done..].
  apply unswept_retry in Hretry.
  eapply swept_iff; [|exact (swept_trans _ _ _ _ _ Hevict Hretry)].
  naive_solver.
Qed.

Lemma swept_walk (slot_idx stripe_idx g t c : Z) (ns : list Z) :
  ∀ (w w' : World) (u : unit),
    (Z.to_nat slot_idx < length (slots (dasm_shared w)))%nat →
    (Z.to_nat stripe_idx < length (stripes (dasm_shared w)))%nat →
    dasm_evictor_detector_walk slot_idx stripe_idx g t c ns w = Ret u w' →
    swept (λ i k a, i = Z.to_nat slot_idx ∧ k = Z.to_nat stripe_idx ∧ a ∈ ns ∧
                    evict_cond t c (node_at (node_mem w) a) = true) w w'.
Proof.
  induction ns as [|n next IH]; intros w w' u Hslot Hstripe Hrun;
    cbn [dasm_evictor_detector_walk] in Hrun.
  - injection Hrun as _ <-. eapply swept_iff; [|apply swept_refl].
    intros i k a. rewrite elem_of_nil. naive_solver.
  - apply bind_Ret_inv in Hrun as (u1 & w1 & Hvisit & Hrest).
    apply swept_visit in Hvisit; [|done..].
    pose proof Hvisit as (_&_&Hls&Hlf&Hview&_).
    apply IH in Hrest; [|congruence..].
    eapply swept_iff; [|exact (swept_trans _ _ _ _ _ Hvisit Hrest)].
    intros i k a. rewrite elem_of_cons.
    rewrite (evict_cond_view t c _ _ (Hview a)). naive_solver.
Qed.

Lemma slot_first_None (p : Node.t → bool) (mem : gmap Z Node.t) (l : list Z) :
  slot_first p mem l = None → ∀ a, a ∈ l → p (node_at mem a) = false.
Proof.
  induction l as [|n l IH]; simpl; intros Hnone a Ha.
  - by apply elem_of_nil in Ha.
  - destruct (p (node_at mem n)) eqn:Hp; [done|].
    apply elem_of_cons in Ha as [->|Ha]; [done|by apply IH].
Qed.

Lemma swept_slot (g t c slot_idx : Z) (w w' : World) (u : unit) :
  table_wf w →
  0 ≤ slot_idx < slots_count (dasm_shared w) →
  dasm_evictor_detector_slot g t c slot_idx w = Ret u w' →
  swept (λ i k a, i = Z.to_nat slot_idx ∧
                  k = Z.to_nat (slot_idx mod stripes_count (dasm_shared w)) ∧
                  a ∈ slot_nodes w i ∧
                  evict_cond t c (node_at (node_mem w) a) = true) w w'.
Proof.
  intros (Hls & Hlf & Hpos) Hidx.
  unfold dasm_evictor_detector_slot, mbind, M_mbind, M_bind, get_shared, get_node_mem.
  destruct (slot_first _ _ _) eqn:Hfirst.
  - intros Hrun. apply swept_walk in Hrun.
    + eapply swept_iff; [|exact Hrun]. unfold slot_nodes, slot_at. naive_solver.
    + lia.
    + pose proof (Z.mod_pos_bound slot_idx _ Hpos). lia.
  - intros [= _ <-]. eapply swept_iff; [|apply swept_refl].
    intros i k a. split; [done|]. intros (-> & _ & Ha & Hev).
    apply (slot_first_None _ _ _ Hfirst) in Ha. by rewrite Hev in Ha.
Qed.

Lemma swept_slots (g t c : Z) (slot_idxs : list Z) :
  ∀ (w w' : World) (u : unit),
    table_wf w →
    NoDup slot_idxs →
    (∀ idx, idx ∈ slot_idxs → 0 ≤ idx < slots_count (dasm_shared w)) →
    dasm_evictor_detector_slots g t c slot_idxs w = Ret u w' →
    swept (λ i k a, ∃ idx, idx ∈ slot_idxs ∧ i = Z.to_nat idx ∧
                    k = Z.to_nat (idx mod stripes_count (dasm_shared w)) ∧
                    a ∈ slot_nodes w i ∧
                    evict_cond t c (node_at (node_mem w) a) = true) w w'.
Proof.
  induction slot_idxs as [|idx rest IH]; intros w w' u Hwf Hnodup Hrange Hrun;
    cbn [dasm_evictor_detector_slots] in Hrun.
  - injection Hrun as _ <-. eapply swept_iff; [|apply swept_refl].
    intros i k a. split; [done|]. intros (idx & Hin & _). by apply elem_of_nil in Hin.
  - apply bind_Ret_inv in Hrun as (u1 & w1 & Hslot & Hrest).
    apply NoDup_cons in Hnodup as [Hnotin Hnodup].
    apply swept_slot in Hslot; [|done|apply Hrange; by left].
    pose proof Hslot as (Hsc & Hkc & _ & _ & Hview & Hmem & _).
    apply IH in Hrest; [|by eapply swept_table_wf|done|].
    2:{ intros idx' Hin. rewrite Hsc. apply Hrange. by right. }
    eapply swept_iff; [|exact (swept_trans _ _ _ _ _ Hslot Hrest)].
    intros i k a. rewrite Hkc. split.
    + intros [(-> & -> & Ha & Hev)|(idx' & Hin & -> & -> & Ha & Hev)].
      * exists idx. split_and!; try done. by left.
      * exists idx'. split_and!; try done.
        -- by right.
        -- by apply Hmem in Ha as [Ha _].
        -- by rewrite <-(evict_cond_view t c _ _ (Hview a)).
    + intros (idx' & Hin & -> & -> & Ha & Hev).
      apply elem_of_cons in Hin as [->|Hin]; [left; done|].
      right. exists idx'. split_and!; try done.
      * apply Hmem. split; [done|]. intros (k & Heq & _).
        assert (0 ≤ idx') by (apply Hrange; by right).
        assert (0 ≤ idx) by (apply Hrange; by left).
        apply Hnotin. by replace idx with idx' by lia.
      * by rewrite (evict_cond_view t c _ _ (Hview a)).
Qed.

Lemma evict_cond_evictable (now_us user_clock : Z) (node : Node.t) :
  evict_cond now_us user_clock node = true ↔ evictable now_us user_clock node.
Proof.
  unfold evict_cond, evictable, evict_threshold_us, evict_threshold_user_clocks.
  rewrite !andb_true_iff, negb_true_iff, !Z.eqb_eq, !Z.leb_le, Z.eqb_neq.
  change (10 * 1000000) with 10000000. tauto.
Qed.

Lemma swept_sweep (w w' : World) (u : unit) :
  table_wf w →
  dasm_evictor_detector_thread__sweep w = Ret u w' →
  swept (λ i k a, ∃ idx, 0 ≤ idx < slots_count (dasm_shared w) ∧ i = Z.to_nat idx ∧
                  k = Z.to_nat (idx mod stripes_count (dasm_shared w)) ∧
                  a ∈ slot_list (slot_at (dasm_shared w) idx) ∧
                  evictable (os_clock (os_ticks w)) (user_clock_idx (dasm_shared w))
                    (node_at (node_mem w) a)) w w'.
Proof.
  intros Hwf.
  unfold dasm_evictor_detector_thread__sweep, dasm_user_clock_idx, mbind, M_mbind, M_bind,
    fs_change_gen, os_now_microseconds, get_shared, mret, M_mret, M_ret.
  cbn [dasm_shared].
  set (wt := mkWorld _ _ _ _ _ _ _). intros Hrun.
  apply swept_slots in Hrun; [|done|apply NoDup_seqZ|].
  2:{ intros idx Hin. apply elem_of_seqZ in Hin. simpl. lia. }
  destruct Hrun as (?&?&?&?&?&Hs&Hf&Hr). unfold swept. split_and!; try done.
  - intros i a. rewrite Hs. unfold slot_nodes, slot_at. simpl.
    setoid_rewrite elem_of_seqZ. setoid_rewrite evict_cond_evictable.
    split; intros [Ha Hn]; (split; [done|]); intros (k & idx & ? & -> & ?);
      apply Hn; exists k, idx; split_and?; try tauto; lia.
  - intros k a. rewrite Hf. unfold slot_nodes, slot_at. simpl.
    setoid_rewrite elem_of_seqZ. setoid_rewrite evict_cond_evictable.
    split; (intros [Ha|(i & idx & ? & -> & ?)]; [by left|right]);
      exists (Z.to_nat idx), idx; split_and?; try tauto; lia.
  - intros x. rewrite Hr. unfold slot_nodes, slot_at. simpl.
    setoid_rewrite elem_of_seqZ. setoid_rewrite evict_cond_evictable.
    split; (intros [Ha|(i & k & a & (idx & ? & -> & ?) & ?)]; [by left|right]);
      exists (Z.to_nat idx), k, a; (split; [|done]); exists idx;
      split_and?; try tauto; lia.
Qed.

(** ** The sweep that is suspended *)

Lemma swept_within_exact (E : nat → nat → Z → Prop) (w w' : World) :
  swept E w w' → swept_within E w w'.
Proof. intros Hsw. by exists E. Qed.

Lemma swept_within_mono (E F : nat → nat → Z → Prop) (w w' : World) :
  (∀ i k a, E i k a → F i k a) → swept_within E w w' → swept_within F w w'.
Proof. intros Hsub (E' & HE & Hsw). exists E'. split; [|done]. naive_solver. Qed.

Lemma swept_within_trans (E1 E2 F : nat → nat → Z → Prop) (w w1 w2 : World) :
  swept_within E1 w w1 → swept_within E2 w1 w2 →
  (∀ i k a, E1 i k a ∨ E2 i k a → F i k a) →
  swept_within F w w2.
Proof.
  intros (E1' & H1 & Hsw1) (E2' & H2 & Hsw2) Hsub.
  exists (λ i k a, E1' i k a ∨ E2' i k a). split; [|by eapply swept_trans].
  naive_solver.
Qed.

(** What a sweep has not evicted stays, and what it has released was the
    arena of a node it has evicted. *)
Lemma swept_within_safe (E : nat → nat → Z → Prop) (w w' : World) :
  swept_within E w w' →
  (∀ m, node_evict_view (node_at (node_mem w') m)
        = node_evict_view (node_at (node_mem w) m)) ∧
  (∀ i a, a ∈ slot_nodes w' i → a ∈ slot_nodes w i) ∧
  (∀ i a, a ∈ slot_nodes w i → (¬ ∃ k, E i k a) → a ∈ slot_nodes w' i) ∧
  (∀ k a, a ∈ stripe_free w' k → a ∈ stripe_free w k ∨ ∃ i, E i k a) ∧
  (∀ x, x ∈ released_arenas (os_trace w') →
        x ∈ released_arenas (os_trace w) ∨
        ∃ i k a, E i k a ∧ Node.info_arena (node_at (node_mem w) a) = x ∧ x ≠ 0).
Proof.
  intros (E' & HE & (_ & _ & _ & _ & Hview & Hs & Hf & Hr)). split_and!.
  - done.
  - intros i a Ha. by apply Hs in Ha as [Ha _].
  - intros i a Ha Hnot. apply Hs. split; [done|]. intros (k & Hk). apply Hnot.
    exists k. by apply HE.
  - intros k a Ha. apply Hf in Ha as [Ha|(i & Hi)]; [by left|right].
    exists i. by apply HE.
  - intros x Hx. apply Hr in Hx as [Hx|(i & k & a & Ha & Hx)]; [by left|right].
    exists i, k, a. split; [by apply HE|done].
Qed.

Lemma enqueue_Blocked_inv (hash : U128) (params : Params.t) (endt_us : Z)
    (w w' : World) :
  dasm_u2p_enqueue_req hash params endt_us w = Blocked w' →
  let s := dasm_shared w in
  wrap64 (u2p_ring_size s - wrap64 (u2p_ring_write_pos s - u2p_ring_read_pos s))
  < wrap64 (u2p_req_fixed_size + str8_size (DI_Key.path (Params.dbgi_key params))) ∧
  os_clock (os_ticks w) < endt_us ∧
  w' = mkWorld s (node_mem w) (scope_mem w) (alloc_top w) (fs_gen w) (S (os_ticks w))
         (os_trace w
          ++ [Ev_condition_variable_wait (u2p_ring_cv s) (u2p_ring_mutex s) endt_us]).
Proof.
  unfold dasm_u2p_enqueue_req.
  rewrite (M_bind_run get_shared _ w w (dasm_shared w)) by done.
  destruct (Z.geb_spec
              (wrap64 (u2p_ring_size (dasm_shared w)
                       - wrap64 (u2p_ring_write_pos (dasm_shared w)
                                 - u2p_ring_read_pos (dasm_shared w))))
              (wrap64 (u2p_req_fixed_size
                       + str8_size (DI_Key.path (Params.dbgi_key params)))))
    as [Hroom|Hfull].
  - intros Hrun. exfalso.
    repeat (apply bind_Blocked_inv in Hrun as [Hrun|(? & ? & _ & Hrun)];
            [discriminate Hrun|]).
    discriminate Hrun.
  - unfold os_now_microseconds at 1.
    unfold mbind, M_mbind, M_bind.
    destruct (Z.geb_spec (os_clock (os_ticks w)) endt_us) as [Hlate|Hearly];
      [discriminate|].
    unfold os_condition_variable_wait, os_emit, block, mbind, M_mbind, M_bind.
    intros [= <-]. cbv zeta. split_and!; [lia|lia|done].
Qed.

Lemma retry_Blocked_inv (g t c n : Z) (w w' : World) :
  dasm_evictor_detector_retry g t c n w = Blocked w' →
  unswept w w' ∧ waits_in_re_request g t c w'.
Proof.
  unfold dasm_evictor_detector_retry.
  rewrite (M_bind_run (load_node n) _ w w (node_at (node_mem w) n)) by done.
  destruct (retry_cond g t c (node_at (node_mem w) n)) eqn:Hdue; [|discriminate].
  intros Hrun. apply bind_Blocked_inv in Hrun as [Hrun|(good & w1 & _ & Hrun)].
  - apply enqueue_Blocked_inv in Hrun as (Hfull & _ & ->). split.
    + unfold unswept, swept, slot_nodes, stripe_free, released_arenas.
      cbn [dasm_shared node_mem os_trace]. rewrite omap_app. cbn [omap].
      rewrite app_nil_r. split_and!; try done; naive_solver.
    + unfold waits_in_re_request. cbn [dasm_shared node_mem os_trace]. split.
      * by rewrite last_snoc.
      * exists n. by rewrite Hdue.
  - exfalso. destruct good; [|discriminate Hrun].
    repeat (apply bind_Blocked_inv in Hrun as [Hrun|(? & ? & _ & Hrun)];
            [discriminate Hrun|]).
    discriminate Hrun.
Qed.

Lemma evict_returns (slot_idx stripe_idx t c n : Z) (w : World) :
  ∃ w', dasm_evictor_detector_evict slot_idx stripe_idx t c n w = Ret tt w' ∧
        node_mem w' = node_mem w.
Proof.
  unfold dasm_evictor_detector_evict, mbind, M_mbind, M_bind, load_node.
  destruct (evict_cond t c (node_at (node_mem w) n)); [|by eexists].
  unfold modify_slot, modify_stripe, modify_shared, arena_release, os_emit.
  destruct (negb _); by eexists.
Qed.

Lemma swept_visit_reach (slot_idx stripe_idx g t c n : Z) (w : World) :
  (Z.to_nat slot_idx < length (slots (dasm_shared w)))%nat →
  (Z.to_nat stripe_idx < length (stripes (dasm_shared w)))%nat →
  swept_within
    (λ i k a, i = Z.to_nat slot_idx ∧ k = Z.to_nat stripe_idx ∧ a = n ∧
              evict_cond t c (node_at (node_mem w) n) = true)
    w (res_world (dasm_evictor_detector_visit slot_idx stripe_idx g t c n w)).
Proof.
  intros Hslot Hstripe.
  destruct (dasm_evictor_detector_visit slot_idx stripe_idx g t c n w) as [[] w'|w']
    eqn:Hrun; cbn [res_world].
  - apply swept_within_exact. by eapply swept_visit.
  - unfold dasm_evictor_detector_visit in Hrun.
    destruct (evict_returns slot_idx stripe_idx t c n w) as (w1 & Hevict & _).
    rewrite (M_bind_run _ _ _ _ _ Hevict) in Hrun.
    apply swept_evict in Hevict; [|done..].
    apply retry_Blocked_inv in Hrun as [Hretry _].
    eapply swept_within_trans;
      [by apply swept_within_exact|by apply swept_within_exact|naive_solver].
Qed.

Lemma visit_Blocked_waits (slot_idx stripe_idx g t c n : Z) (w w' : World) :
  dasm_evictor_detector_visit slot_idx stripe_idx g t c n w = Blocked w' →
  waits_in_re_request g t c w'.
Proof.
  unfold dasm_evictor_detector_visit. intros Hrun.
  destruct (evict_returns slot_idx stripe_idx t c n w) as (w1 & Hevict & _).
  rewrite (M_bind_run _ _ _ _ _ Hevict) in Hrun.
  by apply retry_Blocked_inv in Hrun as [_ Hwaits].
Qed.

Lemma swept_walk_reach (slot_idx stripe_idx g t c : Z) (ns : list Z) :
  ∀ w : World,
    (Z.to_nat slot_idx < length (slots (dasm_shared w)))%nat →
    (Z.to_nat stripe_idx < length (stripes (dasm_shared w)))%nat →
    swept_within
      (λ i k a, i = Z.to_nat slot_idx ∧ k = Z.to_nat stripe_idx ∧ a ∈ ns ∧
                evict_cond t c (node_at (node_mem w) a) = true)
      w (res_world (dasm_evictor_detector_walk slot_idx stripe_idx g t c ns w)).
Proof.
  induction ns as [|n next IH]; intros w Hslot Hstripe;
    cbn [dasm_evictor_detector_walk].
  - cbn [res_world]. exists (λ _ _ _, False). split; [done|apply swept_refl].
  - pose proof (swept_visit_reach slot_idx stripe_idx g t c n w Hslot Hstripe) as Hvisit.
    destruct (dasm_evictor_detector_visit slot_idx stripe_idx g t c n w) as [[] w1|w1]
      eqn:Hrun; cbn [res_world] in Hvisit.
    + rewrite (M_bind_run _ _ _ _ _ Hrun).
      pose proof Hvisit as (E' & _ & (_ & _ & Hls & Hlf & Hview & _)).
      specialize (IH w1). eapply swept_within_trans; [exact Hvisit|apply IH; congruence|].
      intros i k a. rewrite elem_of_cons.
      rewrite (evict_cond_view t c _ _ (Hview a)). naive_solver.
    + rewrite (M_bind_blocked _ _ _ _ Hrun). cbn [res_world].
      eapply swept_within_mono; [|exact Hvisit]. intros i k a. rewrite elem_of_cons.
      naive_solver.
Qed.

Lemma walk_Blocked_waits (slot_idx stripe_idx g t c : Z) (ns : list Z) :
  ∀ w w' : World,
    dasm_evictor_detector_walk slot_idx stripe_idx g t c ns w = Blocked w' →
    waits_in_re_request g t c w'.
Proof.
  induction ns as [|n next IH]; intros w w' Hrun;
    cbn [dasm_evictor_detector_walk] in Hrun; [discriminate Hrun|].
  apply bind_Blocked_inv in Hrun as [Hrun|([] & w1 & _ & Hrun)].
  - by eapply visit_Blocked_waits.
  - by eapply IH.
Qed.

Lemma swept_slot_reach (g t c slot_idx : Z) (w : World) :
  table_wf w →
  0 ≤ slot_idx < slots_count (dasm_shared w) →
  swept_within
    (λ i k a, i = Z.to_nat slot_idx ∧
              k = Z.to_nat (slot_idx mod stripes_count (dasm_shared w)) ∧
              a ∈ slot_nodes w i ∧
              evict_cond t c (node_at (node_mem w) a) = true)
    w (res_world (dasm_evictor_detector_slot g t c slot_idx w)).
Proof.
  intros (Hls & Hlf & Hpos) Hidx.
  unfold dasm_evictor_detector_slot, mbind, M_mbind, M_bind, get_shared, get_node_mem.
  destruct (slot_first _ _ _) eqn:Hfirst.
  - eapply swept_within_mono; [|apply swept_walk_reach].
    + unfold slot_nodes, slot_at. naive_solver.
    + lia.
    + pose proof (Z.mod_pos_bound slot_idx _ Hpos). lia.
  - cbn [res_world]. exists (λ _ _ _, False). split; [done|apply swept_refl].
Qed.

Lemma slot_Blocked_waits (g t c slot_idx : Z) (w w' : World) :
  dasm_evictor_detector_slot g t c slot_idx w = Blocked w' →
  waits_in_re_request g t c w'.
Proof.
  unfold dasm_evictor_detector_slot, mbind, M_mbind, M_bind, get_shared, get_node_mem.
  destruct (slot_first _ _ _); [|discriminate]. apply walk_Blocked_waits.
Qed.

Lemma swept_slots_reach (g t c : Z) (slot_idxs : list Z) :
  ∀ w : World,
    table_wf w →
    (∀ idx, idx ∈ slot_idxs → 0 ≤ idx < slots_count (dasm_shared w)) →
    swept_within
      (λ i k a, ∃ idx, idx ∈ slot_idxs ∧ i = Z.to_nat idx ∧
                k = Z.to_nat (idx mod stripes_count (dasm_shared w)) ∧
                a ∈ slot_nodes w i ∧
                evict_cond t c (node_at (node_mem w) a) = true)
      w (res_world (dasm_evictor_detector_slots g t c slot_idxs w)).
Proof.
  induction slot_idxs as [|idx rest IH]; intros w Hwf Hrange;
    cbn [dasm_evictor_detector_slots].
  - cbn [res_world]. exists (λ _ _ _, False). split; [done|apply swept_refl].
  - assert (0 ≤ idx < slots_count (dasm_shared w)) as Hidx by (apply Hrange; by left).
    pose proof (swept_slot_reach g t c idx w Hwf Hidx) as Hslot.
    destruct (dasm_evictor_detector_slot g t c idx w) as [[] w1|w1] eqn:Hrun;
      cbn [res_world] in Hslot.
    + rewrite (M_bind_run _ _ _ _ _ Hrun).
      pose proof Hslot as (E' & _ & Hsw).
      pose proof Hsw as (Hsc & Hkc & _ & _ & Hview & Hmem & _).
      eapply swept_within_trans; [exact Hslot|apply (IH w1)|].
      * by eapply swept_table_wf.
      * intros idx' Hin. rewrite Hsc. apply Hrange. by right.
      * intros i k a. rewrite Hkc.
        intros [(-> & -> & Ha & Hev)|(idx' & Hin & -> & -> & Ha & Hev)].
        -- exists idx. split_and!; try done. by left.
        -- exists idx'. split_and!; try done.
           ++ by right.
           ++ by apply Hmem in Ha as [Ha _].
           ++ by rewrite <-(evict_cond_view t c _ _ (Hview a)).
    + rewrite (M_bind_blocked _ _ _ _ Hrun). cbn [res_world].
      eapply swept_within_mono; [|exact Hslot].
      intros i k a (-> & -> & Ha & Hev). exists idx. split_and!; try done. by left.
Qed.

Lemma slots_Blocked_waits (g t c : Z) (slot_idxs : list Z) :
  ∀ w w' : World,
    dasm_evictor_detector_slots g t c slot_idxs w = Blocked w' →
    waits_in_re_request g t c w'.
Proof.
  induction slot_idxs as [|idx rest IH]; intros w w' Hrun;
    cbn [dasm_evictor_detector_slots] in Hrun; [discriminate Hrun|].
  apply bind_Blocked_inv in Hrun as [Hrun|([] & w1 & _ & Hrun)].
  - by eapply slot_Blocked_waits.
  - by eapply IH.
Qed.

(** Whether the sweep returns or is suspended, it has evicted only nodes
    that satisfy the five conditions. *)
Lemma swept_sweep_reach (w : World) :
  table_wf w →
  swept_within
    (λ i k a, ∃ idx, 0 ≤ idx < slots_count (dasm_shared w) ∧ i = Z.to_nat idx ∧
              k = Z.to_nat (idx mod stripes_count (dasm_shared w)) ∧
              a ∈ slot_list (slot_at (dasm_shared w) idx) ∧
              evictable (os_clock (os_ticks w)) (user_clock_idx (dasm_shared w))
                (node_at (node_mem w) a))
    w (res_world (dasm_evictor_detector_thread__sweep w)).
Proof.
  intros Hwf.
  unfold dasm_evictor_detector_thread__sweep, dasm_user_clock_idx, mbind, M_mbind, M_bind,
    fs_change_gen, os_now_microseconds, get_shared, mret, M_mret, M_ret.
  cbn [dasm_shared].
  set (wt := mkWorld _ _ _ _ _ _ _).
  pose proof (swept_slots_reach (fs_gen w) (os_clock (os_ticks w))
                (user_clock_idx (dasm_shared w)) (seqZ 0 (slots_count (dasm_shared w)))
                wt Hwf) as (E' & HE & Hsw).
  { intros idx Hin. apply elem_of_seqZ in Hin. simpl. lia. }
  exists E'. split.
  - intros i k a Ha. apply HE in Ha as (idx & Hin & -> & -> & Ha & Hev).
    apply elem_of_seqZ in Hin. apply evict_cond_evictable in Hev.
    exists idx. split_and!; [lia|lia|done..].
  - destruct Hsw as (?&?&?&?&?&Hs&Hf&Hr). unfold swept. by split_and!.
Qed.

Lemma sweep_Blocked_waits (w w' : World) :
  dasm_evictor_detector_thread__sweep w = Blocked w' →
  waits_in_re_request (fs_gen w) (os_clock (os_ticks w))
    (user_clock_idx (dasm_shared w)) w'.
Proof.
  unfold dasm_evictor_detector_thread__sweep, dasm_user_clock_idx, mbind, M_mbind, M_bind,
    fs_change_gen, os_now_microseconds, get_shared, mret, M_mret, M_ret.
  cbn [dasm_shared]. apply slots_Blocked_waits.
Qed.

(** ** The sweep in which no node is due for a re-request *)

Lemma walk_returns_without_due (slot_idx stripe_idx g t c : Z) (ns : list Z) :
  ∀ w : World,
    (∀ m, retry_cond g t c (node_at (node_mem w) m) = false) →
    ∃ w', dasm_evictor_detector_walk slot_idx stripe_idx g t c ns w = Ret tt w' ∧
          node_mem w' = node_mem w.
Proof.
  induction ns as [|n next IH]; intros w Hidle; cbn [dasm_evictor_detector_walk].
  - by exists w.
  - destruct (evict_returns slot_idx stripe_idx t c n w) as (w1 & Hevict & Hmem1).
    assert (dasm_evictor_detector_visit slot_idx stripe_idx g t c n w = Ret tt w1)
      as Hvisit.
    { unfold dasm_evictor_detector_visit. rewrite (M_bind_run _ _ _ _ _ Hevict).
      unfold dasm_evictor_detector_retry.
      rewrite (M_bind_run (load_node n) _ w1 w1 (node_at (node_mem w1) n)) by done.
      by rewrite Hmem1, Hidle. }
    rewrite (M_bind_run _ _ _ _ _ Hvisit).
    destruct (IH w1) as (w' & Hrun & Hmem); [by rewrite Hmem1|].
    exists w'. split; [done|congruence].
Qed.

Lemma slots_return_without_due (g t c : Z) (slot_idxs : list Z) :
  ∀ w : World,
    (∀ m, retry_cond g t c (node_at (node_mem w) m) = false) →
    ∃ w', dasm_evictor_detector_slots g t c slot_idxs w = Ret tt w' ∧
          node_mem w' = node_mem w.
Proof.
  induction slot_idxs as [|idx rest IH]; intros w Hidle;
    cbn [dasm_evictor_detector_slots].
  - by exists w.
  - assert (∃ w1, dasm_evictor_detector_slot g t c idx w = Ret tt w1 ∧
                  node_mem w1 = node_mem w) as (w1 & Hslot & Hmem1).
    { unfold dasm_evictor_detector_slot.
      rewrite (M_bind_run get_shared _ w w (dasm_shared w)) by done. cbv zeta.
      rewrite (M_bind_run get_node_mem _ w w (node_mem w)) by done.
      destruct (slot_first _ _ _); [|by exists w].
      rewrite (M_bind_run get_shared _ w w (dasm_shared w)) by done.
      by apply walk_returns_without_due. }
    rewrite (M_bind_run _ _ _ _ _ Hslot).
    destruct (IH w1) as (w' & Hrun & Hmem); [by rewrite Hmem1|].
    exists w'. split; [done|congruence].
Qed.

Lemma sweep_returns_without_due (w : World) :
  (∀ m, retry_cond (fs_gen w) (os_clock (os_ticks w)) (user_clock_idx (dasm_shared w))
          (node_at (node_mem w) m) = false) →
  ∃ w', dasm_evictor_detector_thread__sweep w = Ret tt w'.
Proof.
  intros Hidle.
  unfold dasm_evictor_detector_thread__sweep, dasm_user_clock_idx, mbind, M_mbind, M_bind,
    fs_change_gen, os_now_microseconds, get_shared, mret, M_mret, M_ret.
  cbn [dasm_shared].
  destruct (slots_return_without_due (fs_gen w) (os_clock (os_ticks w))
              (user_clock_idx (dasm_shared w)) (seqZ 0 (slots_count (dasm_shared w)))
              (mkWorld (dasm_shared w) (node_mem w) (scope_mem w) (alloc_top w) (fs_gen w)
                 (S (os_ticks w)) (os_trace w)) Hidle) as (w' & Hrun & _).
  by exists w'.
Qed.

(** C3. A sweep of the evictor, which snapshots the time [now_us] and the
    user clock [user_clock], either returns or is suspended in a
    re-request that waits for room on the ring; it returns whenever no
    node is due for a re-request.  When it returns, a node of a slot is
    unlinked from the slot's list, its info arena released and the node
    pushed on the free list of the slot's stripe exactly when it satisfies
    the five conditions: no scope refers to it, it was last touched at
    least 10_000_000 us and at least 10 user clocks ago (in 64-bit
    arithmetic), it has been loaded, and no worker is working on it.
    Returned or suspended, a node that fails one condition stays linked
    and is not pushed, and no arena is released but those of nodes that
    satisfy the five conditions. *)
Theorem C3_sweep_evicts_exactly_the_idle_nodes (w : World) (slot_idx n : Z) :
  table_wf w →
  0 ≤ slot_idx < slots_count (dasm_shared w) →
  n ∈ slot_list (slot_at (dasm_shared w) slot_idx) →
  let now_us := os_clock (os_ticks w) in
  let user_clock := user_clock_idx (dasm_shared w) in
  let node := node_at (node_mem w) n in
  let stripe_idx := slot_idx mod stripes_count (dasm_shared w) in
  let w' := res_world (dasm_evictor_detector_thread__sweep w) in
  (dasm_evictor_detector_thread__sweep w = Ret tt w' ∧
   (evictable now_us user_clock node →
      (n ∉ slot_list (slot_at (dasm_shared w') slot_idx)) ∧
      n ∈ free_node (stripe_at (dasm_shared w') stripe_idx) ∧
      (Node.info_arena node ≠ 0 →
       Node.info_arena node ∈ released_arenas (os_trace w'))) ∨
   dasm_evictor_detector_thread__sweep w = Blocked w' ∧
   waits_in_re_request (fs_gen w) now_us user_clock w') ∧
  ((∀ m, retry_cond (fs_gen w) now_us user_clock (node_at (node_mem w) m) = false) →
   dasm_evictor_detector_thread__sweep w = Ret tt w') ∧
  (¬ evictable now_us user_clock node →
     n ∈ slot_list (slot_at (dasm_shared w') slot_idx) ∧
     (n ∈ free_node (stripe_at (dasm_shared w') stripe_idx) →
      n ∈ free_node (stripe_at (dasm_shared w) stripe_idx))) ∧
  (∀ arena, arena ∈ released_arenas (os_trace w') →
     arena ∈ released_arenas (os_trace w) ∨
     ∃ idx m, 0 ≤ idx < slots_count (dasm_shared w) ∧
              m ∈ slot_list (slot_at (dasm_shared w) idx) ∧
              evictable now_us user_clock (node_at (node_mem w) m) ∧
              Node.info_arena (node_at (node_mem w) m) = arena).
Proof.
  intros Hwf Hidx Hn now_us user_clock node stripe_idx w'.
  pose proof (swept_within_safe _ _ _ (swept_sweep_reach w Hwf))
    as (_ & _ & Hstay & Hfree & Hreleased).
  fold w' in Hstay, Hfree, Hreleased.
  specialize (Hstay (Z.to_nat slot_idx) n). specialize (Hfree (Z.to_nat stripe_idx) n).
  unfold slot_nodes, stripe_free in Hstay, Hfree.
  fold (slot_at (dasm_shared w') slot_idx) in Hstay.
  fold (slot_at (dasm_shared w) slot_idx) in Hstay.
  fold (stripe_at (dasm_shared w') stripe_idx) in Hfree.
  fold (stripe_at (dasm_shared w) stripe_idx) in Hfree.
  split_and!.
  - destruct (dasm_evictor_detector_thread__sweep w) as [[] w1|w1] eqn:Hrun.
    + left. split; [done|]. intros Hev.
      pose proof (swept_sweep w w1 tt Hwf Hrun) as (_&_&_&_&_&Hs&Hf&Hr).
      specialize (Hs (Z.to_nat slot_idx) n). specialize (Hf (Z.to_nat stripe_idx) n).
      unfold slot_nodes, stripe_free in Hs, Hf. subst w'. cbn [res_world].
      fold (slot_at (dasm_shared w1) slot_idx) in Hs.
      fold (slot_at (dasm_shared w) slot_idx) in Hs.
      fold (stripe_at (dasm_shared w1) stripe_idx) in Hf.
      fold (stripe_at (dasm_shared w) stripe_idx) in Hf.
      split_and!.
      * rewrite Hs. intros [_ Hnot]. apply Hnot.
        exists (Z.to_nat stripe_idx), slot_idx. split_and!; first [done|lia].
      * apply Hf. right. exists (Z.to_nat slot_idx), slot_idx.
        split_and!; first [done|lia].
      * intros Hnz. apply Hr. right.
        exists (Z.to_nat slot_idx), (Z.to_nat stripe_idx), n. split; [|done].
        exists slot_idx. split_and!; first [done|lia].
    + right. split; [done|]. by apply sweep_Blocked_waits.
  - intros Hidle. destruct (sweep_returns_without_due w Hidle) as (w1 & Hrun).
    subst w'. by rewrite Hrun.
  - intros Hnev. split.
    + apply Hstay; [done|]. by intros (k & idx & _ & _ & _ & _ & Hev).
    + intros Hin. apply Hfree in Hin as [Hin|(i & idx & _ & _ & _ & _ & Hev)]; done.
  - intros arena Hin.
    apply Hreleased in Hin as [Hin|(i & k & m & (idx & ? & _ & _ & ? & ?) & ? & _)].
    + by left.
    + right. by exists idx, m.
Qed.

(** ** Little-endian bytes *)

Lemma Z_of_byte_of_Z (z : Z) : Z_of_byte (byte_of_Z z) = z mod 256.
Proof.
  unfold Z_of_byte, byte_of_Z.
  assert (0 ≤ z mod 256 < 256) as Hrange by (apply Z.mod_pos_bound; lia).
  destruct (Byte.of_N (Z.to_N (z mod 256))) as [b|] eqn:Hb.
  - apply Byte.to_of_N in Hb. rewrite Hb. lia.
  - apply Byte.of_N_None_iff in Hb. lia.
Qed.

Lemma length_le_bytes (n : nat) (z : Z) : length (le_bytes n z) = n.
Proof. revert z. induction n as [|n IH]; intros z; simpl; [done|]. by rewrite IH. Qed.

Lemma le_value_le_bytes (n : nat) (z : Z) :
  0 ≤ z < 256 ^ Z.of_nat n → le_value (le_bytes n z) = z.
Proof.
  revert z. induction n as [|n IH]; intros z Hz.
  - simpl in *. lia.
  - cbn [le_bytes le_value]. rewrite Z_of_byte_of_Z.
    rewrite Nat2Z.inj_succ, Z.pow_succ_r in Hz by lia.
    rewrite IH.
    + pose proof (Z.div_mod z 256). lia.
    + split; [apply Z.div_pos; lia|apply Z.div_lt_upper_bound; lia].
Qed.

Lemma U128_of_bytes_U128_bytes (h : U128) :
  0 ≤ u64_0 h < 2 ^ 64 → 0 ≤ u64_1 h < 2 ^ 64 →
  U128_of_bytes (U128_bytes h) = h.
Proof.
  intros H0 H1. destruct h as [a b]. unfold U128_of_bytes, U128_bytes. cbn [u64_0 u64_1] in *.
  rewrite take_app_length' by (by rewrite length_le_bytes).
  rewrite drop_app_length' by (by rewrite length_le_bytes).
  rewrite take_ge by (rewrite length_le_bytes; lia).
  by rewrite !le_value_le_bytes by (change (256 ^ Z.of_nat 8) with (2 ^ 64); lia).
Qed.

(** ** Ring memory *)

Lemma ring_offsets_differ (size p d : Z) :
  0 < d < size → (p + d) mod size ≠ p mod size.
Proof.
  intros Hd Heq.
  assert ((p + d - p) mod size = 0) as Hzero.
  { rewrite Zminus_mod, Heq, Z.sub_diag. apply Z.mod_0_l. lia. }
  replace (p + d - p) with d in Hzero by lia.
  rewrite Z.mod_small in Hzero; lia.
Qed.

Lemma ring_write_bytes_lookup_other (b : ring_mem) (size p o : Z) (bs : list byte) :
  (∀ i, 0 ≤ i < str8_size bs → (p + i) mod size ≠ o) →
  ring_write_bytes b size p bs !! o = b !! o.
Proof.
  revert b p. induction bs as [|x bs IH]; intros b p Hother; [done|].
  cbn [ring_write_bytes]. unfold str8_size in *. cbn [length] in Hother.
  rewrite IH.
  - apply lookup_insert_ne. specialize (Hother 0). rewrite Z.add_0_r in Hother.
    apply Hother. lia.
  - intros i Hi. replace (p + 1 + i) with (p + (1 + i)) by lia. apply Hother. lia.
Qed.

Lemma ring_write_bytes_lookup (b : ring_mem) (size p : Z) (bs : list byte) (i : nat) (x : byte) :
  0 < size → str8_size bs ≤ size → bs !! i = Some x →
  ring_write_bytes b size p bs !! ((p + Z.of_nat i) mod size) = Some x.
Proof.
  intros Hsize. revert b p i. induction bs as [|y bs IH]; intros b p i Hlen Hi; [done|].
  unfold str8_size in *. cbn [length] in Hlen. cbn [ring_write_bytes].
  destruct i as [|i].
  - injection Hi as ->. rewrite Z.add_0_r. rewrite ring_write_bytes_lookup_other.
    + apply lookup_insert_eq.
    + intros j Hj. unfold str8_size in Hj. replace (p + 1 + j) with (p + (1 + j)) by lia.
      apply ring_offsets_differ. lia.
  - replace (p + Z.of_nat (S i)) with (p + 1 + Z.of_nat i) by lia.
    apply IH; [lia|done].
Qed.

Lemma length_ring_read_bytes (b : ring_mem) (size q : Z) (n : nat) :
  length (ring_read_bytes b size q n) = n.
Proof. revert q. induction n as [|n IH]; intros q; simpl; [done|]. by rewrite IH. Qed.

Lemma ring_read_bytes_lookup (b : ring_mem) (size q : Z) (n i : nat) :
  (i < n)%nat →
  ring_read_bytes b size q n !! i
  = Some (default Byte.x00 (b !! ((q + Z.of_nat i) mod size))).
Proof.
  revert q i. induction n as [|n IH]; intros q i Hi; [lia|].
  cbn [ring_read_bytes]. destruct i as [|i].
  - by rewrite Z.add_0_r.
  - cbn [lookup list_lookup]. rewrite IH by lia. do 4 f_equal. lia.
Qed.

(** Reading back a field of a record that was written in one piece. *)
Lemma ring_read_written (b : ring_mem) (size p q : Z) (pre field post : list byte) :
  0 < size →
  str8_size (pre ++ field ++ post) ≤ size →
  q mod size = (p + str8_size pre) mod size →
  ring_read_bytes (ring_write_bytes b size p (pre ++ field ++ post)) size q
    (length field) = field.
Proof.
  intros Hsize Hlen Hq. apply list_eq. intros i.
  destruct (decide (i < length field)%nat) as [Hi|Hi].
  - rewrite ring_read_bytes_lookup by done.
    destruct (lookup_lt_is_Some_2 field i Hi) as [x Hx]. rewrite Hx. f_equal.
    replace ((q + Z.of_nat i) mod size)
      with ((p + Z.of_nat (length pre + i)) mod size).
    + erewrite ring_write_bytes_lookup; [done|done|done|].
      rewrite lookup_app_r by lia. rewrite lookup_app_l by lia.
      rewrite <-Hx. f_equal. lia.
    + rewrite <-(Zplus_mod_idemp_l q), Hq, Zplus_mod_idemp_l. unfold str8_size.
      f_equal. lia.
  - rewrite !lookup_ge_None_2; [done|lia|rewrite length_ring_read_bytes; lia].
Qed.

(** ** Running the ring operations *)

Lemma wrap64_add_l (a b : Z) : wrap64 (wrap64 a + b) = wrap64 (a + b).
Proof. unfold wrap64. apply Zplus_mod_idemp_l. Qed.

Lemma wrap64_mod_divide (size a : Z) :
  (size | 2 ^ 64) → wrap64 a mod size = a mod size.
Proof. intros Hdiv. unfold wrap64. by apply Z.mod_mod_divide. Qed.

Lemma str8_size_app (a b : list byte) : str8_size (a ++ b) = str8_size a + str8_size b.
Proof. unfold str8_size. rewrite length_app. lia. Qed.

Lemma ring_write_bytes_pos_mod (b : ring_mem) (size p q : Z) (bs : list byte) :
  p mod size = q mod size →
  ring_write_bytes b size p bs = ring_write_bytes b size q bs.
Proof.
  revert b p q. induction bs as [|x bs IH]; intros b p q Hpq; [done|].
  cbn [ring_write_bytes]. rewrite Hpq. apply IH.
  by rewrite <-(Zplus_mod_idemp_l p), Hpq, Zplus_mod_idemp_l.
Qed.

Lemma ring_write_bytes_app (b : ring_mem) (size p : Z) (xs ys : list byte) :
  ring_write_bytes b size p (xs ++ ys)
  = ring_write_bytes (ring_write_bytes b size p xs) size (p + str8_size xs) ys.
Proof.
  revert b p. induction xs as [|x xs IH]; intros b p.
  - unfold str8_size. simpl. by rewrite Z.add_0_r.
  - cbn [app ring_write_bytes]. rewrite IH. unfold str8_size. cbn [length].
    f_equal. lia.
Qed.

Lemma u2p_ring_put_filled (w0 : World) (written src : list byte) :
  (u2p_ring_size (dasm_shared w0) | 2 ^ 64) →
  u2p_ring_put src (ring_filled w0 written) = Ret tt (ring_filled w0 (written ++ src)).
Proof.
  intros Hdiv. unfold u2p_ring_put, modify_shared, ring_filled, ring_world, ring_write.
  cbn [dasm_shared node_mem scope_mem alloc_top fs_gen os_ticks os_trace
       u2p_ring_base u2p_ring_size u2p_ring_write_pos u2p_ring_read_pos
       set_u2p_ring_write_pos set_u2p_ring_base slots_count stripes_count slots
       stripes u2p_ring_cv u2p_ring_mutex user_clock_idx].
  rewrite wrap64_add_l, str8_size_app, Z.add_assoc.
  rewrite (ring_write_bytes_app _ _ _ written src).
  rewrite (ring_write_bytes_pos_mod _ _
             (wrap64 (u2p_ring_write_pos (dasm_shared w0) + str8_size written))
             (u2p_ring_write_pos (dasm_shared w0) + str8_size written));
    [done|by apply wrap64_mod_divide].
Qed.

Lemma ring_filled_nil (w0 : World) :
  0 ≤ u2p_ring_write_pos (dasm_shared w0) < 2 ^ 64 → ring_filled w0 [] = w0.
Proof.
  intros Hpos. unfold ring_filled, ring_world. cbn [ring_write_bytes].
  unfold str8_size, wrap64. cbn [length]. rewrite Z.add_0_r, Z.mod_small by done.
  rewrite app_nil_r. by destruct w0 as [[] ? ? ? ? ? ?].
Qed.

(** The world an enqueue of the record [bytes] leaves behind. *)
Lemma enqueue_run (hash : U128) (params : Params.t) (endt_us : Z) (w : World) :
  let s := dasm_shared w in
  0 < u2p_ring_size s < 2 ^ 64 →
  (u2p_ring_size s | 2 ^ 64) →
  0 ≤ u2p_ring_write_pos s < 2 ^ 64 →
  u2p_ring_read_pos s = u2p_ring_write_pos s →
  0 ≤ u2p_req_fixed_size + str8_size (DI_Key.path (Params.dbgi_key params))
    ≤ u2p_ring_size s →
  dasm_u2p_enqueue_req hash params endt_us w
  = Ret true
      (ring_world w
         (ring_write_bytes (u2p_ring_base s) (u2p_ring_size s) (u2p_ring_write_pos s)
            (u2p_req_bytes hash params))
         (u2p_pad (wrap64 (u2p_ring_write_pos s + str8_size (u2p_req_bytes hash params))))
         (u2p_ring_read_pos s)
         [Ev_condition_variable_broadcast (u2p_ring_cv s)]).
Proof.
  intros s Hsize Hdiv Hwp Hsync Hfits.
  unfold dasm_u2p_enqueue_req.
  rewrite (M_bind_run get_shared _ w w (dasm_shared w)) by done. fold s.
  replace (wrap64 (u2p_ring_size s - wrap64 (u2p_ring_write_pos s - u2p_ring_read_pos s))
           >=? wrap64 (u2p_req_fixed_size
                       + str8_size (DI_Key.path (Params.dbgi_key params))))
    with true.
  2:{ symmetry. apply Z.geb_le. rewrite Hsync, Z.sub_diag. unfold wrap64.
      rewrite Z.mod_0_l, Z.sub_0_r, !Z.mod_small by lia. lia. }
  rewrite <-(ring_filled_nil w Hwp) at 1.
  repeat (erewrite M_bind_run by (by apply u2p_ring_put_filled)).
  unfold ring_filled, modify_shared, os_condition_variable_broadcast, os_emit,
    mbind, M_mbind, M_bind, mret, M_mret, M_ret, ring_world, u2p_pad.
  cbn [dasm_shared node_mem scope_mem alloc_top fs_gen os_ticks os_trace
       u2p_ring_base u2p_ring_size u2p_ring_write_pos u2p_ring_read_pos
       set_u2p_ring_write_pos set_u2p_ring_base slots_count stripes_count slots
       stripes u2p_ring_cv u2p_ring_mutex user_clock_idx app].
  rewrite app_nil_r. unfold u2p_req_bytes. cbn [app]. rewrite <-!app_assoc.
  reflexivity.
Qed.

Lemma str8_size_le_bytes (n : nat) (z : Z) : str8_size (le_bytes n z) = Z.of_nat n.
Proof. unfold str8_size. by rewrite length_le_bytes. Qed.

Lemma str8_size_u2p_req_bytes (hash : U128) (params : Params.t) :
  str8_size (u2p_req_bytes hash params)
  = u2p_req_fixed_size + str8_size (DI_Key.path (Params.dbgi_key params)).
Proof.
  unfold u2p_req_bytes, U128_bytes, u2p_req_fixed_size.
  rewrite !str8_size_app, !str8_size_le_bytes. lia.
Qed.

Lemma u2p_pad_advance (pos len : Z) :
  0 ≤ len → len + 7 < 2 ^ 64 →
  len ≤ wrap64 (u2p_pad (wrap64 (pos + len)) - pos) ≤ len + 7.
Proof.
  unfold u2p_pad, wrap64. change (2 ^ 64) with 18446744073709551616.
  intros Hlen Hmax. Z.div_mod_to_equations. lia.
Qed.

Lemma u2p_pad_aligned (pos : Z) : u2p_pad pos mod 8 = 0.
Proof.
  unfold u2p_pad, wrap64. change (2 ^ 64) with 18446744073709551616.
  Z.div_mod_to_equations. lia.
Qed.

Lemma u2p_ring_get_field (w0 : World) (b : ring_mem) (wp p n : Z)
    (tr : list OS_Event) (pre field post : list byte) :
  let size := u2p_ring_size (dasm_shared w0) in
  0 < size → (size | 2 ^ 64) →
  str8_size (pre ++ field ++ post) ≤ size →
  n = str8_size field →
  u2p_ring_get n
    (ring_world w0 (ring_write_bytes b size p (pre ++ field ++ post)) wp
       (wrap64 (p + str8_size pre)) tr)
  = Ret field
      (ring_world w0 (ring_write_bytes b size p (pre ++ field ++ post)) wp
         (wrap64 (p + str8_size (pre ++ field))) tr).
Proof.
  intros size Hsize Hdiv Hlen ->.
  unfold u2p_ring_get, modify_shared, get_shared, ring_world, ring_read,
    mbind, M_mbind, M_bind, mret, M_mret, M_ret.
  cbn [dasm_shared node_mem scope_mem alloc_top fs_gen os_ticks os_trace
       u2p_ring_base u2p_ring_size u2p_ring_write_pos u2p_ring_read_pos
       set_u2p_ring_read_pos slots_count stripes_count slots
       stripes u2p_ring_cv u2p_ring_mutex user_clock_idx].
  fold size.
  replace (Z.to_nat (str8_size field)) with (length field)
    by (unfold str8_size; lia).
  rewrite ring_read_written; [|done|done|by apply wrap64_mod_divide].
  by rewrite wrap64_add_l, str8_size_app, Z.add_assoc.
Qed.

(** The dequeue that follows the enqueue of a record on a synchronized
    ring. *)
Lemma dequeue_run (hash : U128) (params : Params.t) (w : World)
    (tr : list OS_Event) :
  let s := dasm_shared w in
  let p := u2p_ring_write_pos s in
  let bytes := u2p_req_bytes hash params in
  0 < u2p_ring_size s < 2 ^ 64 →
  (u2p_ring_size s | 2 ^ 64) →
  0 ≤ p < 2 ^ 64 →
  str8_size bytes ≤ u2p_ring_size s →
  u2p_req_wf hash params →
  dasm_u2p_dequeue_req
    (ring_world w (ring_write_bytes (u2p_ring_base s) (u2p_ring_size s) p bytes)
       (u2p_pad (wrap64 (p + str8_size bytes))) p tr)
  = Ret (hash, params)
      (ring_world w (ring_write_bytes (u2p_ring_base s) (u2p_ring_size s) p bytes)
         (u2p_pad (wrap64 (p + str8_size bytes)))
         (u2p_pad (wrap64 (p + str8_size bytes)))
         (tr ++ [Ev_condition_variable_broadcast (u2p_ring_mutex s)])).
Proof.
  intros s p bytes Hsize Hdiv Hp Hfits (Hh0 & Hh1 & Hvaddr & Harch & Hflags & Hsyntax & Hbase & Hts).
  assert (0 ≤ str8_size (DI_Key.path (Params.dbgi_key params))) as Hpath0
    by (unfold str8_size; lia).
  assert (0 ≤ u2p_req_fixed_size ≤ str8_size bytes) as Hfixed.
  { unfold bytes. rewrite str8_size_u2p_req_bytes. unfold u2p_req_fixed_size. lia. }
  assert (u2p_ring_size s ≤ 2 ^ 63) as Hhalf.
  { destruct Hdiv as [k Hk]. change (2 ^ 64) with 18446744073709551616 in *.
    change (2 ^ 63) with 9223372036854775808.
    assert (k ≤ 0 ∨ k = 1 ∨ 2 ≤ k) as [Hk0|[Hk1|Hk2]] by lia; nia. }
  assert (0 ≤ str8_size (DI_Key.path (Params.dbgi_key params)) < 2 ^ 64) as Hpath.
  { pose proof Hfits as Hfits'. unfold bytes in Hfits'.
    rewrite str8_size_u2p_req_bytes in Hfits'. unfold u2p_req_fixed_size in Hfits'.
    change (2 ^ 63) with 9223372036854775808 in Hhalf.
    change (2 ^ 64) with 18446744073709551616. lia. }
  unfold dasm_u2p_dequeue_req.
  rewrite (M_bind_run get_shared _ _ _ _ eq_refl).
  cbn [ring_world dasm_shared u2p_ring_write_pos u2p_ring_read_pos u2p_ring_cv
       u2p_ring_mutex].
  fold s.
  replace (wrap64 (u2p_pad (wrap64 (p + str8_size bytes)) - p) >=? u2p_req_fixed_size)
    with true.
  2:{ symmetry. apply Z.geb_le.
      pose proof (u2p_pad_advance p (str8_size bytes)) as Hadv.
      change (2 ^ 63) with 9223372036854775808 in Hhalf.
      change (2 ^ 64) with 18446744073709551616 in Hadv. lia. }
  fold (ring_world w (ring_write_bytes (u2p_ring_base s) (u2p_ring_size s) p bytes)
          (u2p_pad (wrap64 (p + str8_size bytes))) p tr).
  replace p with (wrap64 (p + str8_size (@nil byte))) at 3.
  2:{ unfold str8_size, wrap64. cbn [length]. rewrite Z.add_0_r. by apply Z.mod_small. }
  unfold bytes, u2p_req_bytes in *.
  set (f1 := U128_bytes hash) in *.
  set (f2 := le_bytes 8 (Params.vaddr params)) in *.
  set (f3 := le_bytes sizeof_Architecture (Params.arch params)) in *.
  set (f4 := le_bytes sizeof_DASM_StyleFlags (Params.style_flags params)) in *.
  set (f5 := le_bytes sizeof_DASM_Syntax (Params.syntax params)) in *.
  set (f6 := le_bytes 8 (Params.base_vaddr params)) in *.
  set (f7 := le_bytes 8 (str8_size (DI_Key.path (Params.dbgi_key params)))) in *.
  set (f8 := DI_Key.path (Params.dbgi_key params)) in *.
  set (f9 := le_bytes 8 (DI_Key.min_timestamp (Params.dbgi_key params))) in *.
  set (all := f1 ++ f2 ++ f3 ++ f4 ++ f5 ++ f6 ++ f7 ++ f8 ++ f9) in *.
  assert (∀ pre field post n,
    all = pre ++ field ++ post → n = str8_size field →
    ∀ B (k : list byte → M B) wp tr',
    (u2p_ring_get n ≫= k)
      (ring_world w (ring_write_bytes (u2p_ring_base s) (u2p_ring_size s) p all) wp
         (wrap64 (p + str8_size pre)) tr')
    = k field
        (ring_world w (ring_write_bytes (u2p_ring_base s) (u2p_ring_size s) p all) wp
           (wrap64 (p + str8_size (pre ++ field))) tr')) as Hget.
  { intros pre field post n Hall Hn B k wp tr'. apply M_bind_run. rewrite Hall.
    apply u2p_ring_get_field; [apply Hsize|done|by rewrite <-Hall|done]. }
  rewrite (Hget [] f1 (f2 ++ f3 ++ f4 ++ f5 ++ f6 ++ f7 ++ f8 ++ f9) 16);
    [|done|done].
  rewrite (Hget ([] ++ f1) f2 (f3 ++ f4 ++ f5 ++ f6 ++ f7 ++ f8 ++ f9) 8);
    [|done|done].
  rewrite (Hget (([] ++ f1) ++ f2) f3 (f4 ++ f5 ++ f6 ++ f7 ++ f8 ++ f9));
    [|by rewrite <-!app_assoc|by unfold f3; rewrite str8_size_le_bytes].
  rewrite (Hget ((([] ++ f1) ++ f2) ++ f3) f4 (f5 ++ f6 ++ f7 ++ f8 ++ f9));
    [|by rewrite <-!app_assoc|by unfold f4; rewrite str8_size_le_bytes].
  rewrite (Hget (((([] ++ f1) ++ f2) ++ f3) ++ f4) f5 (f6 ++ f7 ++ f8 ++ f9));
    [|by rewrite <-!app_assoc|by unfold f5; rewrite str8_size_le_bytes].
  rewrite (Hget ((((([] ++ f1) ++ f2) ++ f3) ++ f4) ++ f5) f6 (f7 ++ f8 ++ f9) 8);
    [|by rewrite <-!app_assoc|done].
  rewrite (Hget (((((([] ++ f1) ++ f2) ++ f3) ++ f4) ++ f5) ++ f6) f7 (f8 ++ f9) 8);
    [|by rewrite <-!app_assoc|done].
  rewrite (Hget ((((((([] ++ f1) ++ f2) ++ f3) ++ f4) ++ f5) ++ f6) ++ f7) f8 f9);
    [|by rewrite <-!app_assoc
     |unfold f7; apply le_value_le_bytes; exact Hpath].
  rewrite (Hget (((((((([] ++ f1) ++ f2) ++ f3) ++ f4) ++ f5) ++ f6) ++ f7) ++ f8) f9 [] 8);
    [|by rewrite app_nil_r, <-!app_assoc|done].
  clear Hget.
  unfold modify_shared, os_condition_variable_broadcast, os_emit,
    mbind, M_mbind, M_bind, mret, M_mret, M_ret, ring_world.
  cbn [dasm_shared node_mem scope_mem alloc_top fs_gen os_ticks os_trace
       u2p_ring_base u2p_ring_size u2p_ring_write_pos u2p_ring_read_pos
       set_u2p_ring_read_pos slots_count stripes_count slots
       stripes u2p_ring_cv u2p_ring_mutex user_clock_idx].
  fold s.
  replace ((((((((([] ++ f1) ++ f2) ++ f3) ++ f4) ++ f5) ++ f6) ++ f7) ++ f8) ++ f9)
    with all by (by rewrite <-!app_assoc).
  unfold f1, f2, f3, f4, f5, f6, f7, f9.
  rewrite U128_of_bytes_U128_bytes by done.
  rewrite !le_value_le_bytes by (try change (256 ^ Z.of_nat 8) with (2 ^ 64); done).
  unfold f8, u2p_pad. rewrite <-(app_assoc (os_trace w)).
  destruct params as [? ? ? ? ? []]. reflexivity.
Qed.

(** C2. On a ring whose read and write positions coincide, enqueuing a
    well-formed request that fits the ring succeeds, and the dequeue that
    follows returns the same hash and the same parameters, field by field
    and path byte by path byte.  Both positions have advanced over the
    record, then by 7, and were rounded down to a multiple of 8, so they
    coincide again. *)
Theorem C2_ring_round_trip (w : World) (hash : U128) (params : Params.t)
    (endt_us : Z) :
  let s := dasm_shared w in
  let record_size :=
    u2p_req_fixed_size + str8_size (DI_Key.path (Params.dbgi_key params)) in
  0 < u2p_ring_size s < 2 ^ 64 →
  (u2p_ring_size s | 2 ^ 64) →
  0 ≤ u2p_ring_write_pos s < 2 ^ 64 →
  u2p_ring_read_pos s = u2p_ring_write_pos s →
  u2p_req_wf hash params →
  record_size ≤ u2p_ring_size s →
  ∃ w1 w2,
    dasm_u2p_enqueue_req hash params endt_us w = Ret true w1 ∧
    dasm_u2p_dequeue_req w1 = Ret (hash, params) w2 ∧
    u2p_ring_write_pos (dasm_shared w1)
    = u2p_pad (wrap64 (u2p_ring_write_pos s + record_size)) ∧
    u2p_ring_read_pos (dasm_shared w2)
    = u2p_pad (wrap64 (u2p_ring_read_pos s + record_size)) ∧
    u2p_ring_write_pos (dasm_shared w2) = u2p_ring_write_pos (dasm_shared w1) ∧
    u2p_ring_read_pos (dasm_shared w2) = u2p_ring_write_pos (dasm_shared w2) ∧
    u2p_ring_read_pos (dasm_shared w2) mod 8 = 0.
Proof.
  intros s record_size Hsize Hdiv Hwp Hsync Hwf Hfits. subst s.
  assert (0 ≤ record_size) as Hnonneg.
  { unfold record_size, u2p_req_fixed_size, str8_size. lia. }
  eexists _, _. split; [|split].
  - apply enqueue_run; [done..|]. split; done.
  - rewrite Hsync. apply dequeue_run; [done..| |done].
    by rewrite str8_size_u2p_req_bytes.
  - cbn [ring_world dasm_shared u2p_ring_write_pos u2p_ring_read_pos].
    rewrite str8_size_u2p_req_bytes. fold record_size. rewrite Hsync.
    split_and!; try done. apply u2p_pad_aligned.
Qed.

(** ** What the ring operations ask of the condition variable *)

#[local] Instance trace_same_refl : Reflexive trace_same.
Proof. by intros w. Qed.

#[local] Instance trace_same_trans : Transitive trace_same.
Proof. unfold trace_same. intros w1 w2 w3 H1 H2. congruence. Qed.

Lemma M_frame_bind_inv {A B} (R : relation World) (m : M A) (k : A → M B)
    (w w' : World) (b : B) :
  M_frame R m → (m ≫= k) w = Ret b w' → ∃ a w1, R w w1 ∧ k a w1 = Ret b w'.
Proof.
  intros Hm Hrun. apply bind_Ret_inv in Hrun as (a & w1 & H1 & H2).
  exists a, w1. split; [by eapply Hm|done].
Qed.

Lemma trace_same_modify_shared (f : DASM_Shared → DASM_Shared) :
  M_frame trace_same (modify_shared f).
Proof. by intros w a w' [= _ <-]. Qed.

Lemma trace_same_get (n : Z) : M_frame trace_same (u2p_ring_get n).
Proof. by intros w a w' [= _ <-]. Qed.

Lemma enqueue_trace (hash : U128) (params : Params.t) (endt_us : Z)
    (w w' : World) :
  dasm_u2p_enqueue_req hash params endt_us w = Ret true w' →
  os_trace w'
  = os_trace w ++ [Ev_condition_variable_broadcast (u2p_ring_cv (dasm_shared w))].
Proof.
  unfold dasm_u2p_enqueue_req. intros Hrun.
  apply bind_Ret_inv in Hrun as (s & w0 & [= <- <-] & Hrun).
  destruct (_ >=? _).
  - unfold u2p_ring_put in Hrun.
    do 11 (apply (M_frame_bind_inv trace_same) in Hrun as (_ & ? & ? & Hrun);
           [|apply trace_same_modify_shared]).
    apply bind_Ret_inv in Hrun as (u & w12 & Hb & Hret).
    injection Hret as Hw'. injection Hb as _ Hw12. subst w' w12.
    unfold trace_same in *. cbn [os_trace].
    repeat match goal with H : os_trace _ = os_trace _ |- _ => rewrite H; clear H end.
    reflexivity.
  - apply bind_Ret_inv in Hrun as (now & w1 & _ & Hrun).
    destruct (_ >=? _); [done|].
    apply bind_Ret_inv in Hrun as (? & ? & _ & Hrun). done.
Qed.

Lemma dequeue_trace (w w' : World) (req : U128 * Params.t) :
  dasm_u2p_dequeue_req w = Ret req w' →
  os_trace w'
  = os_trace w ++ [Ev_condition_variable_broadcast (u2p_ring_mutex (dasm_shared w))].
Proof.
  unfold dasm_u2p_dequeue_req. intros Hrun.
  apply bind_Ret_inv in Hrun as (s & w0 & [= <- <-] & Hrun).
  destruct (_ >=? _).
  - do 9 (apply (M_frame_bind_inv trace_same) in Hrun as (? & ? & ? & Hrun);
          [|apply trace_same_get]).
    do 2 (apply (M_frame_bind_inv trace_same) in Hrun as (_ & ? & ? & Hrun);
          [|apply trace_same_modify_shared]).
    apply bind_Ret_inv in Hrun as (u & w12 & Hb & Hret).
    injection Hret as _ Hw'. injection Hb as _ Hw12. subst w' w12.
    unfold trace_same in *. cbn [os_trace].
    repeat match goal with H : os_trace _ = os_trace _ |- _ => rewrite H; clear H end.
    reflexivity.
  - apply bind_Ret_inv in Hrun as (? & ? & _ & Hrun). done.
Qed.

(** ** Chunk lists and string lists *)

Lemma dasm_inst_array_from_chunk_list_push (lst : DASM_InstChunkList) (cap : Z)
    (inst : DASM_Inst) :
  v (dasm_inst_array_from_chunk_list (dasm_inst_chunk_list_push lst cap inst))
  = v (dasm_inst_array_from_chunk_list lst) ++ [inst].
Proof.
  unfold dasm_inst_array_from_chunk_list, dasm_inst_chunk_list_push. cbn [v].
  destruct (last (chunks lst)) as [node|] eqn:Hlast.
  - destruct (chunk_count node >=? chunk_cap node).
    + cbn [chunks]. rewrite last_snoc, removelast_last. cbn [chunks chunk_v chunk_cap].
      rewrite !map_app, !concat_app. simpl. by rewrite ?app_nil_r.
    + rewrite Hlast. cbn [chunks]. apply last_Some in Hlast as [l' ->].
      rewrite removelast_last, !map_app, !concat_app. simpl.
      by rewrite ?app_nil_r, ?app_assoc.
  - cbn [chunks]. rewrite last_snoc, removelast_last. cbn [chunks chunk_v chunk_cap].
    rewrite !map_app, !concat_app. simpl. by rewrite ?app_nil_r.
Qed.


Lemma wrap64_small (a : Z) : 0 ≤ a < 2 ^ 64 → wrap64 a = a.
Proof. apply Z.mod_small. Qed.

Lemma str8_sum_app (l k : list String8) : str8_sum (l ++ k) = str8_sum l + str8_sum k.
Proof. induction l as [|s l IH]; simpl; lia. Qed.


Lemma str8_list_wf_push (l : String8List.t) (s : String8) :
  str8_list_wf l → str8_list_wf (str8_list_push l s).
Proof.
  intros [Hcount Htotal]. unfold str8_list_wf, str8_list_push.
  cbn [String8List.node_count String8List.total_size String8List.strings].
  rewrite Hcount, Htotal, !wrap64_add_l, length_app, str8_sum_app. simpl.
  split; f_equal; lia.
Qed.

(** ** Lines inside the joined text *)




(** ** Records and lines in lockstep *)





(** ** The source annotations *)

#[local] Instance annotations_pushed_refl : Reflexive annotations_pushed.
Proof.
  intros st. split_and!; [done..|]. exists []. by rewrite !app_nil_r.
Qed.

#[local] Instance annotations_pushed_trans : Transitive annotations_pushed.
Proof.
  intros st1 st2 st3 (Hoff1 & Hwf1 & anns1 & Hl1 & Hi1) (Hoff2 & Hwf2 & anns2 & Hl2 & Hi2).
  split_and!; [congruence|tauto|].
  exists (anns1 ++ anns2). rewrite Hl2, Hl1, Hi2, Hi1, length_app, replicate_add.
  by rewrite !app_assoc.
Qed.

Lemma annotations_pushed_push (st st' : DASM_DecodeState) (text : String8) :
  annotations_pushed st st' → annotations_pushed st (dasm_push_annotation st' text).
Proof.
  intros Hst. etrans; [exact Hst|]. split_and!; [done|apply str8_list_wf_push|].
  exists [text]. unfold decoded_lines, decoded_insts, dasm_push_annotation.
  cbn [inst_list inst_strings]. by rewrite dasm_inst_array_from_chunk_list_push.
Qed.

Lemma annotations_pushed_set (st st' : DASM_DecodeState) (file line : Z) :
  annotations_pushed st st' →
  annotations_pushed st
    (mkDecode (off st') file line (inst_list st') (inst_strings st')).
Proof.
  intros Hst. etrans; [exact Hst|]. split_and!; [done..|]. exists [].
  unfold decoded_lines, decoded_insts. cbn [inst_list inst_strings].
  by rewrite !app_nil_r.
Qed.

Lemma annotations_pushed_if (st a b : DASM_DecodeState) (c : bool) :
  annotations_pushed st a → annotations_pushed st b →
  annotations_pushed st (if c then a else b).
Proof. by destruct c. Qed.

(** ** Calls that return, and what they return *)




Lemma M_post_ret {A} (P : A → Prop) (a : A) : P a → M_post P (mret a).
Proof. intros Ha w a' w' [= <- _]. done. Qed.

Lemma M_post_bind {A B} (Q : A → Prop) (P : B → Prop) (m : M A) (k : A → M B) :
  M_post Q m → (∀ a, Q a → M_post P (k a)) → M_post P (m ≫= k).
Proof.
  intros Hm Hk w b w' Hrun. apply bind_Ret_inv in Hrun as (a & w1 & H1 & H2).
  eapply Hk; [by eapply Hm|exact H2].
Qed.

Lemma M_post_if {A} (P : A → Prop) (c : bool) (m1 m2 : M A) :
  M_post P m1 → M_post P m2 → M_post P (if c then m1 else m2).
Proof. by destruct c. Qed.

(** ** Calls that only read the clock *)


Lemma set_os_ticks_twice (w : World) (t1 t2 : nat) :
  set_os_ticks (set_os_ticks w t1) t2 = set_os_ticks w t2.
Proof. done. Qed.








(** ** The poll of the text cache *)



(** ** The source annotations of one instruction *)

Ltac solve_annotations_pushed :=
  repeat first
    [ reflexivity
    | assumption
    | apply annotations_pushed_if
    | apply annotations_pushed_set
    | apply annotations_pushed_push ].

Lemma annotations_pushed_annotate (params : Params.t) (rdi : Z)
    (st : DASM_DecodeState) :
  M_post (annotations_pushed st) (dasm_decode_annotate params rdi st).
Proof.
  unfold dasm_decode_annotate. cbv zeta.
  repeat first
    [ apply M_post_if
    | apply M_post_ret; solve_annotations_pushed
    | apply (M_post_bind (annotations_pushed st)); [|intros st2 Hst2]
    | apply (M_post_bind (λ _, True)); [by intros ? ? ? ?|intros polled _] ].
Qed.

Lemma dasm_decode_annotate_id (params : Params.t) (rdi : Z) (st : DASM_DecodeState) :
  not_annotated params rdi → dasm_decode_annotate params rdi st = mret st.
Proof.
  unfold dasm_decode_annotate. cbv zeta. intros [->| ->]; [done|].
  rewrite Z.eqb_refl. cbn [negb]. by destruct (has_flag _ _).
Qed.



(** ** One turn of the loop, and the loop *)

Lemma decode_step_inv (params : Params.t) (rdi : Z) (data : String8)
    (insn : UD_Insn) (st st' : DASM_DecodeState) (w w' : World) :
  dasm_decode_step params rdi data insn st w = Ret st' w' →
  ∃ st1,
    annotations_pushed st st1 ∧
    st' = mkDecode (wrap64 (off st + ud_insn_size insn)) (last_file st1) (last_line st1)
            (dasm_inst_chunk_list_push (inst_list st1) 1024
               (mkInst (off st) (default 0 (ud_jimm_target insn))
                  (r1u64
                     (wrap64 (String8List.total_size (inst_strings st1)
                              + String8List.node_count (inst_strings st1)))
                     (wrap64 (wrap64 (String8List.total_size (inst_strings st1)
                                      + String8List.node_count (inst_strings st1))
                              + str8_size (dasm_inst_string params rdi data (off st)
                                             insn))))))
            (str8_list_push (inst_strings st1)
               (dasm_inst_string params rdi data (off st) insn)).
Proof.
  unfold dasm_decode_step. cbv zeta. intros Hrun.
  apply bind_Ret_inv in Hrun as (st1 & w1 & Hannotate & Hrun).
  injection Hrun as <- _. exists st1. split; [|done].
  by eapply annotations_pushed_annotate.
Qed.


Lemma off_decode_step (params : Params.t) (rdi : Z) (data : String8)
    (insn : UD_Insn) (st st' : DASM_DecodeState) (w w' : World) :
  dasm_decode_step params rdi data insn st w = Ret st' w' →
  off st' = wrap64 (off st + ud_insn_size insn).
Proof. intros Hrun. by apply decode_step_inv in Hrun as (st1 & _ & ->). Qed.







(** The fuel of [dasm_decode] is enough: when the decoder consumes bytes
    of the blob only, the loop has stopped by itself before the fuel runs
    out, and more fuel changes nothing. *)
Lemma dasm_decode_loop_fuel (params : Params.t) (rdi : Z) (data : String8) :
  str8_size data < 2 ^ 64 →
  (∀ o, 0 ≤ o < str8_size data →
     0 ≤ ud_insn_size (dasm_disassemble_at params data o) ≤ str8_size data - o) →
  ∀ (fuel extra : nat) (st : DASM_DecodeState) (w : World),
    0 ≤ off st →
    str8_size data - off st ≤ Z.of_nat fuel →
    dasm_decode_loop (fuel + extra) params rdi data st w
    = dasm_decode_loop fuel params rdi data st w.
Proof.
  intros Hdata Hdecoder. induction fuel as [|fuel IH]; intros extra st w Hoff Hfuel.
  - destruct extra as [|extra]; [done|]. cbn [Nat.add dasm_decode_loop].
    destruct (Z.ltb_spec (off st) (str8_size data)); [lia|done].
  - cbn [Nat.add dasm_decode_loop].
    destruct (Z.ltb_spec (off st) (str8_size data)) as [Hlt|]; [|done].
    cbv zeta. destruct (Z.eqb_spec (ud_insn_size (dasm_disassemble_at params data (off st))) 0)
      as [|Hsize]; [done|].
    specialize (Hdecoder (off st) (conj Hoff Hlt)).
    unfold mbind, M_mbind, M_bind.
    destruct (dasm_decode_step params rdi data (dasm_disassemble_at params data (off st))
                st w) as [st1 w1|w1] eqn:Hstep; [|done].
    apply off_decode_step in Hstep.
    apply IH; rewrite Hstep, wrap64_small; lia.
Qed.

(** ** The decoding of a blob *)



(** ** The ranges inside the joined text *)



(** ** The worker's commit *)

Lemma slot_first_ext (p q : Node.t → bool) (mem mem' : gmap Z Node.t) (l : list Z) :
  (∀ a, p (node_at mem a) = q (node_at mem' a)) →
  slot_first p mem l = slot_first q mem' l.
Proof.
  intros Hpq. induction l as [|n l IH]; simpl; [done|]. by rewrite Hpq, IH.
Qed.

Lemma node_at_insert (mem : gmap Z Node.t) (n m : Z) (x : Node.t) :
  node_at (<[n := x]> mem) m = if decide (n = m) then x else node_at mem m.
Proof.
  unfold node_at. destruct (decide (n = m)) as [->|Hne].
  - by rewrite lookup_insert_eq.
  - by rewrite lookup_insert_ne.
Qed.


Lemma commit_run (slot_idx : Z) (hash : U128) (params : Params.t)
    (rdi change_gen info_arena : Z) (info : Info.t) (w : World) (n : Z) :
  slot_first (λ node, u128_match (Node.hash node) hash &&
                      dasm_params_match (Node.params node) params)
    (node_mem w) (slot_list (slot_at (dasm_shared w) slot_idx)) = Some n →
  ∃ w',
    dasm_parse_thread__commit slot_idx hash params rdi change_gen info_arena info w
    = Ret tt w' ∧
    let node := node_at (node_mem w) n in
    node_at (node_mem w') n
    = Node.mk (Node.hash node) (Node.params node) info_arena info
        (Node.scope_ref_count node) (Node.last_time_touched_us node)
        (Node.last_user_clock_idx_touched node) (Node.last_time_requested_us node)
        (Node.last_user_clock_idx_requested node)
        (wrap64 (Node.load_count node + 1)) 0
        (if negb (rdi =? di_rdi_parsed_nil) &&
            has_flag (Params.style_flags params)
              (Z.lor DASM_StyleFlag_SourceLines DASM_StyleFlag_SourceFilesNames)
         then change_gen else 0).
Proof.
  intros Hfirst.
  unfold dasm_parse_thread__commit, mbind, M_mbind, M_bind, get_shared, get_node_mem.
  rewrite Hfirst. unfold modify_node.
  destruct (negb (rdi =? di_rdi_parsed_nil) && _);
    (eexists; split; [reflexivity|]); cbn [node_mem];
    rewrite !node_at_insert; repeat case_decide; try done.
Qed.




(** ** Chunk lists *)

Lemma chunk_list_wf_zero (cap : Z) : chunk_list_wf cap DASM_InstChunkList_zero.
Proof. unfold chunk_list_wf. simpl. split_and!; [done..|]. intros i c Hi. done. Qed.

Lemma chunk_list_wf_push (cap : Z) (lst : DASM_InstChunkList) (inst : DASM_Inst) :
  0 < cap →
  chunk_list_wf cap lst → chunk_list_wf cap (dasm_inst_chunk_list_push lst cap inst).
Proof.
  intros Hcap (Hnodes & Hinsts & Hall & Hfull).
  assert (∀ a b, wrap64 (wrap64 a + b) = wrap64 (a + b)) as Hwrap
    by (intros; apply Zplus_mod_idemp_l).
  unfold dasm_inst_chunk_list_push.
  destruct (last (chunks lst)) as [node|] eqn:Hlast.
  - apply last_Some in Hlast as [init Hchunks].
    assert (chunk_cap node = cap ∧ 0 < chunk_count node ≤ cap) as [Hnode_cap Hnode]
      by (rewrite Hchunks in Hall; by apply Forall_app in Hall as [_ [? _]%Forall_cons]).
    destruct (Z.geb_spec (chunk_count node) (chunk_cap node)) as [Hge|Hlt].
    + (* the last chunk is full: a fresh chunk takes the record *)
      cbn [chunks node_count inst_count]. rewrite last_snoc, removelast_last.
      cbn [chunk_v chunk_cap app]. unfold chunk_list_wf. cbn [chunks node_count inst_count].
      rewrite Hnodes, Hinsts, !Hwrap, !map_app, !concat_app, !length_app. cbn.
      split_and!.
      * f_equal. lia.
      * f_equal. lia.
      * apply Forall_app. split; [done|]. apply Forall_singleton. unfold chunk_count.
        cbn. lia.
      * intros i c Hi Hlen. rewrite Nat.add_1_r in Hlen.
        apply lookup_app_Some in Hi as [Hi|[Hlen' Hi]].
        -- destruct (decide (S i < length (chunks lst))%nat) as [Hin|Hout];
             [by eapply Hfull|].
           rewrite Hchunks in Hi, Hout. rewrite length_app in Hout. cbn in Hout.
           apply lookup_app_Some in Hi as [Hi|[_ Hi]].
           ++ apply lookup_lt_Some in Hi. lia.
           ++ apply list_lookup_singleton_Some in Hi as [_ <-]. lia.
        -- apply lookup_lt_Some in Hi. cbn in Hi. lia.
    + (* the last chunk has room *)
      rewrite Hchunks, last_snoc, removelast_last. unfold chunk_list_wf.
      cbn [chunks node_count inst_count].
      rewrite Hnodes, Hinsts, Hchunks, !Hwrap, !map_app, !concat_app, !length_app. cbn.
      rewrite !app_nil_r, !length_app. cbn.
      split_and!.
      * done.
      * f_equal. lia.
      * rewrite Hchunks in Hall. apply Forall_app in Hall as [Hinit _].
        apply Forall_app. split; [done|]. apply Forall_singleton. unfold chunk_count in *.
        cbn. rewrite length_app. cbn. lia.
      * intros i c Hi Hlen.
        apply lookup_app_Some in Hi as [Hi|[Hlen' Hi]].
        -- apply (Hfull i c).
           ++ rewrite Hchunks. by apply lookup_app_l_Some.
           ++ rewrite Hchunks, length_app. cbn. lia.
        -- apply lookup_lt_Some in Hi. cbn in Hi. lia.
  - (* the empty list *)
    apply last_None in Hlast. cbn [chunks node_count inst_count].
    rewrite last_snoc, removelast_last. cbn [chunk_v chunk_cap app].
    unfold chunk_list_wf. cbn [chunks node_count inst_count].
    rewrite Hnodes, Hinsts, Hlast, !Hwrap. cbn.
    split_and!; [done..| |].
    + apply Forall_singleton. unfold chunk_count. cbn. lia.
    + intros [|i] c Hi Hlen; cbn in Hlen; lia.
Qed.

Lemma dasm_inst_chunk_list_of_snoc (cap : Z) (insts : list DASM_Inst) (inst : DASM_Inst) :
  dasm_inst_chunk_list_of cap (insts ++ [inst])
  = dasm_inst_chunk_list_push (dasm_inst_chunk_list_of cap insts) cap inst.
Proof. unfold dasm_inst_chunk_list_of. by rewrite foldl_app. Qed.

(** Flattening gives back the records that were pushed, in the order they
    were pushed, whatever the capacity of the chunks, as long as a chunk
    has room for a record; the list's [inst_count], which becomes the
    array's [count], is their number. *)
Theorem chunk_list_flattens_to_the_pushed_records (cap : Z) (insts : list DASM_Inst) :
  0 < cap →
  v (dasm_inst_array_from_chunk_list (dasm_inst_chunk_list_of cap insts)) = insts ∧
  inst_count (dasm_inst_chunk_list_of cap insts) = wrap64 (Z.of_nat (length insts)).
Proof.
  intros _. induction insts as [|inst insts IH] using rev_ind; [done|].
  rewrite dasm_inst_chunk_list_of_snoc, dasm_inst_array_from_chunk_list_push.
  destruct IH as [IHv IHcount]. rewrite IHv. split; [done|].
  unfold dasm_inst_chunk_list_push.
  assert (∀ lst,
    inst_count match last (chunks lst) with
               | Some node =>
                   mkChunkList
                     (removelast (chunks lst) ++
                      [mkChunk (chunk_v node ++ [inst]) (chunk_cap node)])
                     (node_count lst) (wrap64 (inst_count lst + 1))
               | None => lst
               end
    = if last (chunks lst) is Some _ then wrap64 (inst_count lst + 1)
      else inst_count lst)
    as Hcount by (intros lst; by destruct (last (chunks lst))).
  rewrite Hcount. clear Hcount.
  destruct (last (chunks (dasm_inst_chunk_list_of cap insts))) as [node|] eqn:Hlast.
  - destruct (chunk_count node >=? chunk_cap node).
    + cbn [chunks inst_count]. rewrite last_snoc, IHcount, length_app. cbn.
      unfold wrap64. rewrite Zplus_mod_idemp_l. f_equal. lia.
    + rewrite Hlast, IHcount, length_app. cbn.
      unfold wrap64. rewrite Zplus_mod_idemp_l. f_equal. lia.
  - cbn [chunks inst_count]. rewrite last_snoc, IHcount, length_app. cbn.
    unfold wrap64. rewrite Zplus_mod_idemp_l. f_equal. lia.
Qed.

(** A push writes into a chunk only below its capacity: in the list built
    by pushes every chunk has the capacity [cap] and holds between one and
    [cap] records, every chunk but the last is full, and [node_count] is
    the number of chunks. *)
Theorem chunk_list_fills_chunks_in_turn (cap : Z) (insts : list DASM_Inst) :
  0 < cap →
  let lst := dasm_inst_chunk_list_of cap insts in
  node_count lst = wrap64 (Z.of_nat (length (chunks lst))) ∧
  Forall (λ c, chunk_cap c = cap ∧ 0 < chunk_count c ≤ cap) (chunks lst) ∧
  (∀ (i : nat) (c : DASM_InstChunkNode),
     chunks lst !! i = Some c → (S i < length (chunks lst))%nat →
     chunk_count c = cap).
Proof.
  intros Hcap lst.
  assert (chunk_list_wf cap lst) as (? & _ & ? & ?); [|done].
  subst lst. induction insts as [|inst insts IH] using rev_ind.
  - apply chunk_list_wf_zero.
  - rewrite dasm_inst_chunk_list_of_snoc. by apply chunk_list_wf_push.
Qed.

(** ** The two conversions between indices and code offsets *)

Lemma linear_scan_from_found (l : list DASM_Inst) (idx off : Z) :
  (∃ inst, inst ∈ l ∧ code_off inst = off) →
  ∃ (k : nat) (inst : DASM_Inst),
    linear_scan_from l idx off = idx + Z.of_nat k ∧
    l !! k = Some inst ∧ code_off inst = off.
Proof.
  revert idx. induction l as [|x l IH]; intros idx (inst & Hin & Hoff).
  - by apply elem_of_nil in Hin.
  - cbn [linear_scan_from]. destruct (Z.eqb_spec (code_off x) off) as [Heq|Hne].
    + exists 0%nat, x. split_and!; [lia|done..].
    + apply elem_of_cons in Hin as [->|Hin]; [done|].
      destruct (IH (idx + 1) (ex_intro _ inst (conj Hin Hoff))) as (k & y & Hscan & Hk & Hy).
      exists (S k), y. split_and!; [lia|done..].
Qed.

Lemma linear_scan_from_range (l : list DASM_Inst) (idx off : Z) :
  0 ≤ idx →
  linear_scan_from l idx off = 0 ∨
  idx ≤ linear_scan_from l idx off < idx + Z.of_nat (length l).
Proof.
  revert idx. induction l as [|x l IH]; intros idx Hidx; [by left|].
  cbn [linear_scan_from length]. destruct (code_off x =? off); [right; lia|].
  destruct (IH (idx + 1)) as [?|?]; [lia|by left|right; lia].
Qed.

(** The index the scan returns for a code offset that occurs in the array
    holds a record with that code offset: converting it back with
    [dasm_inst_array_code_off_from_idx] gives the code offset again. *)
Theorem code_off_of_scanned_idx (array : DASM_InstArray) (off : Z) :
  (∃ inst, inst ∈ v array ∧ code_off inst = off) →
  dasm_inst_array_code_off_from_idx array
    (dasm_inst_array_idx_from_code_off__linear_scan array off) = off.
Proof.
  intros Hfound.
  destruct (linear_scan_from_found (v array) 0 off Hfound) as (k & inst & Hscan & Hk & Hoff).
  unfold dasm_inst_array_code_off_from_idx, dasm_inst_array_idx_from_code_off__linear_scan.
  rewrite Hscan, Z.add_0_l, Nat2Z.id, Hk.
  apply lookup_lt_Some in Hk. unfold count.
  destruct (Z.ltb_spec (Z.of_nat k) (Z.of_nat (length (v array)))); [done|lia].
Qed.

Lemma linear_scan_inverts_code_off (array : DASM_InstArray) (idx : Z) :
  0 ≤ idx < count array →
  NoDup (map code_off (v array)) →
  dasm_inst_array_idx_from_code_off__linear_scan array
    (dasm_inst_array_code_off_from_idx array idx) = idx.
Proof.
  intros [Hidx0 Hidx] Hnodup.
  unfold dasm_inst_array_code_off_from_idx, dasm_inst_array_idx_from_code_off__linear_scan.
  destruct (Z.ltb_spec idx (count array)); [|lia]. unfold count in Hidx.
  destruct (lookup_lt_is_Some_2 (v array) (Z.to_nat idx)) as [inst Hinst]; [lia|].
  rewrite Hinst.
  rewrite (linear_scan_from_first_match (v array) 0 (code_off inst) (Z.to_nat idx) inst);
    [lia|done..|].
  apply Forall_forall. intros inst' Hin Heq.
  apply list_elem_of_lookup in Hin as [j Hj].
  apply lookup_take_Some in Hj as [Hj Hlt].
  assert (j = Z.to_nat idx); [|lia].
  eapply (NoDup_lookup _ _ _ _ Hnodup).
  - rewrite list_lookup_fmap, Hj. done.
  - rewrite list_lookup_fmap, Hinst. simpl. by rewrite Heq.
Qed.

(** When no two records of the array share a code offset, scanning for the
    code offset of the record at a valid index gives that index back. *)
Theorem scanned_idx_of_code_off (array : DASM_InstArray) (idx : Z) :
  0 ≤ idx < count array →
  NoDup (map code_off (v array)) →
  dasm_inst_array_idx_from_code_off__linear_scan array
    (dasm_inst_array_code_off_from_idx array idx) = idx.
Proof. apply linear_scan_inverts_code_off. Qed.

(** The scan never returns an index outside the array: its result is 0 for
    the empty array and below [count] otherwise, also when nothing
    matches. *)
Theorem scanned_idx_in_range (array : DASM_InstArray) (off : Z) :
  0 ≤ dasm_inst_array_idx_from_code_off__linear_scan array off ∧
  (dasm_inst_array_idx_from_code_off__linear_scan array off < count array ∨
   (count array = 0 ∧ dasm_inst_array_idx_from_code_off__linear_scan array off = 0)).
Proof.
  unfold dasm_inst_array_idx_from_code_off__linear_scan, count.
  destruct (linear_scan_from_range (v array) 0 off) as [Hzero|Hin]; [done| |lia].
  rewrite Hzero. split; [done|]. destruct (v array); [by right|left; cbn; lia].
Qed.

(** ** The ring as a queue of requests *)

Lemma ring_read_bytes_pos_mod (b : ring_mem) (size p q : Z) (n : nat) :
  p mod size = q mod size →
  ring_read_bytes b size p n = ring_read_bytes b size q n.
Proof.
  revert p q. induction n as [|n IH]; intros p q Hpq; [done|].
  cbn [ring_read_bytes]. rewrite Hpq. f_equal. apply IH.
  by rewrite <-(Zplus_mod_idemp_l p), Hpq, Zplus_mod_idemp_l.
Qed.

Lemma ring_read_field (b : ring_mem) (size p : Z) (pre field post : list byte) :
  ring_read_bytes b size p (length (pre ++ field ++ post)) = pre ++ field ++ post →
  ring_read_bytes b size (p + str8_size pre) (length field) = field.
Proof.
  intros Hread. apply list_eq. intros i.
  destruct (decide (i < length field)%nat) as [Hi|Hi].
  - rewrite ring_read_bytes_lookup by done.
    assert ((pre ++ field ++ post) !! (length pre + i)%nat = field !! i) as Hfield.
    { rewrite lookup_app_r by lia. replace (length pre + i - length pre)%nat with i by lia.
      by rewrite lookup_app_l. }
    rewrite <-Hfield, <-Hread, ring_read_bytes_lookup.
    + unfold str8_size. do 4 f_equal. lia.
    + rewrite !length_app. lia.
  - rewrite !lookup_ge_None_2; [done|lia|]. rewrite length_ring_read_bytes. lia.
Qed.

Lemma ring_read_bytes_write_other (b : ring_mem) (size p q : Z) (n : nat)
    (bs : list byte) :
  (∀ i j, 0 ≤ i < Z.of_nat n → 0 ≤ j < str8_size bs →
          (q + j) mod size ≠ (p + i) mod size) →
  ring_read_bytes (ring_write_bytes b size q bs) size p n = ring_read_bytes b size p n.
Proof.
  intros Hother. apply list_eq. intros i.
  destruct (decide (i < n)%nat) as [Hi|Hi].
  - rewrite !ring_read_bytes_lookup by done. do 2 f_equal.
    apply ring_write_bytes_lookup_other. intros j Hj. apply Hother; lia.
  - rewrite !lookup_ge_None_2; [done|..]; rewrite length_ring_read_bytes; lia.
Qed.

Lemma ring_world_id (w : World) :
  ring_world w (u2p_ring_base (dasm_shared w)) (u2p_ring_write_pos (dasm_shared w))
    (u2p_ring_read_pos (dasm_shared w)) [] = w.
Proof. unfold ring_world. rewrite app_nil_r. by destruct w as [[] ? ? ? ? ? ?]. Qed.

(** The world an enqueue leaves behind when the ring has room. *)
Lemma enqueue_run_room (hash : U128) (params : Params.t) (endt_us : Z) (w : World) :
  let s := dasm_shared w in
  (u2p_ring_size s | 2 ^ 64) →
  0 ≤ u2p_ring_write_pos s < 2 ^ 64 →
  wrap64 (u2p_req_fixed_size + str8_size (DI_Key.path (Params.dbgi_key params)))
  ≤ wrap64 (u2p_ring_size s - wrap64 (u2p_ring_write_pos s - u2p_ring_read_pos s)) →
  dasm_u2p_enqueue_req hash params endt_us w
  = Ret true
      (ring_world w
         (ring_write_bytes (u2p_ring_base s) (u2p_ring_size s) (u2p_ring_write_pos s)
            (u2p_req_bytes hash params))
         (u2p_pad (wrap64 (u2p_ring_write_pos s + str8_size (u2p_req_bytes hash params))))
         (u2p_ring_read_pos s)
         [Ev_condition_variable_broadcast (u2p_ring_cv s)]).
Proof.
  intros s Hdiv Hwp Hroom.
  unfold dasm_u2p_enqueue_req.
  rewrite (M_bind_run get_shared _ w w (dasm_shared w)) by done. fold s.
  replace (wrap64 (u2p_ring_size s - wrap64 (u2p_ring_write_pos s - u2p_ring_read_pos s))
           >=? wrap64 (u2p_req_fixed_size
                       + str8_size (DI_Key.path (Params.dbgi_key params))))
    with true by (symmetry; apply Z.geb_le; exact Hroom).
  rewrite <-(ring_filled_nil w Hwp) at 1.
  repeat (erewrite M_bind_run by (by apply u2p_ring_put_filled)).
  unfold ring_filled, modify_shared, os_condition_variable_broadcast, os_emit,
    mbind, M_mbind, M_bind, mret, M_mret, M_ret, ring_world, u2p_pad.
  cbn [dasm_shared node_mem scope_mem alloc_top fs_gen os_ticks os_trace
       u2p_ring_base u2p_ring_size u2p_ring_write_pos u2p_ring_read_pos
       set_u2p_ring_write_pos set_u2p_ring_base slots_count stripes_count slots
       stripes u2p_ring_cv u2p_ring_mutex user_clock_idx app].
  rewrite app_nil_r. unfold u2p_req_bytes. cbn [app]. rewrite <-!app_assoc.
  reflexivity.
Qed.

Lemma u2p_ring_get_read (w0 : World) (b : ring_mem) (wp p n : Z)
    (tr : list OS_Event) (pre field post : list byte) :
  let size := u2p_ring_size (dasm_shared w0) in
  (size | 2 ^ 64) →
  ring_read_bytes b size p (length (pre ++ field ++ post)) = pre ++ field ++ post →
  n = str8_size field →
  u2p_ring_get n (ring_world w0 b wp (wrap64 (p + str8_size pre)) tr)
  = Ret field (ring_world w0 b wp (wrap64 (p + str8_size (pre ++ field))) tr).
Proof.
  intros size Hdiv Hread ->.
  unfold u2p_ring_get, modify_shared, get_shared, ring_world, ring_read,
    mbind, M_mbind, M_bind, mret, M_mret, M_ret.
  cbn [dasm_shared node_mem scope_mem alloc_top fs_gen os_ticks os_trace
       u2p_ring_base u2p_ring_size u2p_ring_write_pos u2p_ring_read_pos
       set_u2p_ring_read_pos slots_count stripes_count slots
       stripes u2p_ring_cv u2p_ring_mutex user_clock_idx].
  fold size.
  replace (Z.to_nat (str8_size field)) with (length field)
    by (unfold str8_size; lia).
  rewrite (ring_read_bytes_pos_mod _ _ (wrap64 (p + str8_size pre)) (p + str8_size pre))
    by (by apply wrap64_mod_divide).
  rewrite (ring_read_field _ _ _ _ _ _ Hread).
  by rewrite wrap64_add_l, str8_size_app, Z.add_assoc.
Qed.

(** The world a dequeue leaves behind when the record of a request lies
    at the read position. *)
Lemma dequeue_run_read (hash : U128) (params : Params.t) (w : World)
    (b : ring_mem) (wp rp : Z) (tr : list OS_Event) :
  let s := dasm_shared w in
  let bytes := u2p_req_bytes hash params in
  (u2p_ring_size s | 2 ^ 64) →
  0 ≤ rp < 2 ^ 64 →
  u2p_req_fixed_size ≤ wrap64 (wp - rp) →
  ring_read_bytes b (u2p_ring_size s) rp (length bytes) = bytes →
  str8_size (DI_Key.path (Params.dbgi_key params)) < 2 ^ 64 →
  u2p_req_wf hash params →
  dasm_u2p_dequeue_req (ring_world w b wp rp tr)
  = Ret (hash, params)
      (ring_world w b wp (u2p_pad (wrap64 (rp + str8_size bytes)))
         (tr ++ [Ev_condition_variable_broadcast (u2p_ring_mutex s)])).
Proof.
  intros s bytes Hdiv Hrp Hfixed Hread Hpath
    (Hh0 & Hh1 & Hvaddr & Harch & Hflags & Hsyntax & Hbase & Hts).
  assert (0 ≤ str8_size (DI_Key.path (Params.dbgi_key params))) as Hpath0
    by (unfold str8_size; lia).
  unfold dasm_u2p_dequeue_req.
  rewrite (M_bind_run get_shared _ _ _ _ eq_refl).
  cbn [ring_world dasm_shared u2p_ring_write_pos u2p_ring_read_pos u2p_ring_cv
       u2p_ring_mutex].
  fold s.
  replace (wrap64 (wp - rp) >=? u2p_req_fixed_size) with true
    by (symmetry; apply Z.geb_le; exact Hfixed).
  fold (ring_world w b wp rp tr).
  replace rp with (wrap64 (rp + str8_size (@nil byte))) at 1.
  2:{ unfold str8_size, wrap64. cbn [length]. rewrite Z.add_0_r. by apply Z.mod_small. }
  unfold bytes, u2p_req_bytes in *.
  set (f1 := U128_bytes hash) in *.
  set (f2 := le_bytes 8 (Params.vaddr params)) in *.
  set (f3 := le_bytes sizeof_Architecture (Params.arch params)) in *.
  set (f4 := le_bytes sizeof_DASM_StyleFlags (Params.style_flags params)) in *.
  set (f5 := le_bytes sizeof_DASM_Syntax (Params.syntax params)) in *.
  set (f6 := le_bytes 8 (Params.base_vaddr params)) in *.
  set (f7 := le_bytes 8 (str8_size (DI_Key.path (Params.dbgi_key params)))) in *.
  set (f8 := DI_Key.path (Params.dbgi_key params)) in *.
  set (f9 := le_bytes 8 (DI_Key.min_timestamp (Params.dbgi_key params))) in *.
  set (all := f1 ++ f2 ++ f3 ++ f4 ++ f5 ++ f6 ++ f7 ++ f8 ++ f9) in *.
  assert (∀ pre field post n,
    all = pre ++ field ++ post → n = str8_size field →
    ∀ B (k : list byte → M B) tr',
    (u2p_ring_get n ≫= k)
      (ring_world w b wp (wrap64 (rp + str8_size pre)) tr')
    = k field (ring_world w b wp (wrap64 (rp + str8_size (pre ++ field))) tr'))
    as Hget.
  { intros pre field post n Hall Hn B k tr'. apply M_bind_run.
    apply (u2p_ring_get_read w b wp rp n tr' pre field post); [done| |done].
    by rewrite <-Hall. }
  rewrite (Hget [] f1 (f2 ++ f3 ++ f4 ++ f5 ++ f6 ++ f7 ++ f8 ++ f9) 16);
    [|done|done].
  rewrite (Hget ([] ++ f1) f2 (f3 ++ f4 ++ f5 ++ f6 ++ f7 ++ f8 ++ f9) 8);
    [|done|done].
  rewrite (Hget (([] ++ f1) ++ f2) f3 (f4 ++ f5 ++ f6 ++ f7 ++ f8 ++ f9));
    [|by rewrite <-!app_assoc|by unfold f3; rewrite str8_size_le_bytes].
  rewrite (Hget ((([] ++ f1) ++ f2) ++ f3) f4 (f5 ++ f6 ++ f7 ++ f8 ++ f9));
    [|by rewrite <-!app_assoc|by unfold f4; rewrite str8_size_le_bytes].
  rewrite (Hget (((([] ++ f1) ++ f2) ++ f3) ++ f4) f5 (f6 ++ f7 ++ f8 ++ f9));
    [|by rewrite <-!app_assoc|by unfold f5; rewrite str8_size_le_bytes].
  rewrite (Hget ((((([] ++ f1) ++ f2) ++ f3) ++ f4) ++ f5) f6 (f7 ++ f8 ++ f9) 8);
    [|by rewrite <-!app_assoc|done].
  rewrite (Hget (((((([] ++ f1) ++ f2) ++ f3) ++ f4) ++ f5) ++ f6) f7 (f8 ++ f9) 8);
    [|by rewrite <-!app_assoc|done].
  rewrite (Hget ((((((([] ++ f1) ++ f2) ++ f3) ++ f4) ++ f5) ++ f6) ++ f7) f8 f9);
    [|by rewrite <-!app_assoc
     |unfold f7; apply le_value_le_bytes; split; [exact Hpath0|exact Hpath]].
  rewrite (Hget (((((((([] ++ f1) ++ f2) ++ f3) ++ f4) ++ f5) ++ f6) ++ f7) ++ f8) f9 [] 8);
    [|by rewrite app_nil_r, <-!app_assoc|done].
  clear Hget.
  unfold modify_shared, os_condition_variable_broadcast, os_emit,
    mbind, M_mbind, M_bind, mret, M_mret, M_ret, ring_world.
  cbn [dasm_shared node_mem scope_mem alloc_top fs_gen os_ticks os_trace
       u2p_ring_base u2p_ring_size u2p_ring_write_pos u2p_ring_read_pos
       set_u2p_ring_read_pos slots_count stripes_count slots
       stripes u2p_ring_cv u2p_ring_mutex user_clock_idx].
  fold s.
  replace ((((((((([] ++ f1) ++ f2) ++ f3) ++ f4) ++ f5) ++ f6) ++ f7) ++ f8) ++ f9)
    with all by (by rewrite <-!app_assoc).
  unfold f1, f2, f3, f4, f5, f6, f7, f9.
  rewrite U128_of_bytes_U128_bytes by done.
  rewrite !le_value_le_bytes by (try change (256 ^ Z.of_nat 8) with (2 ^ 64); done).
  unfold f8, u2p_pad. rewrite <-(app_assoc (os_trace w)).
  destruct params as [? ? ? ? ? []]. reflexivity.
Qed.

Lemma u2p_req_advance_bounds (req : U128 * Params.t) :
  u2p_req_fixed_size ≤ str8_size (u2p_req_bytes req.1 req.2) ∧
  str8_size (u2p_req_bytes req.1 req.2) ≤ u2p_req_advance req ∧
  u2p_req_advance req ≤ str8_size (u2p_req_bytes req.1 req.2) + 7 ∧
  u2p_req_advance req mod 8 = 0 ∧
  0 < u2p_req_fixed_size.
Proof.
  unfold u2p_req_advance. rewrite str8_size_u2p_req_bytes.
  assert (0 ≤ str8_size (DI_Key.path (Params.dbgi_key req.2))) by (unfold str8_size; lia).
  assert (0 < u2p_req_fixed_size) by (unfold u2p_req_fixed_size; lia).
  split_and!; [lia| | |by apply Z_mod_mult|done]; Z.div_mod_to_equations; lia.
Qed.

Lemma u2p_queue_size_aligned (reqs : list (U128 * Params.t)) :
  0 ≤ u2p_queue_size reqs ∧ u2p_queue_size reqs mod 8 = 0.
Proof.
  induction reqs as [|req reqs [IH0 IH8]]; [done|]. cbn [u2p_queue_size].
  pose proof (u2p_req_advance_bounds req) as (? & ? & ? & ? & ?).
  split; [lia|]. rewrite Z.add_mod, IH8 by done. by rewrite Z.add_0_r, Z.mod_mod.
Qed.

Lemma u2p_queue_size_app (l k : list (U128 * Params.t)) :
  u2p_queue_size (l ++ k) = u2p_queue_size l + u2p_queue_size k.
Proof. induction l as [|req l IH]; cbn [app u2p_queue_size]; lia. Qed.

Lemma u2p_pad_at_aligned (p len : Z) :
  p mod 8 = 0 → u2p_pad (wrap64 (p + len)) = wrap64 (p + (len + 7) / 8 * 8).
Proof.
  unfold u2p_pad, wrap64. change (2 ^ 64) with 18446744073709551616.
  intros Hp. Z.div_mod_to_equations. lia.
Qed.

Lemma wrap64_unconsumed (rp total : Z) :
  0 ≤ total < 2 ^ 64 → wrap64 (wrap64 (rp + total) - rp) = total.
Proof.
  unfold wrap64. change (2 ^ 64) with 18446744073709551616.
  intros Htotal. Z.div_mod_to_equations. lia.
Qed.

Lemma ring_holds_pos_mod (b : ring_mem) (size p q : Z) (reqs : list (U128 * Params.t)) :
  p mod size = q mod size → ring_holds b size p reqs → ring_holds b size q reqs.
Proof.
  revert p q. induction reqs as [|req reqs IH]; intros p q Hpq; [done|].
  cbn [ring_holds]. intros [Hread Hrest]. split.
  - by rewrite <-(ring_read_bytes_pos_mod _ _ p q).
  - apply (IH (p + u2p_req_advance req)); [|done].
    by rewrite <-(Zplus_mod_idemp_l p), Hpq, Zplus_mod_idemp_l.
Qed.

Lemma ring_holds_app (b : ring_mem) (size p : Z) (l k : list (U128 * Params.t)) :
  ring_holds b size p l → ring_holds b size (p + u2p_queue_size l) k →
  ring_holds b size p (l ++ k).
Proof.
  revert p. induction l as [|req l IH]; intros p Hl Hk.
  - cbn [u2p_queue_size] in Hk. by rewrite Z.add_0_r in Hk.
  - destruct Hl as [Hread Hl]. cbn [app ring_holds]. split; [done|].
    apply IH; [done|]. cbn [u2p_queue_size] in Hk. by rewrite <-Z.add_assoc.
Qed.

Lemma ring_holds_write_other (b : ring_mem) (size p q : Z) (bs : list byte)
    (reqs : list (U128 * Params.t)) :
  (∀ i j, 0 ≤ i < u2p_queue_size reqs → 0 ≤ j < str8_size bs →
          (q + j) mod size ≠ (p + i) mod size) →
  ring_holds b size p reqs →
  ring_holds (ring_write_bytes b size q bs) size p reqs.
Proof.
  revert p. induction reqs as [|req reqs IH]; intros p Hother; [done|].
  cbn [ring_holds u2p_queue_size] in *. intros [Hread Hrest].
  pose proof (u2p_req_advance_bounds req) as (? & Hlen & ? & ? & ?).
  pose proof (u2p_queue_size_aligned reqs) as [? _].
  unfold str8_size in Hlen. split.
  - rewrite ring_read_bytes_write_other; [done|]. intros i j Hi Hj. apply Hother; lia.
  - apply IH; [|done]. intros i j Hi Hj.
    replace (p + u2p_req_advance req + i) with (p + (u2p_req_advance req + i)) by lia.
    apply Hother; lia.
Qed.

Lemma u2p_enqueue_queue (w : World) (reqs : list (U128 * Params.t))
    (hash : U128) (params : Params.t) (endt_us : Z) :
  let s := dasm_shared w in
  let w' :=
    ring_world w
      (ring_write_bytes (u2p_ring_base s) (u2p_ring_size s) (u2p_ring_write_pos s)
         (u2p_req_bytes hash params))
      (u2p_pad (wrap64 (u2p_ring_write_pos s + str8_size (u2p_req_bytes hash params))))
      (u2p_ring_read_pos s)
      [Ev_condition_variable_broadcast (u2p_ring_cv s)] in
  u2p_ring_ok s →
  u2p_ring_queue s reqs →
  u2p_req_wf hash params →
  u2p_queue_size reqs + str8_size (u2p_req_bytes hash params) ≤ u2p_ring_size s →
  dasm_u2p_enqueue_req hash params endt_us w = Ret true w' ∧
  u2p_ring_queue (dasm_shared w') (reqs ++ [(hash, params)]) ∧
  ring_only w w'.
Proof.
  intros s0 w' (Hsize & Hdiv & Hdiv8) (Hrp & Hrp8 & Hwp & Htotal & Hholds & Hwf) Hreq Hroom.
  subst w' s0.
  pose proof (u2p_queue_size_aligned reqs) as [Hq0 Hq8].
  pose proof (u2p_req_advance_bounds (hash, params)) as (Hfixed & Hlen & Hadv & Hadv8 & Hfixed0).
  cbn [fst snd] in *.
  set (s := dasm_shared w) in *.
  set (len := str8_size (u2p_req_bytes hash params)) in *.
  split; [|split].
  - apply enqueue_run_room; [done|..].
    + fold s. rewrite Hwp. unfold wrap64. by apply Z.mod_pos_bound.
    + fold s. rewrite Hwp, wrap64_unconsumed by lia.
      rewrite <-(str8_size_u2p_req_bytes hash). fold len.
      unfold wrap64. rewrite !Z.mod_small; lia.
  - unfold u2p_ring_queue.
    cbn [ring_world dasm_shared u2p_ring_read_pos u2p_ring_write_pos u2p_ring_size
         u2p_ring_base].
    fold s len. split_and!; [lia|lia|done| | | |].
    + rewrite u2p_queue_size_app. cbn [u2p_queue_size]. rewrite Z.add_0_r.
      rewrite Hwp, u2p_pad_at_aligned.
      * unfold u2p_req_advance. cbn [fst snd]. fold len.
        rewrite wrap64_add_l. f_equal. lia.
      * rewrite wrap64_mod_divide by (by exists (2 ^ 61)).
        rewrite Z.add_mod, Hrp8, Hq8 by lia. done.
    + rewrite u2p_queue_size_app. cbn [u2p_queue_size]. rewrite Z.add_0_r.
      destruct Hdiv8 as [k8 Hk8]. unfold u2p_req_advance in *. cbn [fst snd] in *.
      fold len in Hadv, Hlen, Hadv8 |- *. Z.div_mod_to_equations. lia.
    + apply ring_holds_app.
      * apply ring_holds_write_other; [|done]. intros i j Hi Hj.
        rewrite Hwp, <-(Zplus_mod_idemp_l (wrap64 _)), wrap64_mod_divide,
          Zplus_mod_idemp_l by done.
        replace (u2p_ring_read_pos s + u2p_queue_size reqs + j)
          with (u2p_ring_read_pos s + i + (u2p_queue_size reqs + j - i)) by lia.
        apply ring_offsets_differ. fold len in Hj. lia.
      * cbn [ring_holds fst snd]. split; [|done].
        pose proof (ring_read_written (u2p_ring_base s) (u2p_ring_size s)
                      (u2p_ring_write_pos s)
                      (u2p_ring_read_pos s + u2p_queue_size reqs)
                      [] (u2p_req_bytes hash params) []) as Hread.
        cbn [app] in Hread. rewrite app_nil_r in Hread. apply Hread; [lia| |].
        -- fold len. lia.
        -- unfold str8_size. cbn [length]. rewrite Z.add_0_r, Hwp.
           by rewrite wrap64_mod_divide.
    + apply Forall_app. split; [done|]. by apply Forall_singleton.
  - unfold ring_only. cbn [ring_world dasm_shared node_mem os_trace slots_count
                           stripes_count slots stripes].
    split_and!; [done..|]. unfold released_arenas. rewrite omap_app. cbn.
    by rewrite app_nil_r.
Qed.

Lemma u2p_dequeue_queue (w : World) (hash : U128) (params : Params.t)
    (reqs : list (U128 * Params.t)) :
  let s := dasm_shared w in
  let w' :=
    ring_world w (u2p_ring_base s) (u2p_ring_write_pos s)
      (u2p_pad (wrap64 (u2p_ring_read_pos s + str8_size (u2p_req_bytes hash params))))
      [Ev_condition_variable_broadcast (u2p_ring_mutex s)] in
  u2p_ring_ok s →
  u2p_ring_queue s ((hash, params) :: reqs) →
  dasm_u2p_dequeue_req w = Ret (hash, params) w' ∧
  u2p_ring_queue (dasm_shared w') reqs ∧
  ring_only w w'.
Proof.
  intros s0 w' (Hsize & Hdiv & Hdiv8) (Hrp & Hrp8 & Hwp & Htotal & Hholds & Hwf).
  subst w' s0.
  pose proof (u2p_queue_size_aligned reqs) as [Hq0 Hq8].
  pose proof (u2p_req_advance_bounds (hash, params)) as (Hfixed & Hlen & Hadv & Hadv8 & Hfixed0).
  apply Forall_cons in Hwf as [Hreq Hwf].
  cbn [fst snd u2p_queue_size ring_holds] in *. destruct Hholds as [Hread Hholds].
  set (s := dasm_shared w) in *.
  set (len := str8_size (u2p_req_bytes hash params)) in *.
  split; [|split].
  - rewrite <-(ring_world_id w) at 1. fold s.
    replace [Ev_condition_variable_broadcast (u2p_ring_mutex s)]
      with ([] ++ [Ev_condition_variable_broadcast (u2p_ring_mutex s)]) by done.
    apply dequeue_run_read; fold s; [done|done| |done| |done].
    + rewrite Hwp, wrap64_unconsumed; lia.
    + pose proof (str8_size_u2p_req_bytes hash params) as Hsum. fold len in Hsum.
      unfold u2p_req_fixed_size in Hsum. lia.
  - unfold u2p_ring_queue.
    cbn [ring_world dasm_shared u2p_ring_read_pos u2p_ring_write_pos u2p_ring_size
         u2p_ring_base].
    fold s len. rewrite u2p_pad_at_aligned by done.
    change ((len + 7) / 8 * 8) with (u2p_req_advance (hash, params)).
    split_and!.
    + unfold wrap64. by apply Z.mod_pos_bound.
    + unfold wrap64. by apply Z.mod_pos_bound.
    + rewrite wrap64_mod_divide by (by exists (2 ^ 61)).
      rewrite Z.add_mod, Hrp8, Hadv8 by lia. done.
    + rewrite Hwp, wrap64_add_l. f_equal. lia.
    + lia.
    + apply (ring_holds_pos_mod _ _ (u2p_ring_read_pos s + u2p_req_advance (hash, params)));
        [|done].
      by rewrite wrap64_mod_divide.
    + done.
  - unfold ring_only. cbn [ring_world dasm_shared node_mem os_trace slots_count
                           stripes_count slots stripes].
    split_and!; [done..|]. unfold released_arenas. rewrite !omap_app. cbn.
    by rewrite !app_nil_r.
Qed.

Lemma u2p_enqueue_all_run (reqs : list (U128 * Params.t)) (endt_us : Z) :
  ∀ (w : World) (queued : list (U128 * Params.t)),
    u2p_ring_ok (dasm_shared w) →
    u2p_ring_queue (dasm_shared w) queued →
    Forall (λ req, u2p_req_wf req.1 req.2) reqs →
    u2p_queue_size queued + u2p_queue_size reqs ≤ u2p_ring_size (dasm_shared w) →
    ∃ w',
      u2p_enqueue_all reqs endt_us w = Ret tt w' ∧
      u2p_ring_ok (dasm_shared w') ∧
      u2p_ring_queue (dasm_shared w') (queued ++ reqs).
Proof.
  induction reqs as [|[hash params] reqs IH]; intros w queued Hok Hqueue Hwf Hroom.
  - exists w. by rewrite app_nil_r.
  - apply Forall_cons in Hwf as [Hreq Hwf]. cbn [u2p_queue_size] in Hroom.
    pose proof (u2p_queue_size_aligned reqs) as [Hq0 _].
    pose proof (u2p_req_advance_bounds (hash, params)) as (_ & Hlen & _).
    cbn [fst snd] in *.
    destruct (u2p_enqueue_queue w queued hash params endt_us Hok Hqueue Hreq)
      as (Hrun & Hqueue1 & _); [lia|].
    set (w1 := ring_world w _ _ _ _) in *.
    assert (u2p_ring_size (dasm_shared w1) = u2p_ring_size (dasm_shared w)) as Hsize1
      by done.
    destruct (IH w1 (queued ++ [(hash, params)])) as (w' & Hrun' & Hok' & Hqueue');
      [|done|done| |].
    + destruct Hok as (? & ? & ?). unfold u2p_ring_ok. by rewrite Hsize1.
    + rewrite u2p_queue_size_app, Hsize1. cbn [u2p_queue_size]. lia.
    + exists w'. cbn [u2p_enqueue_all fst snd].
      rewrite (M_bind_run _ _ _ _ _ Hrun). rewrite <-app_assoc in Hqueue'. done.
Qed.

Lemma u2p_dequeue_n_run (queued : list (U128 * Params.t)) :
  ∀ w : World,
    u2p_ring_ok (dasm_shared w) →
    u2p_ring_queue (dasm_shared w) queued →
    ∃ w',
      u2p_dequeue_n (length queued) w = Ret queued w' ∧
      u2p_ring_queue (dasm_shared w') [].
Proof.
  induction queued as [|[hash params] queued IH]; intros w Hok Hqueue.
  - by exists w.
  - destruct (u2p_dequeue_queue w hash params queued Hok Hqueue)
      as (Hrun & Hqueue1 & _).
    set (w1 := ring_world w _ _ _ _) in *.
    assert (u2p_ring_size (dasm_shared w1) = u2p_ring_size (dasm_shared w)) as Hsize1
      by done.
    destruct (IH w1) as (w' & Hrun' & Hqueue'); [|done|].
    + destruct Hok as (? & ? & ?). unfold u2p_ring_ok. by rewrite Hsize1.
    + exists w'. cbn [u2p_dequeue_n length].
      rewrite (M_bind_run _ _ _ _ _ Hrun), (M_bind_run _ _ _ _ _ Hrun'). done.
Qed.

(** When the record fits the free part of the ring, an enqueue succeeds at
    once and appends the request to the queue the ring holds: the requests
    waiting there are not disturbed.  It broadcasts the ring's condition
    variable and touches nothing but the ring. *)
Theorem u2p_enqueue_appends (w : World) (reqs : list (U128 * Params.t))
    (hash : U128) (params : Params.t) (endt_us : Z) :
  u2p_ring_ok (dasm_shared w) →
  u2p_ring_queue (dasm_shared w) reqs →
  u2p_req_wf hash params →
  u2p_queue_size reqs + str8_size (u2p_req_bytes hash params)
  ≤ u2p_ring_size (dasm_shared w) →
  ∃ w',
    dasm_u2p_enqueue_req hash params endt_us w = Ret true w' ∧
    u2p_ring_queue (dasm_shared w') (reqs ++ [(hash, params)]) ∧
    u2p_ring_size (dasm_shared w') = u2p_ring_size (dasm_shared w) ∧
    ring_only w w' ∧
    os_trace w'
    = os_trace w ++ [Ev_condition_variable_broadcast (u2p_ring_cv (dasm_shared w))].
Proof.
  intros Hok Hqueue Hwf Hroom.
  destruct (u2p_enqueue_queue w reqs hash params endt_us Hok Hqueue Hwf Hroom)
    as (Hrun & Hqueue' & Hring).
  eexists. split; [exact Hrun|]. by split_and!.
Qed.

(** A dequeue from a ring that holds requests returns the oldest one, with
    every field and every byte of the path as it was enqueued, and leaves
    the others queued.  It touches nothing but the read position. *)
Theorem u2p_dequeue_pops_the_oldest (w : World) (hash : U128) (params : Params.t)
    (reqs : list (U128 * Params.t)) :
  u2p_ring_ok (dasm_shared w) →
  u2p_ring_queue (dasm_shared w) ((hash, params) :: reqs) →
  ∃ w',
    dasm_u2p_dequeue_req w = Ret (hash, params) w' ∧
    u2p_ring_queue (dasm_shared w') reqs ∧
    u2p_ring_size (dasm_shared w') = u2p_ring_size (dasm_shared w) ∧
    u2p_ring_write_pos (dasm_shared w') = u2p_ring_write_pos (dasm_shared w) ∧
    u2p_ring_base (dasm_shared w') = u2p_ring_base (dasm_shared w) ∧
    ring_only w w'.
Proof.
  intros Hok Hqueue.
  destruct (u2p_dequeue_queue w hash params reqs Hok Hqueue) as (Hrun & Hqueue' & Hring).
  eexists. split; [exact Hrun|]. by split_and!.
Qed.

(** The ring is first in, first out: after the requests [reqs] were
    enqueued behind the requests [queued] already waiting, as many dequeues
    as there are requests return first the waiting ones and then [reqs],
    each in the order it was enqueued, and leave the ring empty. *)
Theorem u2p_ring_is_first_in_first_out (w : World)
    (queued reqs : list (U128 * Params.t)) (endt_us : Z) :
  u2p_ring_ok (dasm_shared w) →
  u2p_ring_queue (dasm_shared w) queued →
  Forall (λ req, u2p_req_wf req.1 req.2) reqs →
  u2p_queue_size queued + u2p_queue_size reqs ≤ u2p_ring_size (dasm_shared w) →
  ∃ w1 w2,
    u2p_enqueue_all reqs endt_us w = Ret tt w1 ∧
    u2p_dequeue_n (length queued + length reqs) w1 = Ret (queued ++ reqs) w2 ∧
    u2p_ring_read_pos (dasm_shared w2) = u2p_ring_write_pos (dasm_shared w2).
Proof.
  intros Hok Hqueue Hwf Hroom.
  destruct (u2p_enqueue_all_run reqs endt_us w queued Hok Hqueue Hwf Hroom)
    as (w1 & Hrun1 & Hok1 & Hqueue1).
  destruct (u2p_dequeue_n_run (queued ++ reqs) w1 Hok1 Hqueue1) as (w2 & Hrun2 & Hqueue2).
  exists w1, w2. rewrite <-length_app. split_and!; [done..|].
  destruct Hqueue2 as (Hrp & _ & Hwp & _). rewrite Hwp. cbn [u2p_queue_size].
  rewrite Z.add_0_r. unfold wrap64. by rewrite Z.mod_small.
Qed.

(** A dequeue from an empty ring does not return: it waits on the ring's
    condition variable, under the ring's mutex and without a deadline, and
    has changed nothing. *)
Theorem u2p_dequeue_waits_on_an_empty_ring (w : World) :
  u2p_ring_queue (dasm_shared w) [] →
  ∃ w',
    dasm_u2p_dequeue_req w = Blocked w' ∧
    dasm_shared w' = dasm_shared w ∧
    node_mem w' = node_mem w ∧
    os_trace w'
    = os_trace w ++ [Ev_condition_variable_wait (u2p_ring_cv (dasm_shared w))
                       (u2p_ring_mutex (dasm_shared w)) max_U64].
Proof.
  intros (Hrp & _ & Hwp & _). cbn [u2p_queue_size] in Hwp.
  pose proof (u2p_req_advance_bounds (u128_zero, Params.zero)) as (_ & _ & _ & _ & Hfixed0).
  unfold dasm_u2p_dequeue_req.
  rewrite (M_bind_run get_shared _ w w (dasm_shared w)) by done.
  rewrite Hwp, wrap64_unconsumed by lia.
  destruct (Z.geb_spec 0 u2p_req_fixed_size); [lia|].
  eexists. split; [reflexivity|]. done.
Qed.

Lemma u2p_enqueue_false_inv (w w' : World) (hash : U128)
    (params : Params.t) (endt_us : Z) :
  dasm_u2p_enqueue_req hash params endt_us w = Ret false w' →
  let s := dasm_shared w in
  wrap64 (u2p_ring_size s - wrap64 (u2p_ring_write_pos s - u2p_ring_read_pos s))
  < wrap64 (u2p_req_fixed_size + str8_size (DI_Key.path (Params.dbgi_key params))) ∧
  endt_us ≤ os_clock (os_ticks w) ∧
  dasm_shared w' = dasm_shared w ∧
  node_mem w' = node_mem w ∧
  os_trace w' = os_trace w.
Proof.
  unfold dasm_u2p_enqueue_req.
  rewrite (M_bind_run get_shared _ w w (dasm_shared w)) by done.
  destruct (Z.geb_spec
              (wrap64 (u2p_ring_size (dasm_shared w)
                       - wrap64 (u2p_ring_write_pos (dasm_shared w)
                                 - u2p_ring_read_pos (dasm_shared w))))
              (wrap64 (u2p_req_fixed_size
                       + str8_size (DI_Key.path (Params.dbgi_key params)))))
    as [Hroom|Hfull].
  - intros Hrun. exfalso.
    repeat (apply bind_Ret_inv in Hrun as (? & ? & _ & Hrun)).
    unfold mret, M_mret, M_ret in Hrun. discriminate Hrun.
  - unfold os_now_microseconds at 1.
    unfold mbind, M_mbind, M_bind.
    destruct (Z.geb_spec (os_clock (os_ticks w)) endt_us) as [Hlate|Hearly].
    + intros [= <-]. cbv zeta. split_and!; [lia|lia|done..].
    + discriminate.
Qed.

(** An enqueue that returns false has given up at its deadline: the ring
    had no room for the record, the last reading of the clock before the
    return had reached [endt_us], and neither the ring nor the table has
    changed. *)
Theorem u2p_enqueue_fails_only_at_the_deadline (w w' : World) (hash : U128)
    (params : Params.t) (endt_us : Z) :
  dasm_u2p_enqueue_req hash params endt_us w = Ret false w' →
  let s := dasm_shared w in
  wrap64 (u2p_ring_size s - wrap64 (u2p_ring_write_pos s - u2p_ring_read_pos s))
  < wrap64 (u2p_req_fixed_size + str8_size (DI_Key.path (Params.dbgi_key params))) ∧
  endt_us ≤ os_clock (Nat.pred (os_ticks w')) ∧
  dasm_shared w' = dasm_shared w ∧
  node_mem w' = node_mem w.
Proof.
  intros Hrun. cbv zeta. pose proof (u2p_enqueue_false_inv _ _ _ _ _ Hrun) as Hinv.
  cbv zeta in Hinv. destruct Hinv as (Hfull & Hlate & Hshared & Hmem & _).
  split_and!; [exact Hfull| |exact Hshared|exact Hmem].
  revert Hrun. unfold dasm_u2p_enqueue_req.
  rewrite (M_bind_run get_shared _ w w (dasm_shared w)) by done.
  destruct (Z.geb_spec
              (wrap64 (u2p_ring_size (dasm_shared w)
                       - wrap64 (u2p_ring_write_pos (dasm_shared w)
                                 - u2p_ring_read_pos (dasm_shared w))))
              (wrap64 (u2p_req_fixed_size
                       + str8_size (DI_Key.path (Params.dbgi_key params)))))
    as [Hroom|_]; [lia|].
  unfold os_now_microseconds at 1. unfold mbind, M_mbind, M_bind.
  destruct (Z.geb_spec (os_clock (os_ticks w)) endt_us) as [_|Hearly]; [|done].
  by intros [= <-].
Qed.

(** ** Initialization and the user clock *)

Lemma dasm_init_stripes_run (n : nat) :
  ∀ w : World,
    dasm_init_stripes n w
    = Ret (dasm_init_stripes_from (alloc_top w) n)
        (world_allocated w (alloc_top w + 3 * Z.of_nat n)).
Proof.
  induction n as [|n IH]; intros w.
  - cbn. unfold world_allocated. rewrite Z.add_0_r. by destruct w.
  - cbn [dasm_init_stripes dasm_init_stripes_from].
    unfold arena_alloc, alloc_fresh at 1 2 3, mbind, M_mbind, M_bind.
    cbn [alloc_top]. rewrite IH. cbn [alloc_top dasm_shared node_mem scope_mem fs_gen
                                        os_ticks os_trace world_allocated].
    unfold mret, M_mret, M_ret, world_allocated.
    cbn [alloc_top dasm_shared node_mem scope_mem fs_gen os_ticks os_trace].
    replace (alloc_top w + 1 + 1 + 1) with (alloc_top w + 3) by lia.
    replace (alloc_top w + 3 + 3 * Z.of_nat n) with (alloc_top w + 3 * Z.of_nat (S n))
      by lia.
    replace (alloc_top w + 1 + 1) with (alloc_top w + 2) by lia.
    done.
Qed.

Lemma length_dasm_init_stripes_from (top : Z) (n : nat) :
  length (dasm_init_stripes_from top n) = n.
Proof. revert top. induction n as [|n IH]; intros top; cbn; [done|]. by rewrite IH. Qed.

Lemma dasm_init_stripes_from_handles (top : Z) (n : nat) (stripe : DASM_Stripe) :
  stripe ∈ dasm_init_stripes_from top n →
  free_node stripe = [] ∧
  ∃ i, 0 ≤ i < Z.of_nat n ∧
       stripe_arena stripe = top + 3 * i + 1 ∧
       rw_mutex stripe = top + 3 * i + 2 ∧
       stripe_cv stripe = top + 3 * i + 3.
Proof.
  revert top. induction n as [|n IH]; intros top Hin; cbn in Hin.
  - by apply elem_of_nil in Hin.
  - apply elem_of_cons in Hin as [->|Hin].
    + split; [done|]. exists 0. cbn. lia.
    + destruct (IH _ Hin) as [Hfree (i & Hi & Ha & Hm & Hc)]. split; [done|].
      exists (i + 1). lia.
Qed.

Lemma elem_of_stripe_handles (handle : Z) (l : list DASM_Stripe) :
  handle ∈ concat (map stripe_handles l) →
  ∃ stripe, stripe ∈ l ∧ handle ∈ stripe_handles stripe.
Proof.
  induction l as [|stripe l IH]; cbn [map concat]; intros Hin.
  - by apply elem_of_nil in Hin.
  - apply elem_of_app in Hin as [Hin|Hin].
    + exists stripe. split; [left|done].
    + destruct (IH Hin) as (stripe' & ? & ?). exists stripe'. split; [by right|done].
Qed.

Lemma dasm_init_stripes_from_later (top : Z) (n : nat) (handle : Z) :
  handle ∈ concat (map stripe_handles (dasm_init_stripes_from top n)) →
  top < handle ≤ top + 3 * Z.of_nat n.
Proof.
  intros Hin. apply elem_of_stripe_handles in Hin as (stripe & Hstripe & Hin).
  apply dasm_init_stripes_from_handles in Hstripe as [_ (i & Hi & Ha & Hm & Hc)].
  unfold stripe_handles in Hin. rewrite Ha, Hm, Hc in Hin.
  repeat (apply elem_of_cons in Hin as [->|Hin]; [lia|]). by apply elem_of_nil in Hin.
Qed.

Lemma NoDup_dasm_init_stripes_from (top : Z) (n : nat) :
  NoDup (concat (map stripe_handles (dasm_init_stripes_from top n))).
Proof.
  revert top. induction n as [|n IH]; intros top; [constructor|].
  simpl. repeat (apply NoDup_cons; split); [..|apply IH]; intros Hin;
    repeat (apply elem_of_cons in Hin as [?|Hin]; [lia|]);
    apply dasm_init_stripes_from_later in Hin; lia.
Qed.

Lemma dasm_init_stripes_from_lookup (top : Z) (n i : nat) :
  (i < n)%nat →
  dasm_init_stripes_from top n !! i
  = Some (mkStripe (top + 3 * Z.of_nat i + 1) (top + 3 * Z.of_nat i + 2)
            (top + 3 * Z.of_nat i + 3) []).
Proof.
  revert top i. induction n as [|n IH]; intros top i Hi; [lia|].
  destruct i as [|i]; cbn [dasm_init_stripes_from lookup list_lookup].
  - do 2 f_equal; lia.
  - fold (@lookup nat DASM_Stripe (list DASM_Stripe) _).
    rewrite IH by lia. do 2 f_equal; lia.
Qed.

(** [dasm_init] always returns, and on a machine with at least one core it
    leaves the table and the ring in the state every other function relies
    on: 1024 empty slots, [min(1024, cores)] stripes with empty free lists,
    an empty ring of 64 KB whose two positions are 0, and the user clock at
    0.  Every handle it stores is a fresh one, and no two of them are the
    same; in particular the ring's mutex is not its condition variable. *)
Theorem dasm_init_sets_up_the_table_and_the_ring (w : World) :
  1 ≤ os_logical_core_count →
  ∃ w',
    dasm_init w = Ret tt w' ∧
    table_wf w' ∧
    slots_count (dasm_shared w') = 1024 ∧
    stripes_count (dasm_shared w') = Z.min 1024 os_logical_core_count ∧
    (∀ slot, slot ∈ slots (dasm_shared w') → slot_list slot = []) ∧
    (∀ stripe, stripe ∈ stripes (dasm_shared w') → free_node stripe = []) ∧
    u2p_ring_ok (dasm_shared w') ∧
    u2p_ring_queue (dasm_shared w') [] ∧
    u2p_ring_size (dasm_shared w') = 65536 ∧
    u2p_ring_write_pos (dasm_shared w') = 0 ∧
    u2p_ring_read_pos (dasm_shared w') = 0 ∧
    user_clock_idx (dasm_shared w') = 0 ∧
    NoDup (concat (map stripe_handles (stripes (dasm_shared w')))
           ++ [u2p_ring_cv (dasm_shared w'); u2p_ring_mutex (dasm_shared w')]) ∧
    (∀ handle,
       handle ∈ concat (map stripe_handles (stripes (dasm_shared w')))
                ++ [u2p_ring_cv (dasm_shared w'); u2p_ring_mutex (dasm_shared w')] →
       alloc_top w < handle ≤ alloc_top w') ∧
    node_mem w' = node_mem w ∧
    os_trace w' = os_trace w.
Proof.
  intros Hcores. unfold dasm_init.
  rewrite (M_bind_run arena_alloc _ w (world_allocated w (alloc_top w + 1))
             (alloc_top w + 1)) by reflexivity.
  cbv zeta.
  rewrite (M_bind_run _ _ _ _ _ (dasm_init_stripes_run _ _)).
  cbn [alloc_top world_allocated].
  set (n := Z.to_nat (Z.min 1024 os_logical_core_count)).
  assert (1 ≤ Z.of_nat n ≤ 1024) as Hn by lia.
  set (top := alloc_top w + 1).
  eexists. split; [reflexivity|]. unfold world_allocated.
  cbn [dasm_shared node_mem os_trace alloc_top slots_count stripes_count slots stripes
       u2p_ring_size u2p_ring_base u2p_ring_write_pos u2p_ring_read_pos u2p_ring_cv
       u2p_ring_mutex user_clock_idx].
  assert (∀ handle,
    handle ∈ concat (map stripe_handles (dasm_init_stripes_from top n)) →
    top < handle ≤ top + 3 * Z.of_nat n) as Hrange
    by apply dasm_init_stripes_from_later.
  split_and!.
  - unfold table_wf. cbn [dasm_shared slots_count stripes_count slots stripes].
    rewrite length_replicate, length_dasm_init_stripes_from. split_and!; [done|lia|lia].
  - done.
  - done.
  - intros slot Hslot. by apply elem_of_replicate in Hslot as [-> _].
  - intros stripe Hstripe. by apply dasm_init_stripes_from_handles in Hstripe as [? _].
  - unfold u2p_ring_ok, KB. cbn [u2p_ring_size].
    split_and!; [lia|lia|by exists (2 ^ 48)|by exists 8192].
  - unfold u2p_ring_queue, KB.
    cbn [u2p_ring_read_pos u2p_ring_write_pos u2p_ring_size u2p_ring_base u2p_queue_size
         ring_holds].
    split_and!; [lia|lia|done|done|lia|done|constructor].
  - done.
  - done.
  - done.
  - done.
  - apply NoDup_app. split_and!.
    + apply NoDup_dasm_init_stripes_from.
    + intros handle Hin Hin'. apply Hrange in Hin.
      repeat (apply elem_of_cons in Hin' as [->|Hin']; [lia|]). by apply elem_of_nil in Hin'.
    + apply NoDup_cons. split; [|apply NoDup_singleton].
      intros Hin. apply list_elem_of_singleton in Hin. lia.
  - intros handle Hin. apply elem_of_app in Hin as [Hin|Hin].
    + apply Hrange in Hin. unfold top in Hin. lia.
    + repeat (apply elem_of_cons in Hin as [->|Hin]; [unfold top; lia|]).
      by apply elem_of_nil in Hin.
  - done.
  - done.
Qed.

(** The user clock counts its ticks modulo [2 ^ 64]: after [n] ticks
    [dasm_user_clock_idx] returns the old index plus [n], wrapped, and the
    ticks have changed nothing else. *)
Theorem user_clock_counts_the_ticks (n : nat) (w : World) :
  0 ≤ user_clock_idx (dasm_shared w) < 2 ^ 64 →
  ∃ w',
    repeat_M n dasm_user_clock_tick w = Ret tt w' ∧
    dasm_user_clock_idx w'
    = Ret (wrap64 (user_clock_idx (dasm_shared w) + Z.of_nat n)) w' ∧
    w' = mkWorld
           (set_user_clock_idx (dasm_shared w)
              (wrap64 (user_clock_idx (dasm_shared w) + Z.of_nat n)))
           (node_mem w) (scope_mem w) (alloc_top w) (fs_gen w) (os_ticks w)
           (os_trace w).
Proof.
  revert w. induction n as [|n IH]; intros w Hidx.
  - exists w. split; [done|].
    rewrite Z.add_0_r. unfold wrap64. rewrite Z.mod_small by done.
    split; [done|]. by destruct w as [[] ? ? ? ? ? ?].
  - cbn [repeat_M].
    rewrite (M_bind_run dasm_user_clock_tick _ w
               (mkWorld
                  (set_user_clock_idx (dasm_shared w)
                     (wrap64 (user_clock_idx (dasm_shared w) + 1)))
                  (node_mem w) (scope_mem w) (alloc_top w) (fs_gen w) (os_ticks w)
                  (os_trace w)) tt) by reflexivity.
    edestruct IH as (w' & Hrun & Hidx' & Hw'); [|exists w'; split; [exact Hrun|]].
    + cbn [dasm_shared set_user_clock_idx user_clock_idx]. unfold wrap64.
      by apply Z.mod_pos_bound.
    + cbn [dasm_shared set_user_clock_idx user_clock_idx node_mem scope_mem alloc_top
           fs_gen os_ticks os_trace slots_count stripes_count slots stripes
           u2p_ring_size u2p_ring_base u2p_ring_write_pos u2p_ring_read_pos
           u2p_ring_cv u2p_ring_mutex] in Hidx', Hw'.
      rewrite wrap64_add_l in Hidx', Hw'.
      replace (user_clock_idx (dasm_shared w) + 1 + Z.of_nat n)
        with (user_clock_idx (dasm_shared w) + Z.of_nat (S n)) in Hidx', Hw' by lia.
      done.
Qed.

(** ** Lookups by hash *)

Lemma lookup_hit_run (scope : Z) (hash : U128) (params : Params.t)
    (w : World) (n : Z) :
  u128_match hash u128_zero = false →
  node_of_key w hash params = Some n →
  ∃ w',
    dasm_info_from_hash_params scope hash params w
    = Ret (Node.info (node_at (node_mem w) n)) w' ∧
    node_at (node_mem w') n
    = node_touched (os_clock (os_ticks w)) (user_clock_idx (dasm_shared w))
        (node_at (node_mem w) n) ∧
    (∀ m, m ≠ n → node_at (node_mem w') m = node_at (node_mem w) m) ∧
    scope_mem w'
    = <[scope := Touch.mk (Node.hash (node_at (node_mem w) n))
                   (Node.params (node_at (node_mem w) n))
                 :: default [] (scope_mem w !! scope)]> (scope_mem w) ∧
    dasm_shared w' = dasm_shared w ∧
    alloc_top w' = alloc_top w ∧
    os_trace w' = os_trace w.
Proof.
  intros Hhash Hnode. unfold node_of_key, node_matches in Hnode.
  unfold dasm_info_from_hash_params. rewrite Hhash. cbn [negb].
  rewrite (M_bind_run get_shared _ w w (dasm_shared w)) by done. cbv zeta.
  rewrite (M_bind_run get_node_mem _ w w (node_mem w)) by done.
  rewrite Hnode.
  eexists. split; [reflexivity|].
  cbn [node_mem dasm_shared scope_mem alloc_top os_trace os_ticks].
  split_and!; [| | |done..].
  - rewrite !node_at_insert. by repeat case_decide.
  - intros m Hm. rewrite !node_at_insert. by repeat case_decide.
  - rewrite !node_at_insert. by repeat case_decide.
Qed.

Lemma lookup_miss_run (scope : Z) (hash : U128) (params : Params.t)
    (reqs : list (U128 * Params.t)) (w : World) :
  let s := dasm_shared w in
  let slot_idx := u64_1 hash mod slots_count s in
  let stripe_idx := slot_idx mod stripes_count s in
  let a := match free_node (stripe_at s stripe_idx) with
           | n :: _ => n
           | [] => alloc_top w + 1
           end in
  u128_match hash u128_zero = false →
  node_of_key w hash params = None →
  table_wf w →
  0 < slots_count s →
  u2p_ring_ok s →
  u2p_ring_queue s reqs →
  u2p_req_wf hash params →
  u2p_queue_size reqs + str8_size (u2p_req_bytes hash params) ≤ u2p_ring_size s →
  ∃ w',
    dasm_info_from_hash_params scope hash params w = Ret Info.zero w' ∧
    slot_list (slot_at (dasm_shared w') slot_idx) = slot_list (slot_at s slot_idx) ++ [a] ∧
    (∀ i, 0 ≤ i → i ≠ slot_idx →
          slot_at (dasm_shared w') i = slot_at s i) ∧
    free_node (stripe_at (dasm_shared w') stripe_idx)
    = tail (free_node (stripe_at s stripe_idx)) ∧
    (∀ k, 0 ≤ k → k ≠ stripe_idx →
          stripe_at (dasm_shared w') k = stripe_at s k) ∧
    node_at (node_mem w') a = Node.mk hash params 0 Info.zero 0 0 0 0 0 0 0 0 ∧
    (∀ m, m ≠ a → node_at (node_mem w') m = node_at (node_mem w) m) ∧
    u2p_ring_queue (dasm_shared w') (reqs ++ [(hash, params)]) ∧
    slots_count (dasm_shared w') = slots_count s ∧
    stripes_count (dasm_shared w') = stripes_count s ∧
    scope_mem w' = scope_mem w ∧
    os_trace w' = os_trace w ++ [Ev_condition_variable_broadcast (u2p_ring_cv s)] ∧
    u2p_ring_size (dasm_shared w') = u2p_ring_size s.
Proof.
  intros s slot_idx stripe_idx a Hhash Hnone (Hslots & Hstripes & Hstripes0) Hslots0
    Hok Hqueue Hwf Hroom.
  unfold node_of_key, node_matches in Hnone. fold s slot_idx in Hnone.
  assert (0 ≤ slot_idx < slots_count s) as Hslot_idx by (by apply Z.mod_pos_bound).
  assert (0 ≤ stripe_idx < stripes_count s) as Hstripe_idx by (by apply Z.mod_pos_bound).
  assert (Z.to_nat slot_idx < length (slots s))%nat as Hslot_lt
    by (fold s in Hslots; rewrite Hslots; lia).
  assert (Z.to_nat stripe_idx < length (stripes s))%nat as Hstripe_lt
    by (fold s in Hstripes; rewrite Hstripes; lia).
  unfold dasm_info_from_hash_params. rewrite Hhash. cbn [negb].
  rewrite (M_bind_run get_shared _ w w (dasm_shared w)) by done. cbv zeta.
  rewrite (M_bind_run get_node_mem _ w w (node_mem w)) by done.
  fold s slot_idx stripe_idx. rewrite Hnone.
  rewrite (M_bind_run (mret (Info.zero, false)) _ w w (Info.zero, false)) by done.
  cbn [negb].
  (* the write-locked block *)
  set (w1 :=
    mkWorld
      (set_slots
         (match free_node (stripe_at s stripe_idx) with
          | _ :: _ =>
              set_stripes s
                (<[Z.to_nat stripe_idx := SLLStackPop (stripe_at s stripe_idx)]> (stripes s))
          | [] => s
          end)
         (<[Z.to_nat slot_idx := DLLPushBack (slot_at s slot_idx) a]> (slots s)))
      (<[a := Node.mk hash params 0 Info.zero 0 0 0 0 0 0 0 0]> (node_mem w))
      (scope_mem w)
      (match free_node (stripe_at s stripe_idx) with
       | _ :: _ => alloc_top w
       | [] => alloc_top w + 1
       end)
      (fs_gen w) (os_ticks w) (os_trace w)).
  destruct (u2p_enqueue_queue w1 reqs hash params max_U64)
    as (Henq & Hqueue' & Hring).
  { unfold w1. by destruct (free_node (stripe_at s stripe_idx)). }
  { unfold w1. by destruct (free_node (stripe_at s stripe_idx)). }
  { done. }
  { unfold w1. by destruct (free_node (stripe_at s stripe_idx)). }
  set (w' := ring_world w1 _ _ _ _) in *.
  exists w'.
  assert (scope_mem w' = scope_mem w1) as Hscope by done.
  assert (os_trace w'
          = os_trace w1 ++ [Ev_condition_variable_broadcast (u2p_ring_cv (dasm_shared w1))])
    as Htrace by done.
  destruct Hring as (Hsc & Hstc & Hsl & Hst & Hmem & _).
  split; [|split_and!].
  - rewrite (M_bind_run _ _ w w1 true).
    + cbv beta iota.
      rewrite (M_bind_run (dasm_u2p_enqueue_req hash params max_U64;; mret tt) _ w1 w' tt);
        [done|].
      by rewrite (M_bind_run _ _ _ _ _ Henq).
    + rewrite (M_bind_run get_shared _ w w (dasm_shared w)) by done.
      rewrite (M_bind_run get_node_mem _ w w (node_mem w)) by done.
      fold s slot_idx stripe_idx. rewrite Hnone. unfold w1, a.
      destruct (free_node (stripe_at s stripe_idx)) as [|n free]; reflexivity.
  - unfold slot_at. rewrite Hsl. unfold w1. cbn [dasm_shared slots set_slots].
    rewrite list_lookup_insert_eq by done. done.
  - intros i Hi Hne. unfold slot_at. rewrite Hsl. unfold w1. cbn [dasm_shared slots set_slots].
    rewrite list_lookup_insert_ne by lia.
    by destruct (free_node (stripe_at s stripe_idx)).
  - unfold stripe_at at 1. rewrite Hst. unfold w1. cbn [dasm_shared].
    destruct (free_node (stripe_at s stripe_idx)) as [|n free] eqn:Hfree;
      cbn [stripes set_slots set_stripes].
    + exact Hfree.
    + rewrite list_lookup_insert_eq by done.
      unfold SLLStackPop. cbn [default id free_node]. by rewrite Hfree.
  - intros k Hk Hne. unfold stripe_at. rewrite Hst. unfold w1.
    cbn [dasm_shared stripes set_slots].
    destruct (free_node (stripe_at s stripe_idx)) as [|n free]; [done|].
    cbn [stripes set_stripes]. by rewrite list_lookup_insert_ne by lia.
  - rewrite Hmem. unfold w1. cbn [node_mem]. rewrite node_at_insert. by case_decide.
  - intros m Hm. rewrite Hmem. unfold w1. cbn [node_mem]. rewrite node_at_insert.
    by case_decide.
  - done.
  - rewrite Hsc. unfold w1. cbn [dasm_shared].
    by destruct (free_node (stripe_at s stripe_idx)).
  - rewrite Hstc. unfold w1. cbn [dasm_shared].
    by destruct (free_node (stripe_at s stripe_idx)).
  - by rewrite Hscope.
  - rewrite Htrace. unfold w1. cbn [os_trace dasm_shared].
    by destruct (free_node (stripe_at s stripe_idx)).
  - unfold w', ring_world, w1. cbn [dasm_shared u2p_ring_size].
    by destruct (free_node (stripe_at s stripe_idx)).
Qed.

Lemma slot_first_snoc (p : Node.t → bool) (mem mem' : gmap Z Node.t) (l : list Z)
    (a : Z) :
  slot_first p mem l = None →
  p (node_at mem' a) = true →
  (∀ m, m ≠ a → node_at mem' m = node_at mem m) →
  slot_first p mem' (l ++ [a]) = Some a.
Proof.
  intros Hnone Ha Hother. induction l as [|x l IH]; cbn [app slot_first] in *.
  - by rewrite Ha.
  - destruct (p (node_at mem x)) eqn:Hx; [done|].
    destruct (decide (x = a)) as [->|Hne]; [by rewrite Ha|].
    rewrite Hother, Hx by done. by apply IH.
Qed.

(** On a table laid out as [dasm_init] lays it out, a lookup that finds a
    node returns the node's info as it is stored,
    pins the node (its [scope_ref_count] goes up by one), stamps it with
    the time and the user clock, and records the node's key on the scope.
    It creates no node, enqueues no request and leaves every other node,
    the table and the ring as they were. *)
Theorem lookup_hit_pins_the_node (scope : Z) (hash : U128) (params : Params.t)
    (w : World) (n : Z) :
  dasm_shared_laid_out w →
  u128_match hash u128_zero = false →
  node_of_key w hash params = Some n →
  ∃ w',
    dasm_info_from_hash_params scope hash params w
    = Ret (Node.info (node_at (node_mem w) n)) w' ∧
    node_at (node_mem w') n
    = node_touched (os_clock (os_ticks w)) (user_clock_idx (dasm_shared w))
        (node_at (node_mem w) n) ∧
    (∀ m, m ≠ n → node_at (node_mem w') m = node_at (node_mem w) m) ∧
    scope_mem w'
    = <[scope := Touch.mk (Node.hash (node_at (node_mem w) n))
                   (Node.params (node_at (node_mem w) n))
                 :: default [] (scope_mem w !! scope)]> (scope_mem w) ∧
    dasm_shared w' = dasm_shared w ∧
    alloc_top w' = alloc_top w ∧
    os_trace w' = os_trace w.
Proof. intros _. apply lookup_hit_run. Qed.

(** A lookup that finds no node, on a ring with room for the request,
    returns the empty info at once.  It has linked one new node at the end
    of the slot of the hash: the top of the stripe's free list if there is
    one, otherwise a fresh node; the node carries the key and is zero
    otherwise (not loaded, not being worked on, not pinned).  The request
    for the key has been appended to the ring's queue.  The scope is not
    touched: a miss pins nothing.  The size of the ring stays. *)
Theorem lookup_miss_links_a_node_and_requests_it (scope : Z) (hash : U128)
    (params : Params.t) (reqs : list (U128 * Params.t)) (w : World) :
  let s := dasm_shared w in
  let slot_idx := u64_1 hash mod slots_count s in
  let stripe_idx := slot_idx mod stripes_count s in
  let a := match free_node (stripe_at s stripe_idx) with
           | n :: _ => n
           | [] => alloc_top w + 1
           end in
  u128_match hash u128_zero = false →
  node_of_key w hash params = None →
  table_wf w →
  0 < slots_count s →
  u2p_ring_ok s →
  u2p_ring_queue s reqs →
  u2p_req_wf hash params →
  u2p_queue_size reqs + str8_size (u2p_req_bytes hash params) ≤ u2p_ring_size s →
  ∃ w',
    dasm_info_from_hash_params scope hash params w = Ret Info.zero w' ∧
    slot_list (slot_at (dasm_shared w') slot_idx) = slot_list (slot_at s slot_idx) ++ [a] ∧
    (∀ i, 0 ≤ i → i ≠ slot_idx →
          slot_at (dasm_shared w') i = slot_at s i) ∧
    free_node (stripe_at (dasm_shared w') stripe_idx)
    = tail (free_node (stripe_at s stripe_idx)) ∧
    (∀ k, 0 ≤ k → k ≠ stripe_idx →
          stripe_at (dasm_shared w') k = stripe_at s k) ∧
    node_at (node_mem w') a = Node.mk hash params 0 Info.zero 0 0 0 0 0 0 0 0 ∧
    (∀ m, m ≠ a → node_at (node_mem w') m = node_at (node_mem w) m) ∧
    u2p_ring_queue (dasm_shared w') (reqs ++ [(hash, params)]) ∧
    slots_count (dasm_shared w') = slots_count s ∧
    stripes_count (dasm_shared w') = stripes_count s ∧
    scope_mem w' = scope_mem w ∧
    os_trace w' = os_trace w ++ [Ev_condition_variable_broadcast (u2p_ring_cv s)] ∧
    u2p_ring_size (dasm_shared w') = u2p_ring_size s.
Proof. apply lookup_miss_run. Qed.

(** Looking the same key up again after a miss finds the node the miss
    has linked: the second lookup pins that node, still returns the empty
    info, links no second node and enqueues no second request. *)
Theorem lookup_again_finds_the_linked_node (scope : Z) (hash : U128)
    (params : Params.t) (reqs : list (U128 * Params.t)) (w : World) :
  let s := dasm_shared w in
  let slot_idx := u64_1 hash mod slots_count s in
  let stripe_idx := slot_idx mod stripes_count s in
  let a := match free_node (stripe_at s stripe_idx) with
           | n :: _ => n
           | [] => alloc_top w + 1
           end in
  u128_match hash u128_zero = false →
  node_of_key w hash params = None →
  dasm_params_match params params = true →
  table_wf w →
  0 < slots_count s →
  u2p_ring_ok s →
  u2p_ring_queue s reqs →
  u2p_req_wf hash params →
  u2p_queue_size reqs + str8_size (u2p_req_bytes hash params) ≤ u2p_ring_size s →
  ∃ w1 w2,
    dasm_info_from_hash_params scope hash params w = Ret Info.zero w1 ∧
    dasm_info_from_hash_params scope hash params w1 = Ret Info.zero w2 ∧
    slot_list (slot_at (dasm_shared w2) slot_idx) = slot_list (slot_at s slot_idx) ++ [a] ∧
    u2p_ring_queue (dasm_shared w2) (reqs ++ [(hash, params)]) ∧
    Node.scope_ref_count (node_at (node_mem w2) a) = 1 ∧
    os_trace w2 = os_trace w1.
Proof.
  intros s slot_idx stripe_idx a Hhash Hnone Hrefl Hwf Hslots0 Hok Hqueue Hreq Hroom.
  destruct (lookup_miss_run scope hash params reqs w Hhash Hnone Hwf Hslots0 Hok Hqueue
              Hreq Hroom)
    as (w1 & Hrun1 & Hslot & _ & _ & _ & Hnode & Hother & Hqueue1 & Hsc & _ & _ & _).
  fold s slot_idx stripe_idx a in Hslot, Hnode, Hother, Hsc.
  assert (node_of_key w1 hash params = Some a) as Hfound.
  { unfold node_of_key. rewrite Hsc. fold s slot_idx. rewrite Hslot.
    apply (slot_first_snoc _ (node_mem w)); [exact Hnone| |exact Hother].
    rewrite Hnode. unfold node_matches. cbn [Node.hash Node.params].
    rewrite Hrefl. unfold u128_match. by rewrite !Z.eqb_refl. }
  destruct (lookup_hit_run scope hash params w1 a Hhash Hfound)
    as (w2 & Hrun2 & Hnode2 & _ & _ & Hshared & _ & Htrace).
  exists w1, w2. rewrite Hnode in Hrun2, Hnode2. cbn [Node.info] in Hrun2.
  split_and!; [done|done|by rewrite Hshared|by rewrite Hshared| |done].
  rewrite Hnode2. done.
Qed.

(** ** Scopes *)

Lemma node_set_scope_ref_count_id (node : Node.t) :
  Node.set_scope_ref_count (Node.scope_ref_count node) node = node.
Proof. by destruct node. Qed.

Lemma node_of_key_ext (w w' : World) (hash : U128) (params : Params.t) :
  dasm_shared w' = dasm_shared w →
  (∀ m, Node.hash (node_at (node_mem w') m) = Node.hash (node_at (node_mem w) m) ∧
        Node.params (node_at (node_mem w') m) = Node.params (node_at (node_mem w) m)) →
  node_of_key w' hash params = node_of_key w hash params.
Proof.
  intros Hshared Hkeys. unfold node_of_key. rewrite Hshared.
  apply slot_first_ext. intros a. unfold node_matches.
  destruct (Hkeys a) as [-> ->]. done.
Qed.

Lemma scope_close_touch_run (t : Touch.t) (w : World) :
  dasm_scope_close_touch t w
  = Ret tt
      (mkWorld (dasm_shared w)
         (match touch_node w t with
          | Some n =>
              <[n := Node.set_scope_ref_count
                       (wrap64 (Node.scope_ref_count (node_at (node_mem w) n) - 1))
                       (node_at (node_mem w) n)]> (node_mem w)
          | None => node_mem w
          end)
         (scope_mem w) (alloc_top w) (fs_gen w) (os_ticks w) (os_trace w)).
Proof.
  unfold dasm_scope_close_touch, touch_node, node_of_key, node_matches.
  rewrite (M_bind_run get_shared _ w w (dasm_shared w)) by done. cbv zeta.
  rewrite (M_bind_run get_node_mem _ w w (node_mem w)) by done.
  destruct (slot_first _ _ _); [done|]. by destruct w.
Qed.

Lemma scope_close_touches_run (touches : list Touch.t) :
  ∀ w : World,
    ∃ w',
      dasm_scope_close_touches touches w = Ret tt w' ∧
      dasm_shared w' = dasm_shared w ∧
      scope_mem w' = scope_mem w ∧
      alloc_top w' = alloc_top w ∧
      fs_gen w' = fs_gen w ∧
      os_ticks w' = os_ticks w ∧
      os_trace w' = os_trace w ∧
      ∀ m,
        node_at (node_mem w') m
        = Node.set_scope_ref_count
            (unpinned (touches_of w touches m)
               (Node.scope_ref_count (node_at (node_mem w) m)))
            (node_at (node_mem w) m).
Proof.
  induction touches as [|t touches IH]; intros w.
  - exists w. split_and!; [done..|]. intros m. cbn.
    by rewrite node_set_scope_ref_count_id.
  - cbn [dasm_scope_close_touches].
    rewrite (M_bind_run _ _ _ _ _ (scope_close_touch_run t w)).
    set (w1 := mkWorld _ _ _ _ _ _ _).
    destruct (IH w1) as (w' & Hrun & Hshared & Hscope & Htop & Hgen & Hticks & Htrace & Hnodes).
    exists w'. split_and!; [done..|]. intros m. rewrite Hnodes.
    assert (∀ t', touch_node w1 t' = touch_node w t') as Hstable.
    { intros t'. apply node_of_key_ext; [done|]. intros a. unfold w1. cbn [node_mem].
      destruct (touch_node w t) as [n|]; [|done].
      rewrite node_at_insert. by case_decide; subst. }
    assert (touches_of w1 touches m = touches_of w touches m) as ->.
    { unfold touches_of. f_equal. apply list_filter_iff. intros t'.
      by rewrite Hstable. }
    unfold touches_of at 2. rewrite filter_cons. fold (touches_of w touches m).
    unfold w1. cbn [node_mem].
    destruct (touch_node w t) as [n|] eqn:Htarget.
    + rewrite node_at_insert. destruct (decide (n = m)) as [->|Hne].
      * rewrite decide_True by done. cbn [length Node.scope_ref_count Node.set_scope_ref_count].
        unfold unpinned. rewrite Nat.iter_succ_r.
        by destruct (node_at (node_mem w) m).
      * rewrite decide_False by congruence. done.
    + rewrite decide_False by done. done.
Qed.

(** On a table laid out as [dasm_init] lays it out, closing a scope always
    returns.  For every touch of the scope it has
    taken one reference from the node the touch refers to (the first node
    of the touch's slot that matches the touch's key) and has left every
    other field of every node as it was; a touch whose node is gone is
    skipped.  The table, the ring and the trace are unchanged, and the
    scope's memory is given back. *)
Theorem scope_close_drops_one_reference_per_touch (scope : Z) (w : World) :
  dasm_shared_laid_out w →
  ∃ w',
    dasm_scope_close scope w = Ret tt w' ∧
    (∀ m,
       node_at (node_mem w') m
       = Node.set_scope_ref_count
           (unpinned (touches_of w (default [] (scope_mem w !! scope)) m)
              (Node.scope_ref_count (node_at (node_mem w) m)))
           (node_at (node_mem w) m)) ∧
    scope_mem w' = delete scope (scope_mem w) ∧
    dasm_shared w' = dasm_shared w ∧
    os_trace w' = os_trace w.
Proof.
  intros _. unfold dasm_scope_close.
  rewrite (M_bind_run get_world _ w w w) by done.
  destruct (scope_close_touches_run (default [] (scope_mem w !! scope)) w)
    as (w1 & Hrun & Hshared & Hscope & _ & _ & _ & Htrace & Hnodes).
  rewrite (M_bind_run _ _ _ _ _ Hrun).
  eexists. split; [reflexivity|]. cbn [node_mem scope_mem dasm_shared os_trace].
  split_and!; [done| |done..]. by rewrite Hscope.
Qed.

Lemma u128_match_eq (a b : U128) : u128_match a b = true → a = b.
Proof.
  unfold u128_match. intros [H0 H1]%andb_prop.
  apply Z.eqb_eq in H0, H1. destruct a, b. cbn in *. by subst.
Qed.


(** Matching parameters are interchangeable on the left of a match, when
    matching debug info keys are. *)
Lemma dasm_params_match_congruent (a b c : Params.t) :
  (∀ x y z, di_key_match x y = true → di_key_match y z = di_key_match x z) →
  dasm_params_match a b = true →
  dasm_params_match b c = dasm_params_match a c.
Proof.
  intros Hkey. unfold dasm_params_match.
  intros [[[[[Hv Ha]%andb_prop Hf]%andb_prop Hs]%andb_prop Hb]%andb_prop Hk]%andb_prop.
  apply Z.eqb_eq in Hv, Ha, Hf, Hs, Hb. rewrite Hv, Ha, Hf, Hs, Hb.
  by rewrite (Hkey _ _ _ Hk).
Qed.

Lemma slot_first_Some (p : Node.t → bool) (mem : gmap Z Node.t) (l : list Z) (n : Z) :
  slot_first p mem l = Some n → n ∈ l ∧ p (node_at mem n) = true.
Proof.
  induction l as [|x l IH]; cbn [slot_first]; [done|].
  destruct (p (node_at mem x)) eqn:Hx.
  - intros [= <-]. split; [left|done].
  - intros [Hin Hp]%IH. split; [by right|done].
Qed.

(** The touch a lookup leaves behind refers to the node the lookup found. *)
Lemma touch_node_of_found (w w' : World) (hash : U128) (params : Params.t) (n : Z) :
  (∀ x y z, di_key_match x y = true → di_key_match y z = di_key_match x z) →
  node_of_key w hash params = Some n →
  dasm_shared w' = dasm_shared w →
  (∀ m, Node.hash (node_at (node_mem w') m) = Node.hash (node_at (node_mem w) m) ∧
        Node.params (node_at (node_mem w') m) = Node.params (node_at (node_mem w) m)) →
  touch_node w' (Touch.mk (Node.hash (node_at (node_mem w) n))
                   (Node.params (node_at (node_mem w) n))) = Some n.
Proof.
  intros Hkey Hfound Hshared Hkeys. unfold touch_node. cbn [Touch.hash Touch.params].
  rewrite (node_of_key_ext w w') by done.
  pose proof Hfound as [_ Hn]%slot_first_Some. unfold node_matches in Hn.
  apply andb_prop in Hn as [Hhash%u128_match_eq Hparams].
  rewrite <-Hfound. unfold node_of_key. rewrite <-Hhash.
  apply slot_first_ext. intros a. unfold node_matches. f_equal.
  by apply dasm_params_match_congruent.
Qed.

(** Opening a scope, finding a node in it and closing the scope leaves the
    node's [scope_ref_count] as it was before: the pin the lookup has set
    (one more reference while the scope is open) is taken back by the
    close, from this node and from no other.  The table and the ring are
    unchanged, and the scope's memory is gone.  The table is laid out as
    [dasm_init] lays it out. *)
Theorem scope_close_takes_back_the_pin (dasm_tctx : option DASM_TCTX) (hash : U128)
    (params : Params.t) (w : World) (n : Z) :
  dasm_shared_laid_out w →
  u128_match hash u128_zero = false →
  node_of_key w hash params = Some n →
  (∀ x y z, di_key_match x y = true → di_key_match y z = di_key_match x z) →
  0 ≤ Node.scope_ref_count (node_at (node_mem w) n) < 2 ^ 64 →
  ∃ scope tctx w0 w1 w2,
    dasm_scope_open dasm_tctx w = Ret (scope, tctx) w0 ∧
    dasm_info_from_hash_params scope hash params w0
    = Ret (Node.info (node_at (node_mem w) n)) w1 ∧
    Node.scope_ref_count (node_at (node_mem w1) n)
    = wrap64 (Node.scope_ref_count (node_at (node_mem w) n) + 1) ∧
    dasm_scope_close scope w1 = Ret tt w2 ∧
    Node.scope_ref_count (node_at (node_mem w2) n)
    = Node.scope_ref_count (node_at (node_mem w) n) ∧
    (∀ m, m ≠ n → node_at (node_mem w2) m = node_at (node_mem w) m) ∧
    dasm_shared w2 = dasm_shared w ∧
    scope_mem w2 !! scope = None.
Proof.
  intros _ Hhash Hfound Hkey Hcount.
  (* open *)
  assert (∃ scope tctx w0,
    dasm_scope_open dasm_tctx w = Ret (scope, tctx) w0 ∧
    dasm_shared w0 = dasm_shared w ∧ node_mem w0 = node_mem w ∧
    scope_mem w0 !! scope = Some []) as (scope & tctx & w0 & Hopen & Hshared0 & Hmem0 & Hscope0).
  { unfold dasm_scope_open. destruct dasm_tctx as [tctx|].
    - eexists _, _, _. split; [reflexivity|]. cbn [dasm_shared node_mem scope_mem].
      split_and!; [done..|]. apply lookup_insert_eq.
    - eexists _, _, _. split; [reflexivity|]. cbn [dasm_shared node_mem scope_mem].
      split_and!; [done..|]. apply lookup_insert_eq. }
  assert (node_of_key w0 hash params = Some n) as Hfound0.
  { rewrite <-Hfound. apply node_of_key_ext; [done|]. intros m. by rewrite Hmem0. }
  (* lookup *)
  destruct (lookup_hit_run scope hash params w0 n Hhash Hfound0)
    as (w1 & Hrun & Hnode1 & Hother1 & Hscope1 & Hshared1 & _).
  rewrite Hmem0 in Hrun, Hnode1, Hother1, Hscope1. rewrite Hscope0 in Hscope1.
  cbn [default] in Hscope1.
  (* close *)
  destruct (scope_close_touches_run
              [Touch.mk (Node.hash (node_at (node_mem w) n))
                 (Node.params (node_at (node_mem w) n))] w1)
    as (w2' & Hrun2 & Hshared2 & Hscope2 & _ & _ & _ & _ & Hnodes2).
  assert (touch_node w1 (Touch.mk (Node.hash (node_at (node_mem w) n))
                           (Node.params (node_at (node_mem w) n))) = Some n) as Htarget.
  { apply (touch_node_of_found w w1 hash params n Hkey Hfound); [congruence|].
    intros m. destruct (decide (m = n)) as [->|Hne].
    - by rewrite Hnode1.
    - by rewrite Hother1. }
  exists scope, tctx, w0, w1.
  eexists. split_and!.
  - exact Hopen.
  - exact Hrun.
  - by rewrite Hnode1.
  - unfold dasm_scope_close. rewrite (M_bind_run get_world _ w1 w1 w1) by done.
    rewrite Hscope1, lookup_insert_eq. cbn [default].
    rewrite (M_bind_run _ _ _ _ _ Hrun2). reflexivity.
  - cbn [node_mem]. rewrite Hnodes2. unfold touches_of. rewrite filter_cons, Htarget.
    rewrite decide_True by done. rewrite filter_nil. cbn [length]. rewrite Hnode1.
    unfold unpinned. cbv [Nat.iter nat_rect].
    cbn [node_touched Node.scope_ref_count Node.set_scope_ref_count].
    unfold wrap64. change (2 ^ 64) with 18446744073709551616 in *.
    Z.div_mod_to_equations. lia.
  - intros m Hne. cbn [node_mem]. rewrite Hnodes2. unfold touches_of.
    rewrite filter_cons, Htarget. rewrite decide_False by congruence.
    rewrite filter_nil. unfold unpinned. cbn [length]. cbv [Nat.iter nat_rect].
    rewrite node_set_scope_ref_count_id.
    by apply Hother1.
  - cbn [dasm_shared]. congruence.
  - cbn [scope_mem]. apply lookup_delete_eq.
Qed.

(** A node found by a lookup is pinned against the evictor.  Take a
    table laid out as [dasm_init] lays it out and a node whose count of
    scope references is below [2 ^ 64 - 1], so that the reference the
    lookup adds does not wrap the count to 0.  Then the lookup returns,
    and in the world the following sweep reaches, whatever the clocks say
    and whether the sweep returns or is suspended in a re-request, the
    node is still linked in its slot, it still holds the reference, and it
    is on no free list it was not on before. *)
Theorem pinned_node_survives_the_sweep (scope : Z) (hash : U128) (params : Params.t)
    (w : World) (n : Z) :
  dasm_shared_laid_out w →
  u128_match hash u128_zero = false →
  node_of_key w hash params = Some n →
  0 ≤ Node.scope_ref_count (node_at (node_mem w) n) < 2 ^ 64 - 1 →
  ∃ w1,
    dasm_info_from_hash_params scope hash params w
    = Ret (Node.info (node_at (node_mem w) n)) w1 ∧
    let w2 := res_world (dasm_evictor_detector_thread__sweep w1) in
    (dasm_evictor_detector_thread__sweep w1 = Ret tt w2 ∨
     dasm_evictor_detector_thread__sweep w1 = Blocked w2) ∧
    n ∈ slot_list (slot_at (dasm_shared w2)
                     (u64_1 hash mod slots_count (dasm_shared w))) ∧
    Node.scope_ref_count (node_at (node_mem w2) n)
    = Node.scope_ref_count (node_at (node_mem w) n) + 1 ∧
    ∀ k : Z,
      n ∈ free_node (stripe_at (dasm_shared w2) k) →
      n ∈ free_node (stripe_at (dasm_shared w) k).
Proof.
  intros (Hwf & _ & _) Hhash Hfound Hcount.
  destruct (lookup_hit_run scope hash params w n Hhash Hfound)
    as (w1 & Hrun & Hnode1 & _ & _ & Hshared1 & _).
  exists w1. split; [exact Hrun|]. cbv zeta.
  assert (table_wf w1) as Hwf1 by (unfold table_wf; by rewrite Hshared1).
  pose proof (swept_within_safe _ _ _ (swept_sweep_reach w1 Hwf1))
    as (Hview & _ & Hslots & Hfree & _).
  assert (Node.scope_ref_count (node_at (node_mem w1) n)
          = Node.scope_ref_count (node_at (node_mem w) n) + 1) as Hcount1.
  { rewrite Hnode1. cbn [node_touched Node.scope_ref_count]. unfold wrap64.
    rewrite Z.mod_small by lia. done. }
  assert (¬ evictable (os_clock (os_ticks w1)) (user_clock_idx (dasm_shared w1))
              (node_at (node_mem w1) n)) as Hpinned.
  { intros (Hzero & _). lia. }
  pose proof Hfound as [Hin _]%slot_first_Some.
  split_and!.
  - destruct (dasm_evictor_detector_thread__sweep w1) as [[] w2|w2]; [by left|by right].
  - unfold slot_nodes in Hslots. unfold slot_at.
    apply Hslots.
    + rewrite Hshared1. exact Hin.
    + by intros (k' & idx & _ & _ & _ & _ & Hev).
  - specialize (Hview n). unfold node_evict_view in Hview.
    injection Hview as -> _ _ _ _ _. exact Hcount1.
  - unfold stripe_free in Hfree. unfold stripe_at. intros k Hin2.
    apply Hfree in Hin2 as [Hin2|(i & idx & _ & _ & _ & _ & Hev)]; [|done].
    by rewrite Hshared1 in Hin2.
Qed.

(** ** The sweep: slots without work, and the stamp of a re-request *)




#[local] Instance request_stamp_kept_refl (c n : Z) : Reflexive (request_stamp_kept c n).
Proof. intros w. split; [done|by left]. Qed.

#[local] Instance request_stamp_kept_trans (c n : Z) :
  Transitive (request_stamp_kept c n).
Proof.
  intros w1 w2 w3 [Hkeep12 Hnode12] [Hkeep23 Hnode23]. split; [tauto|].
  destruct Hnode23 as [Heq23|?]; [|by right].
  destruct Hnode12 as [Heq12|Hstamp]; [left; congruence|].
  right. by rewrite Heq23.
Qed.

Lemma request_stamp_kept_node_mem (c n : Z) (w w' : World) :
  node_mem w' = node_mem w → request_stamp_kept c n w w'.
Proof. intros Hmem. unfold request_stamp_kept. rewrite Hmem. split; [done|by left]. Qed.

Lemma request_stamp_kept_evict (slot_idx stripe_idx t c n m : Z) :
  M_frame (request_stamp_kept c n) (dasm_evictor_detector_evict slot_idx stripe_idx t c m).
Proof.
  intros w [] w' Hrun. apply request_stamp_kept_node_mem.
  unfold dasm_evictor_detector_evict in Hrun.
  rewrite (M_bind_run (load_node m) _ w w (node_at (node_mem w) m)) in Hrun by done.
  destruct (evict_cond _ _ _); [|by injection Hrun as <-].
  unfold modify_slot, modify_stripe, modify_shared, arena_release, os_emit,
    mbind, M_mbind, M_bind, mret, M_mret, M_ret in Hrun.
  destruct (negb _); by injection Hrun as <-.
Qed.

(** The re-request of the node [m]. *)
Lemma retry_run (g t c m : Z) (w w' : World) :
  (∀ ticks, os_clock ticks < max_U64) →
  dasm_evictor_detector_retry g t c m w = Ret tt w' →
  if retry_cond g t c (node_at (node_mem w) m)
  then
    ∃ now,
      node_mem w'
      = <[m := Node.set_last_user_clock_idx_requested c
                 (Node.set_last_time_requested_us now (node_at (node_mem w) m))]>
          (node_mem w)
  else w' = w.
Proof.
  intros Hclock Hrun. unfold dasm_evictor_detector_retry in Hrun.
  rewrite (M_bind_run (load_node m) _ w w (node_at (node_mem w) m)) in Hrun by done.
  destruct (retry_cond g t c (node_at (node_mem w) m)); [|by injection Hrun as <-].
  apply bind_Ret_inv in Hrun as (good & w1 & Henq & Hrun).
  destruct good.
  - pose proof (ring_only_enqueue _ _ _ _ _ _ Henq) as (_ & _ & _ & _ & Hmem & _).
    unfold os_now_microseconds, modify_node, mbind, M_mbind, M_bind in Hrun.
    injection Hrun as <-. cbn [node_mem]. exists (os_clock (os_ticks w1)).
    rewrite Hmem, node_at_insert, decide_True by done. by rewrite insert_insert_eq.
  - apply u2p_enqueue_false_inv in Henq as (_ & Hlate & _).
    specialize (Hclock (os_ticks w)). lia.
Qed.

Lemma request_stamp_kept_retry (g t c n m : Z) :
  (∀ ticks, os_clock ticks < max_U64) →
  M_frame (request_stamp_kept c n) (dasm_evictor_detector_retry g t c m).
Proof.
  intros Hclock w [] w' Hrun. apply retry_run in Hrun; [|done].
  destruct (retry_cond g t c (node_at (node_mem w) m)); [|by subst].
  destruct Hrun as [now Hmem]. unfold request_stamp_kept. rewrite Hmem, node_at_insert.
  destruct (decide (m = n)) as [->|Hne]; [|split; [done|by left]].
  split; [done|by right].
Qed.

Lemma request_stamp_kept_visit (slot_idx stripe_idx g t c n m : Z) :
  (∀ ticks, os_clock ticks < max_U64) →
  M_frame (request_stamp_kept c n)
    (dasm_evictor_detector_visit slot_idx stripe_idx g t c m).
Proof.
  intros Hclock. unfold dasm_evictor_detector_visit.
  apply M_frame_bind; [apply _|apply request_stamp_kept_evict|intros _].
  by apply request_stamp_kept_retry.
Qed.

Lemma request_stamp_kept_walk (slot_idx stripe_idx g t c n : Z) (ns : list Z) :
  (∀ ticks, os_clock ticks < max_U64) →
  M_frame (request_stamp_kept c n)
    (dasm_evictor_detector_walk slot_idx stripe_idx g t c ns).
Proof.
  intros Hclock. induction ns as [|m ns IH]; cbn [dasm_evictor_detector_walk].
  - apply M_frame_ret, _.
  - apply M_frame_bind; [apply _|by apply request_stamp_kept_visit|by intros _].
Qed.

Lemma request_stamp_kept_slot (g t c n slot_idx : Z) :
  (∀ ticks, os_clock ticks < max_U64) →
  M_frame (request_stamp_kept c n) (dasm_evictor_detector_slot g t c slot_idx).
Proof.
  intros Hclock w [] w' Hrun. unfold dasm_evictor_detector_slot in Hrun.
  rewrite (M_bind_run get_shared _ w w (dasm_shared w)) in Hrun by done. cbv zeta in Hrun.
  rewrite (M_bind_run get_node_mem _ w w (node_mem w)) in Hrun by done.
  destruct (slot_first _ _ _); [|by injection Hrun as <-].
  rewrite (M_bind_run get_shared _ w w (dasm_shared w)) in Hrun by done.
  by eapply request_stamp_kept_walk.
Qed.

Lemma request_stamp_kept_slots (g t c n : Z) (slot_idxs : list Z) :
  (∀ ticks, os_clock ticks < max_U64) →
  M_frame (request_stamp_kept c n) (dasm_evictor_detector_slots g t c slot_idxs).
Proof.
  intros Hclock. induction slot_idxs as [|idx rest IH]; cbn [dasm_evictor_detector_slots].
  - apply M_frame_ret, _.
  - apply M_frame_bind; [apply _|by apply request_stamp_kept_slot|by intros _].
Qed.

(** The walk over a list that holds [n] stamps [n], when [n] is due. *)
Lemma walk_stamps (slot_idx stripe_idx g t c n : Z) (node : Node.t) (ns : list Z) :
  (∀ ticks, os_clock ticks < max_U64) →
  retry_cond g t c node = true →
  n ∈ ns →
  ∀ w w',
    (node_at (node_mem w) n = node ∨
     Node.last_user_clock_idx_requested (node_at (node_mem w) n) = c) →
    dasm_evictor_detector_walk slot_idx stripe_idx g t c ns w = Ret tt w' →
    Node.last_user_clock_idx_requested (node_at (node_mem w') n) = c.
Proof.
  intros Hclock Hdue. induction ns as [|m ns IH]; intros Hin w w' Hpre Hrun.
  - by apply elem_of_nil in Hin.
  - cbn [dasm_evictor_detector_walk] in Hrun.
    apply bind_Ret_inv in Hrun as ([] & w1 & Hvisit & Hrest).
    destruct (decide (m = n)) as [->|Hne].
    + (* the visit of [n] *)
      assert (Node.last_user_clock_idx_requested (node_at (node_mem w1) n) = c) as Hstamp.
      { unfold dasm_evictor_detector_visit in Hvisit.
        apply bind_Ret_inv in Hvisit as ([] & w0 & Hevict & Hretry).
        apply request_stamp_kept_evict with (c := c) (n := n) in Hevict as [Hkeep Hnode].
        pose proof (request_stamp_kept_retry g t c n n Hclock _ _ _ Hretry) as [Hkeep' _].
        destruct Hpre as [Hpre|Hpre]; [|tauto].
        destruct Hnode as [Hnode|?]; [|tauto].
        apply retry_run in Hretry; [|done]. rewrite Hnode, Hpre, Hdue in Hretry.
        destruct Hretry as [now ->]. rewrite node_at_insert, decide_True by done. done. }
      by apply (request_stamp_kept_walk _ _ _ _ c n ns Hclock) in Hrest as [Hkeep _]; auto.
    + apply elem_of_cons in Hin as [?|Hin]; [done|].
      apply (IH Hin w1 w'); [|done].
      apply (request_stamp_kept_visit _ _ _ _ c n m Hclock) in Hvisit as [Hkeep Hnode].
      destruct Hpre as [Hpre|Hpre]; [|right; tauto].
      destruct Hnode as [Hnode|?]; [left; congruence|by right].
Qed.

Lemma slot_stamps (g t c n slot_idx : Z) (node : Node.t) (w w' : World) :
  (∀ ticks, os_clock ticks < max_U64) →
  retry_cond g t c node = true →
  n ∈ slot_list (slot_at (dasm_shared w) slot_idx) →
  (node_at (node_mem w) n = node ∨
   Node.last_user_clock_idx_requested (node_at (node_mem w) n) = c) →
  dasm_evictor_detector_slot g t c slot_idx w = Ret tt w' →
  Node.last_user_clock_idx_requested (node_at (node_mem w') n) = c.
Proof.
  intros Hclock Hdue Hin Hpre Hrun. unfold dasm_evictor_detector_slot in Hrun.
  rewrite (M_bind_run get_shared _ w w (dasm_shared w)) in Hrun by done. cbv zeta in Hrun.
  rewrite (M_bind_run get_node_mem _ w w (node_mem w)) in Hrun by done.
  destruct (slot_first _ _ _) eqn:Hfirst.
  - rewrite (M_bind_run get_shared _ w w (dasm_shared w)) in Hrun by done.
    by eapply walk_stamps.
  - injection Hrun as <-. destruct Hpre as [Hpre|?]; [|done].
    apply (slot_first_None _ _ _ Hfirst) in Hin. rewrite Hpre, Hdue in Hin.
    by rewrite orb_true_r in Hin.
Qed.

Lemma slots_stamp (g t c n slot_idx : Z) (node : Node.t) (slot_idxs : list Z) :
  (∀ ticks, os_clock ticks < max_U64) →
  retry_cond g t c node = true →
  ∀ w w',
    table_wf w →
    NoDup slot_idxs →
    (∀ idx, idx ∈ slot_idxs → 0 ≤ idx < slots_count (dasm_shared w)) →
    slot_idx ∈ slot_idxs →
    n ∈ slot_nodes w (Z.to_nat slot_idx) →
    (node_at (node_mem w) n = node ∨
     Node.last_user_clock_idx_requested (node_at (node_mem w) n) = c) →
    dasm_evictor_detector_slots g t c slot_idxs w = Ret tt w' →
    Node.last_user_clock_idx_requested (node_at (node_mem w') n) = c.
Proof.
  intros Hclock Hdue.
  induction slot_idxs as [|idx rest IH]; intros w w' Hwf Hnodup Hrange Hidx Hin Hpre Hrun.
  - by apply elem_of_nil in Hidx.
  - cbn [dasm_evictor_detector_slots] in Hrun.
    apply bind_Ret_inv in Hrun as ([] & w1 & Hslot & Hrest).
    apply NoDup_cons in Hnodup as [Hnotin Hnodup].
    destruct (decide (idx = slot_idx)) as [->|Hne].
    + assert (Node.last_user_clock_idx_requested (node_at (node_mem w1) n) = c) as Hstamp
        by (by eapply slot_stamps).
      by apply (request_stamp_kept_slots _ _ c n rest Hclock) in Hrest as [Hkeep _]; auto.
    + apply elem_of_cons in Hidx as [?|Hidx]; [done|].
      pose proof (request_stamp_kept_slot g t c n idx Hclock _ _ _ Hslot) as [Hkeep Hnode].
      apply swept_slot in Hslot; [|done|apply Hrange; by left].
      pose proof Hslot as (Hsc & _ & _ & _ & _ & Hmem & _).
      apply (IH w1 w'); [by eapply swept_table_wf|done| |done| | |done].
      * intros idx' Hin'. rewrite Hsc. apply Hrange. by right.
      * apply Hmem. split; [done|]. intros (k & Heq & _).
        assert (0 ≤ idx) by (apply Hrange; by left).
        assert (0 ≤ slot_idx) by (apply Hrange; by right).
        lia.
      * destruct Hpre as [Hpre|Hpre]; [|right; tauto].
        destruct Hnode as [Hnode|?]; [left; congruence|by right].
Qed.

(** A sweep that returns has stamped every linked node that was due for a
    re-request with the user clock of the sweep; hence no sweep requests
    the node again before the user clock has advanced by 10.  The table
    has the slots and stripes its counts announce, the ring has a size,
    and the clock stays below [max_U64], so that the enqueue without
    deadline cannot give up. *)
Theorem sweep_stamps_the_node_it_requests_again (w w' : World) (slot_idx n : Z) :
  let s := dasm_shared w in
  table_wf w →
  0 < u2p_ring_size s →
  (∀ ticks, os_clock ticks < max_U64) →
  dasm_evictor_detector_thread__sweep w = Ret tt w' →
  0 ≤ slot_idx < slots_count s →
  n ∈ slot_list (slot_at s slot_idx) →
  retry_cond (fs_gen w) (os_clock (os_ticks w)) (user_clock_idx s)
    (node_at (node_mem w) n) = true →
  Node.last_user_clock_idx_requested (node_at (node_mem w') n) = user_clock_idx s ∧
  ∀ change_gen check_time_us check_time_user_clocks,
    0 ≤ user_clock_idx s →
    check_time_user_clocks < user_clock_idx s + 10 < 2 ^ 64 →
    retry_cond change_gen check_time_us check_time_user_clocks
      (node_at (node_mem w') n) = false.
Proof.
  intros s Hwf _ Hclock Hrun Hidx Hin Hdue.
  assert (Node.last_user_clock_idx_requested (node_at (node_mem w') n) = user_clock_idx s)
    as Hstamp.
  { unfold dasm_evictor_detector_thread__sweep in Hrun.
    rewrite (M_bind_run fs_change_gen _ w w (fs_gen w)) in Hrun by done.
    set (w1 := mkWorld (dasm_shared w) (node_mem w) (scope_mem w) (alloc_top w) (fs_gen w)
                 (S (os_ticks w)) (os_trace w)) in *.
    rewrite (M_bind_run os_now_microseconds _ w w1 (os_clock (os_ticks w))) in Hrun by done.
    rewrite (M_bind_run dasm_user_clock_idx _ w1 w1 (user_clock_idx s)) in Hrun by done.
    rewrite (M_bind_run get_shared _ w1 w1 s) in Hrun by done.
    eapply (slots_stamp _ _ _ n slot_idx _ _ Hclock Hdue w1 w'); [done| | | | | |exact Hrun].
    - apply NoDup_seqZ.
    - intros idx Hidx'. apply elem_of_seqZ in Hidx'. cbn [w1 dasm_shared]. fold s. lia.
    - apply elem_of_seqZ. lia.
    - exact Hin.
    - by left. }
  split; [done|]. intros change_gen check_time_us check_time_user_clocks Hclock0 Hsoon.
  unfold retry_cond, retry_threshold_user_clocks. rewrite Hstamp.
  unfold wrap64. rewrite (Z.mod_small (user_clock_idx s + 10)) by lia.
  destruct (Z.leb_spec (user_clock_idx s + 10) check_time_user_clocks); [lia|].
  by rewrite !andb_false_r.
Qed.

(** ** The worker's turn *)

Lemma take_task_none (slot_idx : Z) (hash : U128) (params : Params.t) (w : World) :
  (slot_first (λ node, u128_match (Node.hash node) hash &&
                       dasm_params_match (Node.params node) params)
     (node_mem w) (slot_list (slot_at (dasm_shared w) slot_idx)) = None ∨
   ∃ n,
     slot_first (λ node, u128_match (Node.hash node) hash &&
                         dasm_params_match (Node.params node) params)
       (node_mem w) (slot_list (slot_at (dasm_shared w) slot_idx)) = Some n ∧
     Node.is_working (node_at (node_mem w) n) ≠ 0) →
  dasm_parse_thread__take_task slot_idx hash params w = Ret false w.
Proof.
  unfold dasm_parse_thread__take_task, mbind, M_mbind, M_bind, get_shared,
    get_node_mem, load_node.
  intros [->|(n & -> & Hbusy)]; [done|].
  by destruct (Z.eqb_spec (Node.is_working (node_at (node_mem w) n)) 0).
Qed.

(** A request whose node is gone from its slot, or is being worked on
    already, is dropped: the worker's turn ends where the dequeue has left
    the world; it decodes nothing, submits nothing, allocates nothing and
    changes no node.  The table is laid out as [dasm_init] lays it out. *)
Theorem worker_drops_the_request (w w1 : World) (hash : U128) (params : Params.t) :
  dasm_shared_laid_out w →
  dasm_u2p_dequeue_req w = Ret (hash, params) w1 →
  (node_of_request w1 hash params = None ∨
   ∃ n, node_of_request w1 hash params = Some n ∧
        Node.is_working (node_at (node_mem w1) n) ≠ 0) →
  dasm_parse_thread__iteration w = Ret tt w1.
Proof.
  intros _ Hdeq Hnone. unfold dasm_parse_thread__iteration.
  rewrite (M_bind_run _ _ _ _ _ Hdeq).
  rewrite (M_bind_run fs_change_gen _ w1 w1 (fs_gen w1)) by done.
  rewrite (M_bind_run get_shared _ w1 w1 (dasm_shared w1)) by done. cbv zeta.
  rewrite (M_bind_run _ _ _ _ _ (take_task_none _ _ _ _ Hnone)).
  done.
Qed.



(** ** The disassembly loop *)

Lemma dasm_inst_offsets_fuel (params : Params.t) (data : String8) :
  str8_size data < 2 ^ 64 →
  decoder_stays_inside params data →
  ∀ (fuel extra : nat) (o : Z),
    0 ≤ o →
    str8_size data - o ≤ Z.of_nat fuel →
    dasm_inst_offsets (fuel + extra) params data o = dasm_inst_offsets fuel params data o.
Proof.
  intros Hdata Hdecoder. induction fuel as [|fuel IH]; intros extra o Ho Hfuel.
  - destruct extra as [|extra]; [done|]. cbn [Nat.add dasm_inst_offsets].
    destruct (Z.ltb_spec o (str8_size data)); [lia|done].
  - cbn [Nat.add dasm_inst_offsets].
    destruct (Z.ltb_spec o (str8_size data)) as [Hlt|]; [|done].
    cbv zeta. destruct (Z.eqb_spec (ud_insn_size (dasm_disassemble_at params data o)) 0)
      as [|Hsize]; [done|].
    specialize (Hdecoder o (conj Ho Hlt)). f_equal.
    apply IH; rewrite wrap64_small; lia.
Qed.

Lemma dasm_inst_offsets_sorted (params : Params.t) (data : String8) :
  str8_size data < 2 ^ 64 →
  decoder_stays_inside params data →
  ∀ (fuel : nat) (o : Z),
    0 ≤ o →
    Forall (λ o', o ≤ o' < str8_size data) (dasm_inst_offsets fuel params data o) ∧
    strictly_increasing (dasm_inst_offsets fuel params data o).
Proof.
  intros Hdata Hdecoder. induction fuel as [|fuel IH]; intros o Ho.
  - by split.
  - cbn [dasm_inst_offsets].
    destruct (Z.ltb_spec o (str8_size data)) as [Hlt|]; [|by split].
    cbv zeta. destruct (Z.eqb_spec (ud_insn_size (dasm_disassemble_at params data o)) 0)
      as [|Hsize]; [by split|].
    specialize (Hdecoder o (conj Ho Hlt)).
    rewrite wrap64_small by lia.
    destruct (IH (o + ud_insn_size (dasm_disassemble_at params data o))) as [Hrange Hsorted];
      [lia|].
    split.
    + constructor; [lia|]. eapply Forall_impl; [exact Hrange|]. cbn. lia.
    + split; [|done]. eapply Forall_impl; [exact Hrange|]. cbn. lia.
Qed.

(** When the decoder consumes bytes of the blob only, the loop has left by
    itself before the fuel of the model runs out: with more fuel it walks
    the same offsets and ends in the same state, from every world.  The
    offsets it walks increase strictly and lie inside the blob. *)
Theorem decode_loop_ends_within_the_blob (params : Params.t) (rdi : Z)
    (data : String8) (extra : nat) :
  str8_size data < 2 ^ 64 →
  decoder_stays_inside params data →
  let start :=
    mkDecode 0 rdi_source_file_nil 0 DASM_InstChunkList_zero String8List.zero in
  (∀ w : World,
     dasm_decode_loop (length data + extra) params rdi data start w
     = dasm_decode_loop (length data) params rdi data start w) ∧
  dasm_inst_offsets (length data + extra) params data 0
  = dasm_inst_offsets (length data) params data 0 ∧
  strictly_increasing (dasm_inst_offsets (length data) params data 0) ∧
  Forall (λ o, 0 ≤ o < str8_size data) (dasm_inst_offsets (length data) params data 0).
Proof.
  intros Hdata Hdecoder start. split_and!.
  - intros w. apply dasm_decode_loop_fuel; [done|done|done|].
    cbn [start off]. unfold str8_size. lia.
  - apply dasm_inst_offsets_fuel; [done|done|done|]. unfold str8_size. lia.
  - by apply dasm_inst_offsets_sorted.
  - by apply dasm_inst_offsets_sorted.
Qed.

Lemma decode_step_not_annotated (params : Params.t) (rdi : Z) (data : String8)
    (insn : UD_Insn) (st : DASM_DecodeState) (w : World) :
  not_annotated params rdi →
  let inst_string := dasm_inst_string params rdi data (off st) insn in
  let strs := inst_strings st in
  dasm_decode_step params rdi data insn st w
  = Ret (mkDecode (wrap64 (off st + ud_insn_size insn)) (last_file st) (last_line st)
           (dasm_inst_chunk_list_push (inst_list st) 1024
              (mkInst (off st) (default 0 (ud_jimm_target insn))
                 (r1u64
                    (wrap64 (String8List.total_size strs + String8List.node_count strs))
                    (wrap64 (wrap64 (String8List.total_size strs
                                     + String8List.node_count strs)
                             + str8_size inst_string)))))
           (str8_list_push strs inst_string)) w.
Proof.
  intros Hplain. unfold dasm_decode_step. cbv zeta.
  by rewrite dasm_decode_annotate_id by done.
Qed.

Lemma decode_loop_not_annotated (params : Params.t) (rdi : Z) (data : String8) :
  not_annotated params rdi →
  ∀ (fuel : nat) (st : DASM_DecodeState) (w : World),
    ∃ st',
      dasm_decode_loop fuel params rdi data st w = Ret st' w ∧
      let offsets := dasm_inst_offsets fuel params data (off st) in
      map code_off (decoded_insts st') = map code_off (decoded_insts st) ++ offsets ∧
      map jump_dst_vaddr (decoded_insts st')
      = map jump_dst_vaddr (decoded_insts st)
        ++ map (λ o, default 0 (ud_jimm_target (dasm_disassemble_at params data o)))
             offsets ∧
      decoded_lines st'
      = decoded_lines st
        ++ map (λ o, dasm_inst_string params rdi data o (dasm_disassemble_at params data o))
             offsets.
Proof.
  intros Hplain. induction fuel as [|fuel IH]; intros st w;
    cbn [dasm_decode_loop dasm_inst_offsets]; cbv zeta.
  { exists st. by rewrite !app_nil_r. }
  destruct (off st <? str8_size data); [|exists st; by rewrite !app_nil_r].
  destruct (ud_insn_size _ =? 0); [exists st; by rewrite !app_nil_r|].
  pose proof (decode_step_not_annotated params rdi data
                (dasm_disassemble_at params data (off st)) st w Hplain) as Hstep.
  cbv zeta in Hstep.
  rewrite (M_bind_run _ _ _ _ _ Hstep).
  match goal with |- context [dasm_decode_loop fuel params rdi data ?st1 w] =>
    destruct (IH st1 w) as (st' & Hrun & Hoffs & Hjumps & Hlines)
  end.
  exists st'. split; [exact Hrun|].
  cbn [off] in Hoffs, Hjumps, Hlines.
  rewrite Hoffs, Hjumps, Hlines. clear Hoffs Hjumps Hlines IH Hrun Hstep.
  unfold decoded_insts, decoded_lines. cbn [inst_list inst_strings].
  rewrite dasm_inst_array_from_chunk_list_push. unfold str8_list_push.
  cbn [String8List.strings]. rewrite !map_app. cbn [map code_off jump_dst_vaddr].
  by rewrite <-!app_assoc.
Qed.

Lemma decode_not_annotated (params : Params.t) (rdi : Z) (data : String8) (w : World) :
  not_annotated params rdi →
  ∃ (inst_list : DASM_InstChunkList) (inst_strings : String8List.t),
    dasm_decode params rdi data w = Ret (inst_list, inst_strings) w ∧
    let offsets :=
      if (Params.arch params =? Architecture_x64) ||
         (Params.arch params =? Architecture_x86)
      then dasm_inst_offsets (length data) params data 0
      else [] in
    map code_off (v (dasm_inst_array_from_chunk_list inst_list)) = offsets ∧
    map jump_dst_vaddr (v (dasm_inst_array_from_chunk_list inst_list))
    = map (λ o, default 0 (ud_jimm_target (dasm_disassemble_at params data o))) offsets ∧
    String8List.strings inst_strings
    = map (λ o, dasm_inst_string params rdi data o (dasm_disassemble_at params data o))
        offsets.
Proof.
  intros Hplain. unfold dasm_decode.
  destruct ((Params.arch params =? Architecture_x64) ||
            (Params.arch params =? Architecture_x86)).
  - destruct (decode_loop_not_annotated params rdi data Hplain (length data)
                (mkDecode 0 rdi_source_file_nil 0 DASM_InstChunkList_zero String8List.zero)
                w) as (st' & Hrun & Hrecords).
    exists (inst_list st'), (inst_strings st').
    rewrite (M_bind_run _ _ _ _ _ Hrun). split; [done|]. exact Hrecords.
  - by exists DASM_InstChunkList_zero, String8List.zero.
Qed.

(** Without source annotation the decoding returns, in the world it
    started in, and the records are the decoded instructions, one for one
    and in order: the i-th record carries the offset and the jump target
    of the i-th instruction the loop has decoded, and the i-th line is
    that instruction's text. *)
Theorem decode_without_annotation_is_one_record_per_instruction
    (params : Params.t) (rdi : Z) (data : String8) (w : World) :
  not_annotated params rdi →
  ∃ (inst_list : DASM_InstChunkList) (inst_strings : String8List.t),
    dasm_decode params rdi data w = Ret (inst_list, inst_strings) w ∧
    let offsets :=
      if (Params.arch params =? Architecture_x64) ||
         (Params.arch params =? Architecture_x86)
      then dasm_inst_offsets (length data) params data 0
      else [] in
    map code_off (v (dasm_inst_array_from_chunk_list inst_list)) = offsets ∧
    map jump_dst_vaddr (v (dasm_inst_array_from_chunk_list inst_list))
    = map (λ o, default 0 (ud_jimm_target (dasm_disassemble_at params data o))) offsets ∧
    String8List.strings inst_strings
    = map (λ o, dasm_inst_string params rdi data o (dasm_disassemble_at params data o))
        offsets.
Proof. apply decode_not_annotated. Qed.

(** ** The code bytes column *)

Lemma length_hex_fixed (upper : bool) (digits : nat) (z : Z) :
  length (hex_fixed upper digits z) = digits.
Proof.
  revert z. induction digits as [|digits IH]; intros z; cbn [hex_fixed]; [done|].
  rewrite length_app, IH. cbn. lia.
Qed.

Lemma length_concat_map_const {A} (f : A → list byte) (k : nat) (l : list A) :
  (∀ x, x ∈ l → length (f x) = k) →
  length (concat (map f l)) = (k * length l)%nat.
Proof.
  induction l as [|x l IH]; intros Hk; cbn [map concat length]; [lia|].
  rewrite length_app, Hk, IH; [lia| |left]. intros y Hy. apply Hk. by right.
Qed.

(** The code bytes column of an instruction of [size] bytes is
    [3 * max(size, 8) + 3] characters wide: for instructions of up to 8
    bytes it always takes 27 characters, so the text after it lines up. *)
Theorem code_bytes_column_width (data : String8) (off size : Z) :
  1 ≤ size →
  str8_size (dasm_code_bytes_part data off size) = 3 * Z.max size 8 + 3.
Proof.
  intros Hsize. unfold dasm_code_bytes_part, str8_size.
  rewrite !length_app. cbn [str8_lit length].
  set (entry := λ byte_idx : Z, _).
  replace (Z.max size 16)
    with ((size - 1) + 1 + (Z.max size 8 - size) + (Z.max size 16 - Z.max size 8)) by lia.
  rewrite !seqZ_app by lia. rewrite !map_app, !concat_app, !length_app.
  rewrite (length_concat_map_const entry 3 (seqZ 0 (size - 1))).
  2:{ intros x Hx%elem_of_seqZ. unfold entry.
      destruct (Z.ltb_spec x size); [|lia]. destruct (Z.eqb_spec x (size - 1)); [lia|].
      rewrite !length_app, length_hex_fixed. done. }
  rewrite (length_concat_map_const entry 4 (seqZ (0 + (size - 1)) 1)).
  2:{ intros x Hx%elem_of_seqZ. unfold entry.
      destruct (Z.ltb_spec x size); [|lia]. destruct (Z.eqb_spec x (size - 1)); [|lia].
      rewrite !length_app, length_hex_fixed. done. }
  rewrite (length_concat_map_const entry 3
             (seqZ (0 + (size - 1 + 1)) (Z.max size 8 - size))).
  2:{ intros x Hx%elem_of_seqZ. unfold entry.
      destruct (Z.ltb_spec x size); [lia|]. destruct (Z.ltb_spec x 8); [done|lia]. }
  rewrite (length_concat_map_const entry 0
             (seqZ (0 + (size - 1 + 1 + (Z.max size 8 - size)))
                (Z.max size 16 - Z.max size 8))).
  2:{ intros x Hx%elem_of_seqZ. unfold entry.
      destruct (Z.ltb_spec x size); [lia|]. destruct (Z.ltb_spec x 8); [lia|done]. }
  rewrite !length_seqZ.
  change (length (str8_lit "{")) with 1%nat. change (length (str8_lit " ")) with 1%nat.
  lia.
Qed.

(** ** From the miss to the warm hit *)




(** ** A miss on a full ring *)

Lemma u2p_enqueue_wait_run (w : World) (reqs : list (U128 * Params.t))
    (hash : U128) (params : Params.t) (endt_us : Z) :
  let s := dasm_shared w in
  u2p_ring_ok s →
  u2p_ring_queue s reqs →
  u2p_ring_size s < u2p_queue_size reqs + str8_size (u2p_req_bytes hash params) →
  str8_size (u2p_req_bytes hash params) < 2 ^ 64 →
  os_clock (os_ticks w) < endt_us →
  dasm_u2p_enqueue_req hash params endt_us w
  = Blocked
      (mkWorld s (node_mem w) (scope_mem w) (alloc_top w) (fs_gen w) (S (os_ticks w))
         (os_trace w
          ++ [Ev_condition_variable_wait (u2p_ring_cv s) (u2p_ring_mutex s) endt_us])).
Proof.
  intros s (Hsize & Hdiv & Hdiv8) (Hrp & Hrp8 & Hwp & Htotal & Hholds & Hwf) Hfull Hlen Hearly.
  pose proof (u2p_queue_size_aligned reqs) as [Hq0 Hq8].
  pose proof (u2p_req_advance_bounds (hash, params)) as (Hfixed & _ & _ & _ & Hfixed0).
  cbn [fst snd] in *.
  unfold dasm_u2p_enqueue_req.
  rewrite (M_bind_run get_shared _ w w (dasm_shared w)) by done. cbv zeta. fold s.
  rewrite Hwp, wrap64_unconsumed by lia.
  rewrite <-(str8_size_u2p_req_bytes hash).
  set (len := str8_size (u2p_req_bytes hash params)) in *.
  unfold wrap64 at 1 2. rewrite !Z.mod_small by lia.
  destruct (Z.geb_spec (u2p_ring_size s - u2p_queue_size reqs) len); [lia|].
  unfold os_now_microseconds at 1. unfold mbind, M_mbind, M_bind.
  destruct (Z.geb_spec (os_clock (os_ticks w)) endt_us); [lia|]. done.
Qed.

(** A lookup that finds no node while the ring has no room for the
    request does not return: it has linked the new node at the end of the
    slot, as on any miss, and then waits for room on the ring's condition
    variable, under the ring's mutex and without a deadline.  The ring's
    queue is as it was: the request is not in it yet. *)
Theorem lookup_miss_on_a_full_ring_waits (scope : Z) (hash : U128)
    (params : Params.t) (reqs : list (U128 * Params.t)) (w : World) :
  let s := dasm_shared w in
  let slot_idx := u64_1 hash mod slots_count s in
  let stripe_idx := slot_idx mod stripes_count s in
  let a := match free_node (stripe_at s stripe_idx) with
           | n :: _ => n
           | [] => alloc_top w + 1
           end in
  u128_match hash u128_zero = false →
  node_of_key w hash params = None →
  table_wf w →
  0 < slots_count s →
  u2p_ring_ok s →
  u2p_ring_queue s reqs →
  u2p_ring_size s < u2p_queue_size reqs + str8_size (u2p_req_bytes hash params) →
  str8_size (u2p_req_bytes hash params) < 2 ^ 64 →
  os_clock (os_ticks w) < max_U64 →
  ∃ w',
    dasm_info_from_hash_params scope hash params w = Blocked w' ∧
    slot_list (slot_at (dasm_shared w') slot_idx) = slot_list (slot_at s slot_idx) ++ [a] ∧
    node_at (node_mem w') a = Node.mk hash params 0 Info.zero 0 0 0 0 0 0 0 0 ∧
    (∀ m, m ≠ a → node_at (node_mem w') m = node_at (node_mem w) m) ∧
    u2p_ring_queue (dasm_shared w') reqs ∧
    scope_mem w' = scope_mem w ∧
    os_trace w'
    = os_trace w ++ [Ev_condition_variable_wait (u2p_ring_cv s) (u2p_ring_mutex s) max_U64].
Proof.
  intros s slot_idx stripe_idx a Hhash Hnone (Hslots & Hstripes & Hstripes0) Hslots0
    Hok Hqueue Hfull Hlen Hclock.
  unfold node_of_key, node_matches in Hnone. fold s slot_idx in Hnone.
  assert (0 ≤ slot_idx < slots_count s) as Hslot_idx by (by apply Z.mod_pos_bound).
  assert (0 ≤ stripe_idx < stripes_count s) as Hstripe_idx by (by apply Z.mod_pos_bound).
  assert (Z.to_nat slot_idx < length (slots s))%nat as Hslot_lt
    by (fold s in Hslots; rewrite Hslots; lia).
  assert (Z.to_nat stripe_idx < length (stripes s))%nat as Hstripe_lt
    by (fold s in Hstripes; rewrite Hstripes; lia).
  unfold dasm_info_from_hash_params. rewrite Hhash. cbn [negb].
  rewrite (M_bind_run get_shared _ w w (dasm_shared w)) by done. cbv zeta.
  rewrite (M_bind_run get_node_mem _ w w (node_mem w)) by done.
  fold s slot_idx stripe_idx. rewrite Hnone.
  rewrite (M_bind_run (mret (Info.zero, false)) _ w w (Info.zero, false)) by done.
  cbn [negb].
  set (w1 :=
    mkWorld
      (set_slots
         (match free_node (stripe_at s stripe_idx) with
          | _ :: _ =>
              set_stripes s
                (<[Z.to_nat stripe_idx := SLLStackPop (stripe_at s stripe_idx)]> (stripes s))
          | [] => s
          end)
         (<[Z.to_nat slot_idx := DLLPushBack (slot_at s slot_idx) a]> (slots s)))
      (<[a := Node.mk hash params 0 Info.zero 0 0 0 0 0 0 0 0]> (node_mem w))
      (scope_mem w)
      (match free_node (stripe_at s stripe_idx) with
       | _ :: _ => alloc_top w
       | [] => alloc_top w + 1
       end)
      (fs_gen w) (os_ticks w) (os_trace w)).
  pose proof (u2p_enqueue_wait_run w1 reqs hash params max_U64) as Hwait.
  cbv zeta in Hwait.
  assert (dasm_shared w1 = dasm_shared w1) as _ by done.
  rewrite (M_bind_run _ _ w w1 true).
  2:{ rewrite (M_bind_run get_shared _ w w (dasm_shared w)) by done.
      rewrite (M_bind_run get_node_mem _ w w (node_mem w)) by done.
      fold s slot_idx stripe_idx. rewrite Hnone. unfold w1, a.
      destruct (free_node (stripe_at s stripe_idx)) as [|n free]; reflexivity. }
  cbv beta iota.
  eexists. split.
  { apply M_bind_blocked, M_bind_blocked. apply Hwait.
    - unfold w1. by destruct (free_node (stripe_at s stripe_idx)).
    - unfold w1. by destruct (free_node (stripe_at s stripe_idx)).
    - unfold w1. by destruct (free_node (stripe_at s stripe_idx)).
    - done.
    - done. }
  cbn [dasm_shared node_mem scope_mem os_trace].
  split_and!.
  - unfold slot_at, w1. cbn [dasm_shared slots set_slots].
    rewrite list_lookup_insert_eq by done. done.
  - unfold w1. cbn [node_mem]. rewrite node_at_insert. by case_decide.
  - intros m Hm. unfold w1. cbn [node_mem]. rewrite node_at_insert. by case_decide.
  - unfold w1. by destruct (free_node (stripe_at s stripe_idx)).
  - done.
  - unfold w1. cbn [os_trace dasm_shared].
    by destruct (free_node (stripe_at s stripe_idx)).
Qed.

(** ** Offsets and indices of a disassembly *)

Lemma strictly_increasing_NoDup (l : list Z) : strictly_increasing l → NoDup l.
Proof.
  induction l as [|x l IH]; cbn [strictly_increasing]; [constructor|].
  intros [Hall Hrest]. constructor; [|by apply IH].
  intros Hin. rewrite Forall_forall in Hall. specialize (Hall x Hin). lia.
Qed.

(** In a disassembly without source annotation, made by a decoder that
    consumes bytes of the blob only, no two records share a code offset:
    the decoding returns, and scanning for the code offset of the record
    at a valid index gives that index back, so offsets and indices convert
    into each other. *)
Theorem decoded_index_round_trip (params : Params.t) (rdi : Z) (data : String8)
    (w : World) :
  not_annotated params rdi →
  str8_size data < 2 ^ 64 →
  decoder_stays_inside params data →
  ∃ (inst_list : DASM_InstChunkList) (inst_strings : String8List.t),
    dasm_decode params rdi data w = Ret (inst_list, inst_strings) w ∧
    let array := dasm_inst_array_from_chunk_list inst_list in
    ∀ idx : Z,
      0 ≤ idx < count array →
      dasm_inst_array_idx_from_code_off__linear_scan array
        (dasm_inst_array_code_off_from_idx array idx) = idx.
Proof.
  intros Hplain Hdata Hdecoder.
  destruct (decode_not_annotated params rdi data w Hplain)
    as (il & strs & Hrun & Hoffs & _).
  exists il, strs. split; [exact Hrun|]. intros array idx Hidx.
  apply linear_scan_inverts_code_off; [done|]. subst array.
  rewrite Hoffs.
  destruct ((Params.arch params =? Architecture_x64) ||
            (Params.arch params =? Architecture_x86)).
  - apply strictly_increasing_NoDup. by apply dasm_inst_offsets_sorted.
  - constructor.
Qed.

End DASM_Properties.

(** * The properties on the concrete configuration *)

(** Comparisons between closed integers, decided by evaluation. *)
Ltac compute_le := apply Z.leb_le; vm_compute; reflexivity.
Ltac compute_lt := apply Z.ltb_lt; vm_compute; reflexivity.
Ltac compute_range := split; [compute_le|compute_lt].
Ltac compute_neq := apply Z.eqb_neq; vm_compute; reflexivity.


Lemma C10_linear_scan_witness :
  dasm_inst_array_idx_from_code_off__linear_scan
    (mkInstArray [mkInst 0 0 (mkRng1U64 0 3); mkInst 3 0 (mkRng1U64 4 9);
                  mkInst 3 0 (mkRng1U64 10 12)]) 3 = 1.
Proof.
  apply (proj1 (C10_linear_scan_first_match_or_zero _ 3) 1%nat
           (mkInst 3 0 (mkRng1U64 4 9))).
  - reflexivity.
  - reflexivity.
  - intros j inst' Hj. assert (j = 0%nat) as -> by lia.
    intros [= <-]. simpl. lia.
Defined.

Lemma C6_zero_hash_lookup_witness :
  dasm_info_from_hash_params (header := example_header) (layers := example_layers)
    1 (mkU128 0 0) example_params example_world_init
  = Ret Info.zero example_world_init ∧
  count (Info.insts Info.zero) = 0.
Proof. apply C6_zero_hash_lookup_is_inert. reflexivity. Defined.

Lemma C1_key_lookup_witness :
  ∃ (r1 : Info.t) (w1 : World),
    dasm_info_from_key_params (header := example_header) (layers := example_layers)
      1 example_key example_params (Some u128_zero) example_world_loaded
    = Ret (r1, Some example_hash) w1 ∧
    count (Info.insts r1) = 5.
Proof.
  pose (look := λ rewind_idx w,
    dasm_info_from_hash_params (header := example_header) (layers := example_layers)
      1 (hs_hash_from_key (DASM_Layers := example_layers) example_key rewind_idx)
      example_params w).
  pose (w0 := res_world (look 0 example_world_loaded)).
  exists (Node.info (node_at (node_mem example_world_loaded) 16)),
    (res_world (look 1 w0)).
  split; [|vm_compute; reflexivity].
  apply (proj2 (C1_key_lookup_first_nonempty_rewind (header := example_header)
                  (layers := example_layers) 1 example_key example_params u128_zero
                  example_world_loaded) Info.zero _ w0).
  - vm_compute. reflexivity.
  - reflexivity.
  - vm_compute. reflexivity.
  - vm_compute. discriminate.
Defined.

Lemma C9_key_lookup_empty_witness :
  ∃ (w1 : World),
    dasm_info_from_key_params (header := example_header) (layers := example_layers)
      1 example_key example_params (Some (mkU128 5 5)) example_world_init
    = Ret (Info.zero, Some (mkU128 5 5)) w1.
Proof.
  pose (look := λ rewind_idx w,
    dasm_info_from_hash_params (header := example_header) (layers := example_layers)
      1 (hs_hash_from_key (DASM_Layers := example_layers) example_key rewind_idx)
      example_params w).
  pose (w0 := res_world (look 0 example_world_init)).
  exists (res_world (look 1 w0)).
  apply (C9_key_lookup_empty_keeps_hash_out (header := example_header)
           (layers := example_layers) 1 example_key example_params
           (Some (mkU128 5 5)) example_world_init w0 _ Info.zero Info.zero).
  - vm_compute. reflexivity.
  - reflexivity.
  - vm_compute. reflexivity.
  - reflexivity.
Defined.

Lemma C3_sweep_witness :
  dasm_evictor_detector_thread__sweep (header := example_header)
    (layers := example_layers) example_world_idle
  = Ret tt example_world_swept ∧
  (16 ∉ slot_list (slot_at (dasm_shared example_world_swept) 12)) ∧
  16 ∈ free_node (stripe_at (dasm_shared example_world_swept) 0) ∧
  18 ∈ released_arenas (os_trace example_world_swept).
Proof.
  assert (evictable (os_clock (DASM_Layers := example_layers)
                       (os_ticks example_world_idle))
            (user_clock_idx (dasm_shared example_world_idle))
            (node_at (node_mem example_world_idle) 16)) as Hidle.
  { unfold evictable. split_and!.
    - vm_compute. reflexivity.
    - apply Z.leb_le. vm_compute. reflexivity.
    - apply Z.leb_le. vm_compute. reflexivity.
    - apply Z.eqb_neq. vm_compute. reflexivity.
    - vm_compute. reflexivity. }
  assert (Node.info_arena (node_at (node_mem example_world_idle) 16) ≠ 0) as Harena.
  { apply Z.eqb_neq. vm_compute. reflexivity. }
  assert (table_wf example_world_idle) as Hwf.
  { unfold table_wf. split_and!; vm_compute; reflexivity. }
  assert (0 ≤ 12 < slots_count (dasm_shared example_world_idle)) as Hidx.
  { compute_range. }
  assert (16 ∈ slot_list (slot_at (dasm_shared example_world_idle) 12)) as Hin.
  { vm_compute. apply list_elem_of_here. }
  assert (dasm_evictor_detector_thread__sweep (header := example_header)
            (layers := example_layers) example_world_idle
          = Ret tt example_world_swept) as Hrun.
  { vm_compute. reflexivity. }
  pose proof (C3_sweep_evicts_exactly_the_idle_nodes (header := example_header)
                (layers := example_layers) example_world_idle
                12 16 Hwf Hidx Hin) as Hclaim.
  clear Hwf Hidx Hin. cbv zeta in Hclaim. rewrite Hrun in Hclaim.
  cbn [res_world] in Hclaim.
  destruct Hclaim as ([[_ Hevict]|[Hblocked _]] & _); [|discriminate Hblocked].
  destruct (Hevict Hidle) as (Hunlinked & Hpushed & Hreleased).
  exact (conj Hrun (conj Hunlinked (conj Hpushed (Hreleased Harena)))).
Defined.

(** C5. On the idle world the sweep evicts node 16 of slot 12 (it is
    unlinked and lies on the free list of stripe 0) and, in the same visit,
    runs the re-request branch for it: a record with the node's hash and
    parameters is written to the ring, and the evicted node's
    [last_time_requested_us] and [last_user_clock_idx_requested] are
    updated. *)
Theorem C5_sweep_requests_again_the_node_it_evicted :
  slot_list (slot_at (dasm_shared example_world_idle) 12) = [16] ∧
  dasm_evictor_detector_thread__sweep (header := example_header)
    (layers := example_layers) example_world_idle
  = Ret tt example_world_swept ∧
  slot_list (slot_at (dasm_shared example_world_swept) 12) = [] ∧
  free_node (stripe_at (dasm_shared example_world_swept) 0) = [16] ∧
  u2p_ring_write_pos (dasm_shared example_world_idle) = 72 ∧
  u2p_ring_write_pos (dasm_shared example_world_swept) = 144 ∧
  (∃ w, dasm_u2p_dequeue_req (header := example_header) example_world_swept
        = Ret (Node.hash (node_at (node_mem example_world_idle) 16),
               Node.params (node_at (node_mem example_world_idle) 16)) w) ∧
  Node.last_time_requested_us (node_at (node_mem example_world_idle) 16) = 0 ∧
  Node.last_time_requested_us (node_at (node_mem example_world_swept) 16)
  = 20000002 ∧
  Node.last_user_clock_idx_requested (node_at (node_mem example_world_idle) 16) = 0 ∧
  Node.last_user_clock_idx_requested (node_at (node_mem example_world_swept) 16)
  = 10.
Proof.
  split_and!; try (vm_compute; reflexivity).
  eexists. vm_compute. reflexivity.
Qed.


Lemma C2_ring_round_trip_witness :
  ∃ w1 w2,
    dasm_u2p_enqueue_req (header := example_header) (layers := example_layers)
      example_hash example_params max_U64 example_world_init = Ret true w1 ∧
    dasm_u2p_dequeue_req (header := example_header) w1
    = Ret (example_hash, example_params) w2 ∧
    u2p_ring_read_pos (dasm_shared w2) = 72 ∧
    u2p_ring_write_pos (dasm_shared w2) = 72.
Proof.
  assert (0 < u2p_ring_size (dasm_shared example_world_init) < 2 ^ 64) as Hsize.
  { split; compute_lt. }
  assert (u2p_ring_size (dasm_shared example_world_init) | 2 ^ 64) as Hdiv.
  { exists (2 ^ 48). vm_compute. reflexivity. }
  assert (0 ≤ u2p_ring_write_pos (dasm_shared example_world_init) < 2 ^ 64) as Hwp.
  { compute_range. }
  assert (u2p_ring_read_pos (dasm_shared example_world_init)
          = u2p_ring_write_pos (dasm_shared example_world_init)) as Hsync.
  { vm_compute. reflexivity. }
  assert (u2p_req_wf (header := example_header) example_hash example_params) as Hwf.
  { unfold u2p_req_wf. split_and!; first [compute_le|compute_lt]. }
  assert (u2p_req_fixed_size (header := example_header)
          + str8_size (DI_Key.path (Params.dbgi_key example_params))
          ≤ u2p_ring_size (dasm_shared example_world_init)) as Hfits.
  { compute_le. }
  destruct (C2_ring_round_trip (header := example_header) (layers := example_layers)
              example_world_init example_hash example_params max_U64
              Hsize Hdiv Hwp Hsync Hwf Hfits)
    as (w1 & w2 & Henq & Hdeq & _ & Hread & Hsame & Heq & _).
  clear Hsize Hdiv Hwp Hsync Hwf Hfits.
  exists w1, w2. split_and!; [exact Henq|exact Hdeq| |].
  - etrans; [exact Hread|]. clear. vm_compute. reflexivity.
  - etrans; [symmetry; exact Heq|]. etrans; [exact Hread|]. clear. vm_compute.
    reflexivity.
Defined.

(** C8. A successful enqueue appends to the trace one broadcast on the
    ring's condition variable.  A dequeue that returns appends one
    broadcast as well, but on the handle of the ring's mutex: in the world
    set up by [dasm_init] the condition variable is handle 14 and the mutex
    handle 15, and the dequeue of the pending request broadcasts on 15
    only. *)
Theorem C8_dequeue_broadcasts_on_the_mutex_handle :
  (∀ (header : DASM_Header) (layers : DASM_Layers) (hash : U128)
     (params : Params.t) (endt_us : Z) (w w' : World),
     dasm_u2p_enqueue_req hash params endt_us w = Ret true w' →
     os_trace w'
     = os_trace w ++ [Ev_condition_variable_broadcast (u2p_ring_cv (dasm_shared w))]) ∧
  (∀ (header : DASM_Header) (req : U128 * Params.t) (w w' : World),
     dasm_u2p_dequeue_req w = Ret req w' →
     os_trace w'
     = os_trace w ++ [Ev_condition_variable_broadcast (u2p_ring_mutex (dasm_shared w))]) ∧
  u2p_ring_cv (dasm_shared example_world_requested) = 14 ∧
  u2p_ring_mutex (dasm_shared example_world_requested) = 15 ∧
  dasm_u2p_dequeue_req (header := example_header) example_world_requested
  = Ret (example_hash, example_params) example_world_dequeued ∧
  os_trace example_world_dequeued
  = os_trace example_world_requested ++ [Ev_condition_variable_broadcast 15] ∧
  Ev_condition_variable_broadcast 14
  ∉ [Ev_condition_variable_broadcast 15].
Proof.
  split_and!.
  - intros header layers hash params endt_us w w'. apply enqueue_trace.
  - intros header req w w' Hrun. by eapply dequeue_trace.
  - vm_compute. reflexivity.
  - vm_compute. reflexivity.
  - vm_compute. reflexivity.
  - vm_compute. reflexivity.
  - intros Hin. apply list_elem_of_singleton in Hin. discriminate Hin.
Qed.


Lemma chunk_list_flattens_witness :
  v (dasm_inst_array_from_chunk_list
       (dasm_inst_chunk_list_of 2
          [mkInst 0 0 (mkRng1U64 0 3); mkInst 1 0 (mkRng1U64 4 7);
           mkInst 2 0 (mkRng1U64 8 11)]))
  = [mkInst 0 0 (mkRng1U64 0 3); mkInst 1 0 (mkRng1U64 4 7);
     mkInst 2 0 (mkRng1U64 8 11)].
Proof.
  refine (proj1 (chunk_list_flattens_to_the_pushed_records 2 _ _)). lia.
Defined.

Lemma chunk_list_fills_chunks_witness :
  node_count (dasm_inst_chunk_list_of 2
                [mkInst 0 0 (mkRng1U64 0 3); mkInst 1 0 (mkRng1U64 4 7);
                 mkInst 2 0 (mkRng1U64 8 11)])
  = wrap64 2 ∧
  map chunk_count
    (chunks (dasm_inst_chunk_list_of 2
               [mkInst 0 0 (mkRng1U64 0 3); mkInst 1 0 (mkRng1U64 4 7);
                mkInst 2 0 (mkRng1U64 8 11)]))
  = [2; 1].
Proof.
  destruct (chunk_list_fills_chunks_in_turn 2
              [mkInst 0 0 (mkRng1U64 0 3); mkInst 1 0 (mkRng1U64 4 7);
               mkInst 2 0 (mkRng1U64 8 11)]) as (Hnodes & _ & _); [lia|].
  split; [exact Hnodes|reflexivity].
Defined.

Lemma code_off_of_scanned_idx_witness :
  dasm_inst_array_code_off_from_idx
    (mkInstArray [mkInst 0 0 (mkRng1U64 0 3); mkInst 3 0 (mkRng1U64 4 9)])
    (dasm_inst_array_idx_from_code_off__linear_scan
       (mkInstArray [mkInst 0 0 (mkRng1U64 0 3); mkInst 3 0 (mkRng1U64 4 9)]) 3)
  = 3.
Proof.
  apply code_off_of_scanned_idx. exists (mkInst 3 0 (mkRng1U64 4 9)).
  split; [|reflexivity]. apply (list_elem_of_lookup_2 _ 1%nat). reflexivity.
Defined.

Lemma scanned_idx_of_code_off_witness :
  dasm_inst_array_idx_from_code_off__linear_scan
    (mkInstArray [mkInst 0 0 (mkRng1U64 0 3); mkInst 3 0 (mkRng1U64 4 9)])
    (dasm_inst_array_code_off_from_idx
       (mkInstArray [mkInst 0 0 (mkRng1U64 0 3); mkInst 3 0 (mkRng1U64 4 9)]) 1)
  = 1.
Proof.
  apply scanned_idx_of_code_off.
  - unfold count. simpl. lia.
  - apply (bool_decide_unpack _). vm_compute. exact I.
Defined.

Lemma example_ring_ok : u2p_ring_ok (dasm_shared example_world_init).
Proof.
  split_and!; [compute_lt|compute_lt|by exists (2 ^ 48)|by exists 8192].
Qed.

Lemma example_ring_empty :
  u2p_ring_queue (header := example_header) (dasm_shared example_world_init) [].
Proof.
  unfold u2p_ring_queue. split_and!;
    [compute_le|compute_lt|vm_compute; reflexivity|vm_compute; reflexivity
    |compute_le|exact I|constructor].
Qed.

Lemma example_req_wf :
  u2p_req_wf (header := example_header) example_hash example_params.
Proof. unfold u2p_req_wf. split_and!; first [compute_le|compute_lt]. Qed.

Lemma example_request_2_wf :
  u2p_req_wf (header := example_header) example_request_2.1 example_request_2.2.
Proof. unfold u2p_req_wf. split_and!; first [compute_le|compute_lt]. Qed.

Lemma u2p_enqueue_appends_witness :
  ∃ w',
    dasm_u2p_enqueue_req (header := example_header) (layers := example_layers)
      example_hash example_params max_U64 example_world_init = Ret true w' ∧
    u2p_ring_queue (header := example_header) (dasm_shared w')
      [(example_hash, example_params)].
Proof.
  destruct (u2p_enqueue_appends (header := example_header) (layers := example_layers)
              example_world_init [] example_hash example_params max_U64
              example_ring_ok example_ring_empty example_req_wf)
    as (w' & Hrun & Hqueue & _); [compute_le|].
  exists w'. split; [exact Hrun|exact Hqueue].
Defined.

Lemma example_ring_requested :
  u2p_ring_queue (header := example_header) (dasm_shared example_world_requested)
    [(example_hash, example_params)].
Proof.
  unfold u2p_ring_queue. split_and!;
    [compute_le|compute_lt|vm_compute; reflexivity|vm_compute; reflexivity
    |compute_le| |].
  - split; [vm_compute; reflexivity|exact I].
  - constructor; [exact example_req_wf|constructor].
Qed.

Lemma example_ring_requested_ok : u2p_ring_ok (dasm_shared example_world_requested).
Proof.
  split_and!; [compute_lt|compute_lt|by exists (2 ^ 48)|by exists 8192].
Qed.

Lemma u2p_dequeue_pops_the_oldest_witness :
  ∃ w',
    dasm_u2p_dequeue_req (header := example_header) example_world_requested
    = Ret (example_hash, example_params) w' ∧
    u2p_ring_queue (header := example_header) (dasm_shared w') [].
Proof.
  destruct (u2p_dequeue_pops_the_oldest (header := example_header)
              example_world_requested example_hash example_params []
              example_ring_requested_ok example_ring_requested)
    as (w' & Hrun & Hqueue & _).
  exists w'. split; [exact Hrun|exact Hqueue].
Defined.

Lemma u2p_ring_is_first_in_first_out_witness :
  ∃ w1 w2,
    u2p_enqueue_all (header := example_header) (layers := example_layers)
      [(example_hash, example_params); example_request_2] max_U64 example_world_init
    = Ret tt w1 ∧
    u2p_dequeue_n (header := example_header) 2 w1
    = Ret [(example_hash, example_params); example_request_2] w2.
Proof.
  destruct (u2p_ring_is_first_in_first_out (header := example_header)
              (layers := example_layers) example_world_init []
              [(example_hash, example_params); example_request_2] max_U64
              example_ring_ok example_ring_empty)
    as (w1 & w2 & Hrun1 & Hrun2 & _).
  - constructor; [exact example_req_wf|].
    constructor; [exact example_request_2_wf|constructor].
  - compute_le.
  - exists w1, w2. split; [exact Hrun1|exact Hrun2].
Defined.

Lemma u2p_dequeue_waits_witness :
  ∃ w',
    dasm_u2p_dequeue_req (header := example_header) example_world_init = Blocked w' ∧
    os_trace w' = os_trace example_world_init ++ [Ev_condition_variable_wait 14 15 max_U64].
Proof.
  destruct (u2p_dequeue_waits_on_an_empty_ring (header := example_header)
              example_world_init example_ring_empty)
    as (w' & Hrun & _ & _ & Htrace).
  exists w'. split; [exact Hrun|exact Htrace].
Defined.

Lemma u2p_enqueue_fails_witness :
  20000000
  ≤ os_clock (DASM_Layers := example_layers)
      (Nat.pred
         (os_ticks
            (exec (dasm_u2p_enqueue_req (header := example_header)
                     (layers := example_layers) example_hash example_params 20000000)
               example_world_small_ring))) ∧
  dasm_shared
    (exec (dasm_u2p_enqueue_req (header := example_header) (layers := example_layers)
             example_hash example_params 20000000) example_world_small_ring)
  = dasm_shared example_world_small_ring.
Proof.
  destruct (u2p_enqueue_fails_only_at_the_deadline (header := example_header)
              (layers := example_layers) example_world_small_ring
              (exec (dasm_u2p_enqueue_req (header := example_header)
                       (layers := example_layers) example_hash example_params 20000000)
                 example_world_small_ring)
              example_hash example_params 20000000)
    as (_ & Hlate & Hshared & _).
  - vm_compute. reflexivity.
  - split; [exact Hlate|exact Hshared].
Defined.

Lemma dasm_init_witness :
  table_wf example_world_init ∧
  stripes_count (dasm_shared example_world_init) = 4 ∧
  u2p_ring_cv (dasm_shared example_world_init)
  ≠ u2p_ring_mutex (dasm_shared example_world_init).
Proof.
  destruct (dasm_init_sets_up_the_table_and_the_ring (header := example_header)
              (layers := example_layers)
              world_zero)
    as (w' & Hrun & Hwf & _ & Hstripes & _ & _ & _ & _ & _ & _ & _ & _ & Hnodup & _).
  - simpl. lia.
  - assert (w' = example_world_init) as ->.
    { unfold example_world_init, exec. by rewrite Hrun. }
    split; [exact Hwf|]. split; [exact Hstripes|].
    apply NoDup_app in Hnodup as (_ & _ & Hnodup).
    apply NoDup_cons in Hnodup as [Hne _]. intros Heq. apply Hne. rewrite Heq. left.
Defined.

Lemma user_clock_counts_the_ticks_witness :
  dasm_user_clock_idx
    (exec (repeat_M 10 dasm_user_clock_tick) (example_world_committed 3))
  = Ret 10 (exec (repeat_M 10 dasm_user_clock_tick) (example_world_committed 3)).
Proof.
  destruct (user_clock_counts_the_ticks 10 (example_world_committed 3))
    as (w' & Hrun & Hidx & _).
  - split; [compute_le|compute_lt].
  - assert (w' = exec (repeat_M 10 dasm_user_clock_tick) (example_world_committed 3)) as <-.
    { unfold exec. by rewrite Hrun. }
    exact Hidx.
Defined.

Ltac compute_table_wf :=
  unfold table_wf; split_and!; [vm_compute; reflexivity|vm_compute; reflexivity|compute_lt].
Ltac compute_laid_out := split_and!; [compute_table_wf|compute_lt|compute_lt].

Lemma example_table_wf : table_wf example_world_init.
Proof. compute_table_wf. Qed.

Lemma example_loaded_laid_out : dasm_shared_laid_out example_world_loaded.
Proof. compute_laid_out. Qed.

Lemma lookup_hit_witness :
  ∃ w',
    dasm_info_from_hash_params (header := example_header) (layers := example_layers)
      1 example_hash example_params example_world_loaded
    = Ret (Node.info (node_at (node_mem example_world_loaded) 16)) w' ∧
    node_at (node_mem w') 16
    = node_touched
        (os_clock (DASM_Layers := example_layers) (os_ticks example_world_loaded))
        (user_clock_idx (dasm_shared example_world_loaded))
        (node_at (node_mem example_world_loaded) 16) ∧
    dasm_shared w' = dasm_shared example_world_loaded.
Proof.
  destruct (lookup_hit_pins_the_node (header := example_header) (layers := example_layers)
              1 example_hash example_params example_world_loaded 16)
    as (w' & Hrun & Hnode & _ & _ & Hshared & _).
  - exact example_loaded_laid_out.
  - reflexivity.
  - vm_compute. reflexivity.
  - exists w'. split; [exact Hrun|]. split; [exact Hnode|exact Hshared].
Defined.

Lemma lookup_miss_witness :
  ∃ w',
    dasm_info_from_hash_params (header := example_header) (layers := example_layers)
      1 example_hash example_params example_world_init
    = Ret Info.zero w' ∧
    slot_list (slot_at (dasm_shared w') 12) = [16] ∧
    node_at (node_mem w') 16
    = Node.mk example_hash example_params 0 Info.zero 0 0 0 0 0 0 0 0 ∧
    u2p_ring_queue (header := example_header) (dasm_shared w')
      [(example_hash, example_params)] ∧
    scope_mem w' = scope_mem example_world_init.
Proof.
  destruct (lookup_miss_links_a_node_and_requests_it (header := example_header)
              (layers := example_layers) 1 example_hash example_params []
              example_world_init)
    as (w' & Hrun & Hslot & _ & _ & _ & Hnode & _ & Hqueue & _ & _ & Hscope & _).
  - reflexivity.
  - vm_compute. reflexivity.
  - exact example_table_wf.
  - compute_lt.
  - exact example_ring_ok.
  - exact example_ring_empty.
  - exact example_req_wf.
  - compute_le.
  - exists w'. split; [exact Hrun|]. split; [exact Hslot|]. split; [exact Hnode|].
    split; [exact Hqueue|exact Hscope].
Defined.

Lemma lookup_again_witness :
  ∃ w1 w2,
    dasm_info_from_hash_params (header := example_header) (layers := example_layers)
      1 example_hash example_params example_world_init
    = Ret Info.zero w1 ∧
    dasm_info_from_hash_params (header := example_header) (layers := example_layers)
      1 example_hash example_params w1
    = Ret Info.zero w2 ∧
    slot_list (slot_at (dasm_shared w2) 12) = [16] ∧
    u2p_ring_queue (header := example_header) (dasm_shared w2)
      [(example_hash, example_params)].
Proof.
  destruct (lookup_again_finds_the_linked_node (header := example_header)
              (layers := example_layers) 1 example_hash example_params []
              example_world_init)
    as (w1 & w2 & Hrun1 & Hrun2 & Hslot & Hqueue & _).
  - reflexivity.
  - vm_compute. reflexivity.
  - vm_compute. reflexivity.
  - exact example_table_wf.
  - compute_lt.
  - exact example_ring_ok.
  - exact example_ring_empty.
  - exact example_req_wf.
  - compute_le.
  - exists w1, w2. split; [exact Hrun1|]. split; [exact Hrun2|].
    split; [exact Hslot|exact Hqueue].
Defined.

Lemma str8_eqb_eq (a b : String8) : str8_eqb a b = true → a = b.
Proof.
  unfold str8_eqb. revert b. induction a as [|x a IH]; intros [|y b]; cbn; try done.
  intros [Hlen [Hxy Hrest]%andb_prop]%andb_prop.
  apply Byte.byte_dec_bl in Hxy as ->. f_equal. apply IH.
  by rewrite Hlen, Hrest.
Qed.

Lemma example_di_key_match_congruent (x y z : DI_Key.t) :
  di_key_match (DASM_Layers := example_layers) x y = true →
  di_key_match (DASM_Layers := example_layers) y z
  = di_key_match (DASM_Layers := example_layers) x z.
Proof.
  cbn. intros [Hpath%str8_eqb_eq Hts%Z.eqb_eq]%andb_prop. by rewrite Hpath, Hts.
Qed.

Lemma scope_close_takes_back_the_pin_witness :
  ∃ scope w1 w2,
    dasm_info_from_hash_params (header := example_header) (layers := example_layers)
      scope example_hash example_params
      (exec (dasm_scope_open None) example_world_loaded)
    = Ret (Node.info (node_at (node_mem example_world_loaded) 16)) w1 ∧
    Node.scope_ref_count (node_at (node_mem w1) 16) = wrap64 (0 + 1) ∧
    dasm_scope_close (layers := example_layers) scope w1
    = Ret tt w2 ∧
    Node.scope_ref_count (node_at (node_mem w2) 16) = 0.
Proof.
  destruct (scope_close_takes_back_the_pin (header := example_header)
              (layers := example_layers) None example_hash example_params
              example_world_loaded 16)
    as (scope & tctx & w0 & w1 & w2 & Hopen & Hrun & Hpinned & Hclose & Hback & _).
  - exact example_loaded_laid_out.
  - reflexivity.
  - vm_compute. reflexivity.
  - exact example_di_key_match_congruent.
  - split; [compute_le|compute_lt].
  - exists scope, w1, w2.
    assert (w0 = exec (dasm_scope_open None) example_world_loaded) as <-
      by (unfold exec; by rewrite Hopen).
    split; [exact Hrun|]. split; [exact Hpinned|]. split; [exact Hclose|exact Hback].
Defined.

Lemma pinned_node_survives_the_sweep_witness :
  16 ∈ slot_list
         (slot_at
            (dasm_shared
               (exec (dasm_evictor_detector_thread__sweep (header := example_header)
                        (layers := example_layers))
                  (exec (dasm_info_from_hash_params (header := example_header)
                           (layers := example_layers) 1 example_hash example_params)
                     example_world_idle)))
            12).
Proof.
  destruct (pinned_node_survives_the_sweep (header := example_header)
              (layers := example_layers) 1 example_hash example_params
              example_world_idle 16)
    as (w1 & Hrun & Hsweep).
  - compute_laid_out.
  - reflexivity.
  - vm_compute. reflexivity.
  - split; [compute_le|compute_lt].
  - assert (w1 = exec (dasm_info_from_hash_params (header := example_header)
                         (layers := example_layers) 1 example_hash example_params)
                   example_world_idle) as Hw1
      by (unfold exec; by rewrite Hrun).
    clear Hrun. rewrite Hw1 in Hsweep. clear Hw1.
    exact (proj1 (proj2 Hsweep)).
Defined.

Lemma scope_close_drops_witness :
  ∃ w',
    dasm_scope_close (layers := example_layers) 1
      (exec (dasm_info_from_hash_params (header := example_header)
               (layers := example_layers) 1 example_hash example_params)
         example_world_loaded)
    = Ret tt w' ∧
    dasm_shared w' = dasm_shared example_world_loaded ∧
    scope_mem w' !! 1 = None.
Proof.
  destruct (scope_close_drops_one_reference_per_touch (header := example_header)
              (layers := example_layers) 1
              (exec (dasm_info_from_hash_params (header := example_header)
                       (layers := example_layers) 1 example_hash example_params)
                 example_world_loaded))
    as (w' & Hrun & _ & Hscope & Hshared & _).
  - compute_laid_out.
  - exists w'. split; [exact Hrun|]. split.
    + rewrite Hshared. vm_compute. reflexivity.
    + rewrite Hscope. apply lookup_delete_eq.
Defined.


Lemma sweep_stamps_witness :
  Node.last_user_clock_idx_requested
    (node_at
       (node_mem
          (exec (dasm_evictor_detector_thread__sweep (header := example_header)
                   (layers := example_layers_bounded)) example_world_idle))
       16)
  = 10.
Proof.
  refine (proj1 (sweep_stamps_the_node_it_requests_again (header := example_header)
                   (layers := example_layers_bounded) example_world_idle
                   (exec (dasm_evictor_detector_thread__sweep (header := example_header)
                            (layers := example_layers_bounded)) example_world_idle)
                   12 16 _ _ _ _ _ _ _)).
  - compute_table_wf.
  - compute_lt.
  - intros ticks. cbn [os_clock example_layers_bounded]. unfold max_U64.
    change (2 ^ 64) with 18446744073709551616. lia.
  - vm_compute. reflexivity.
  - split; [compute_le|compute_lt].
  - apply (list_elem_of_lookup_2 _ 0%nat). vm_compute. reflexivity.
  - vm_compute. reflexivity.
Defined.

Lemma worker_drops_the_request_witness :
  dasm_parse_thread__iteration (header := example_header) (layers := example_layers)
    example_world_orphan_request
  = Ret tt (exec (dasm_u2p_dequeue_req (header := example_header))
              example_world_orphan_request).
Proof.
  apply (worker_drops_the_request (header := example_header) (layers := example_layers)
           example_world_orphan_request _ example_hash example_params).
  - compute_laid_out.
  - vm_compute. reflexivity.
  - left. vm_compute. reflexivity.
Defined.


Lemma example_decoder_stays_inside :
  decoder_stays_inside (header := example_header) (layers := example_layers)
    example_params (str8_lit "abc").
Proof.
  intros o Ho. change (str8_size (str8_lit "abc")) with 3 in *.
  change (ud_insn_size _) with 1. lia.
Qed.

Lemma decode_loop_ends_within_the_blob_witness :
  dasm_inst_offsets (header := example_header) (layers := example_layers)
    (3 + 5) example_params (str8_lit "abc") 0
  = dasm_inst_offsets (header := example_header) (layers := example_layers)
      3 example_params (str8_lit "abc") 0.
Proof.
  refine (proj1 (proj2 (decode_loop_ends_within_the_blob (header := example_header)
                          (layers := example_layers) example_params 500
                          (str8_lit "abc") 5 _ example_decoder_stays_inside))).
  compute_lt.
Defined.

Lemma decode_without_annotation_witness :
  ∃ inst_list inst_strings,
    dasm_decode (header := example_header) (layers := example_layers)
      example_params 400 (str8_lit "abc") world_zero
    = Ret (inst_list, inst_strings) world_zero ∧
    map code_off (v (dasm_inst_array_from_chunk_list inst_list)) = [0; 1; 2].
Proof.
  destruct (decode_without_annotation_is_one_record_per_instruction
              (header := example_header) (layers := example_layers)
              example_params 400 (str8_lit "abc") world_zero)
    as (inst_list & inst_strings & Hrun & Hoffsets & _).
  - right. reflexivity.
  - exists inst_list, inst_strings. split; [exact Hrun|exact Hoffsets].
Defined.

Lemma code_bytes_column_width_witness :
  str8_size (dasm_code_bytes_part (str8_lit "abc") 0 3) = 27.
Proof. apply (code_bytes_column_width (str8_lit "abc") 0 3). lia. Defined.




Lemma lookup_miss_on_a_full_ring_witness :
  ∃ w',
    dasm_info_from_hash_params (header := example_header) (layers := example_layers)
      1 example_hash example_params example_world_full_ring = Blocked w' ∧
    slot_list (slot_at (dasm_shared w') 12) = [16] ∧
    u2p_ring_queue (header := example_header) (dasm_shared w') [] ∧
    os_trace w'
    = os_trace example_world_full_ring ++ [Ev_condition_variable_wait 14 15 max_U64].
Proof.
  destruct (lookup_miss_on_a_full_ring_waits (header := example_header)
              (layers := example_layers) 1 example_hash example_params []
              example_world_full_ring)
    as (w' & Hrun & Hslot & _ & _ & Hqueue & _ & Htrace).
  - reflexivity.
  - vm_compute. reflexivity.
  - unfold table_wf. split_and!; [vm_compute; reflexivity|vm_compute; reflexivity|compute_lt].
  - compute_lt.
  - split_and!; [compute_lt|compute_lt|by exists (2 ^ 61)|by exists 1].
  - unfold u2p_ring_queue. split_and!;
      [compute_le|compute_lt|vm_compute; reflexivity|vm_compute; reflexivity
      |compute_le|exact I|constructor].
  - compute_lt.
  - compute_lt.
  - compute_lt.
  - exists w'. split; [exact Hrun|]. split; [exact Hslot|]. split; [exact Hqueue|exact Htrace].
Defined.

Lemma decoded_index_round_trip_witness :
  ∃ inst_list inst_strings,
    dasm_decode (header := example_header) (layers := example_layers)
      example_params 400 (str8_lit "abc") world_zero
    = Ret (inst_list, inst_strings) world_zero ∧
    count (dasm_inst_array_from_chunk_list inst_list) = 3 ∧
    dasm_inst_array_idx_from_code_off__linear_scan
      (dasm_inst_array_from_chunk_list inst_list)
      (dasm_inst_array_code_off_from_idx (dasm_inst_array_from_chunk_list inst_list) 1)
    = 1.
Proof.
  destruct (decoded_index_round_trip (header := example_header) (layers := example_layers)
              example_params 400 (str8_lit "abc") world_zero)
    as (inst_list & inst_strings & Hrun & Hscan).
  - right. reflexivity.
  - compute_lt.
  - exact example_decoder_stays_inside.
  - exists inst_list, inst_strings. split; [exact Hrun|].
    assert (count (dasm_inst_array_from_chunk_list inst_list) = 3) as Hcount.
    { vm_compute in Hrun. injection Hrun as <- _. reflexivity. }
    split; [exact Hcount|]. apply Hscan. rewrite Hcount. lia.
Defined.
